(** * F5 BIG-IP modules: client SSL profile and global system settings

    A shallow embedding of
    [lib/ansible/modules/network/f5/bigip_profile_client_ssl.py] and
    [lib/ansible/modules/network/f5/bigip_sys_global.py].

    Python objects are explicit states: a parameter object is its [_values]
    dictionary, a module manager is a record holding [want], [have],
    [changes], the device and the trace of SDK calls.  Exceptions are an
    error result; a raise keeps the state reached so far, so that the trace
    of device calls issued before the raise stays observable. *)

From Stdlib Require Import ZArith Ascii String DecimalString.
From stdpp Require Import base option list gmap strings sorting.

Local Open Scope Z_scope.
Local Open Scope string_scope.

(** ** Python values *)

(** What a field of a JSON-like object holds: [None], an integer or a
    string. *)
Inductive cell : Type :=
  | CNone
  | CInt (z : Z)
  | CStr (s : string).

#[global] Instance cell_eq_dec : EqDecision cell.
Proof. solve_decision. Defined.

#[global] Instance cell_inhabited : Inhabited cell := populate CNone.

(** A JSON-like object: a certificate bundle, a raw [cert_key_chain] entry
    as the user wrote it, a deprecation notice. *)
Abbreviation dict := (gmap string cell).

Inductive pyval : Type :=
  | PNone
  | PBool (b : bool)
  | PInt (z : Z)
  | PStr (s : string)
  | PDicts (l : list dict).

#[global] Instance pyval_eq_dec : EqDecision pyval.
Proof. solve_decision. Defined.

#[global] Instance pyval_inhabited : Inhabited pyval := populate PNone.

(** [x is None] *)
Definition is_none (v : pyval) : bool :=
  match v with PNone => true | _ => false end.

(** Python compares booleans and integers as numbers ([True == 1]). *)
Definition num_of (v : pyval) : option Z :=
  match v with
  | PBool b => Some (if b then 1 else 0)
  | PInt z => Some z
  | _ => None
  end.

(** [a == b] *)
Definition pyeq (a b : pyval) : bool :=
  match num_of a, num_of b with
  | Some x, Some y => Z.eqb x y
  | None, None => bool_decide (a = b)
  | _, _ => false
  end.

(** [v in l] for a list [l] *)
Definition pyin (v : pyval) (l : list pyval) : bool :=
  existsb (fun x => pyeq v x) l.

Definition join (sep : string) (l : list string) : string :=
  match l with
  | [] => ""
  | x :: r => fold_left (fun acc y => acc ++ sep ++ y) r x
  end.

(** [repr] of a list of objects, as Python prints plain strings; entries
    are printed in key order. *)
Definition pyrepr_cell (c : cell) : string :=
  match c with
  | CNone => "None"
  | CInt z => NilZero.string_of_int (Z.to_int z)
  | CStr s => "'" ++ s ++ "'"
  end.

Definition pyrepr_dict (d : dict) : string :=
  "{" ++ join ", " (map (fun kv => "'" ++ kv.1 ++ "': " ++ pyrepr_cell kv.2)
                        (map_to_list d)) ++ "}".

(** [str(v)] *)
Definition pystr (v : pyval) : string :=
  match v with
  | PNone => "None"
  | PBool true => "True"
  | PBool false => "False"
  | PInt z => NilZero.string_of_int (Z.to_int z)
  | PStr s => s
  | PDicts l => "[" ++ join ", " (map pyrepr_dict l) ++ "]"
  end.

(** The value a field holds, as a value of its own, and its [str]. *)
Definition py_of_cell (c : cell) : pyval :=
  match c with
  | CNone => PNone
  | CInt z => PInt z
  | CStr s => PStr s
  end.

Definition cell_str (c : cell) : string := pystr (py_of_cell c).

(** ** Exceptions and the state-and-error monad *)

Inductive exn : Type :=
  | F5ModuleError (msg : string)
  | KeyError (key : string)
  | TypeError (msg : string)
  | AttributeError (msg : string)
  | iControlUnexpectedHTTPError (msg : string).

#[global] Instance exn_eq_dec : EqDecision exn.
Proof. solve_decision. Defined.

Inductive res (A : Type) : Type :=
  | Ok (a : A)
  | Raise (e : exn).
Arguments Ok {A} a.
Arguments Raise {A} e.

(** A computation over a state [S]: the state survives a raise. *)
Definition M (S A : Type) : Type := S -> res A * S.

Definition ret {S A} (a : A) : M S A := fun s => (Ok a, s).
Definition raise {S A} (e : exn) : M S A := fun s => (Raise e, s).
Definition bind {S A B} (m : M S A) (k : A -> M S B) : M S B :=
  fun s => match m s with
           | (Ok a, s') => k a s'
           | (Raise e, s') => (Raise e, s')
           end.
Definition get {S} : M S S := fun s => (Ok s, s).
(** A result that does not depend on the state. *)
Definition lift {S A} (r : res A) : M S A := fun s => (r, s).
Definition modify {S} (f : S -> S) : M S unit := fun s => (Ok tt, f s).
(** [try: m  except iControlUnexpectedHTTPError as e:
          raise F5ModuleError(str(e))] *)
Definition reraise_http {S A} (m : M S A) : M S A :=
  fun s => match m s with
           | (Raise (iControlUnexpectedHTTPError msg), s') =>
               (Raise (F5ModuleError msg), s')
           | r => r
           end.
(** [try: m  except AttributeError: h] *)
Definition catch_attribute_error {S A} (m : M S A) (h : M S A) : M S A :=
  fun s => match m s with
           | (Raise (AttributeError _), s') => h s'
           | r => r
           end.

Declare Scope py_scope.
Delimit Scope py_scope with py.
Notation "'let!' x ':=' m 'in' k" := (bind m (fun x => k))
  (at level 10, x name, m at level 100, k at level 200) : py_scope.
Notation "m ;; k" := (bind m (fun _ => k))
  (at level 100, k at level 200, right associativity) : py_scope.
Local Open Scope py_scope.

(** [for x in l: f x] *)
Fixpoint for_each {S A} (l : list A) (f : A -> M S unit) : M S unit :=
  match l with
  | [] => ret tt
  | x :: r => f x ;; for_each r f
  end.

(** ** The parameter container ([Parameters], both modules)

    A parameter object is its [_values], a [defaultdict(lambda: None)]. *)
Abbreviation values := (gmap string pyval).

(** [self._values[k]]: the default factory answers [None] for a key that
    was never stored. *)
Definition getv (self : values) (k : string) : pyval :=
  default PNone (self !! k).

(** Modelled from the spec: [AnsibleF5Parameters] (module_utils.f5_utils) is
    not part of the sources.  [_filter_params] keeps the fields that carry a
    value ("possibly absent/filtered", "all non-null desired fields"). *)
Definition _filter_params (params : values) : values :=
  filter (fun kv => kv.2 <> PNone) params.

(** How an attribute of a parameter object is read: the properties of the
    concrete class, which may update the object and may raise. *)
Definition getter := string -> M values pyval.

(** Modelled from the spec: the attribute fallback of [AnsibleF5Parameters],
    an attribute that is no property is the stored value. *)
Definition base_getattr : getter := fun item self => (Ok (getv self item), self).

(** [Parameters.update]: every branch of the source stores the raw value
    under the mapped key, no property of these modules has a setter. *)
Definition map_key (api_map : gmap string string) (k : string) : string :=
  default k (api_map !! k).

Definition update (api_map : gmap string string) (params : values)
    (self : values) : values :=
  map_fold (fun k v acc => <[map_key api_map k := v]> acc) self params.

(** [Parameters.__init__] *)
Definition init (api_map : gmap string string) (params : values) : values :=
  update api_map params {[ "__warnings" := PDicts [] ]}.

(** [Parameters.api_params] *)
Fixpoint api_params_loop (getattr : getter) (api_map : gmap string string)
    (attrs : list string) (result : values) : M values values :=
  match attrs with
  | [] => ret result
  | a :: r =>
      let! v := getattr (map_key api_map a) in
      api_params_loop getattr api_map r (<[a := v]> result)
  end.

Definition api_params (getattr : getter) (api_map : gmap string string)
    (api_attributes : list string) : M values values :=
  let! result := api_params_loop getattr api_map api_attributes ∅ in
  ret (_filter_params result).

(** [Changes.to_return]: a raise inside the loop is swallowed and the
    entries collected so far are returned unfiltered. *)
Fixpoint to_return_loop (returnables : list string) (self : values)
    (result : values) : values :=
  match returnables with
  | [] => _filter_params result
  | r :: rest =>
      match base_getattr r self with
      | (Ok v, _) => to_return_loop rest self (<[r := v]> result)
      | (Raise _, _) => result
      end
  end.

Definition to_return (returnables : list string) (self : values) : values :=
  to_return_loop returnables self ∅.

(** * Global system settings ([bigip_sys_global.py]) *)
Module SysGlobal.

Definition api_map : gmap string string :=
  list_to_map
    [ ("guiSecurityBanner", "security_banner");
      ("guiSecurityBannerText", "banner_text");
      ("guiSetup", "gui_setup");
      ("lcdDisplay", "lcd_display");
      ("mgmtDhcp", "mgmt_dhcp");
      ("netReboot", "net_reboot");
      ("quietBoot", "quiet_boot");
      ("consoleInactivityTimeout", "console_timeout") ].

Definition api_attributes : list string :=
  [ "guiSecurityBanner"; "guiSecurityBannerText"; "guiSetup"; "lcdDisplay";
    "mgmtDhcp"; "netReboot"; "quietBoot"; "consoleInactivityTimeout" ].

Definition returnables : list string :=
  [ "security_banner"; "banner_text"; "gui_setup"; "lcd_display";
    "mgmt_dhcp"; "net_reboot"; "quiet_boot"; "console_timeout" ].

Definition updatables : list string :=
  [ "security_banner"; "banner_text"; "gui_setup"; "lcd_display";
    "mgmt_dhcp"; "net_reboot"; "quiet_boot"; "console_timeout" ].

(** Modelled from the spec: [BOOLEANS_TRUE] and [BOOLEANS_FALSE] of
    module_utils.parsing.convert_bool are not part of the sources.  The
    "conventional boolean tokens (true/false/yes/no/1/0)"; the boolean
    [True] is the number [1], [False] the number [0]. *)
Definition BOOLEANS_TRUE : list pyval :=
  [ PStr "yes"; PStr "true"; PStr "1"; PInt 1 ].
Definition BOOLEANS_FALSE : list pyval :=
  [ PStr "no"; PStr "false"; PStr "0"; PInt 0 ].

Definition deprecation_notice : dict :=
  {[ "version" := CStr "2.5";
     "msg" := CStr "enabled/disabled are deprecated. Use boolean values (true, yes, no, 1, 0) instead." ]}.

(** [self._values['__warnings'].append(w)] *)
Definition append_warning (w : dict) : M values unit :=
  fun self =>
    match getv self "__warnings" with
    | PDicts l => (Ok tt, <["__warnings" := PDicts (l ++ [w])%list]> self)
    | _ => (Raise (AttributeError "append"), self)
    end.

(** [ModuleParameters._get_boolean_like_return_value] *)
Definition _get_boolean_like_return_value (parameter : string) : M values pyval :=
  let! self := get in
  let v := getv self parameter in
  if is_none v then ret PNone
  else
    (if pyin v [PStr "enabled"; PStr "disabled"]
     then append_warning deprecation_notice else ret tt) ;;
    let true_ := (BOOLEANS_TRUE ++ [PStr "True"])%list in
    let false_ := (BOOLEANS_FALSE ++ [PStr "False"])%list in
    if pyin v true_ then ret (PStr "enabled")
    else if pyin v false_ then ret (PStr "disabled")
    else ret (PStr (pystr v)).

Definition security_banner := _get_boolean_like_return_value "security_banner".
Definition gui_setup := _get_boolean_like_return_value "gui_setup".
Definition banner_text := _get_boolean_like_return_value "banner_text".
Definition lcd_display := _get_boolean_like_return_value "lcd_display".
Definition mgmt_dhcp := _get_boolean_like_return_value "mgmt_dhcp".
Definition net_reboot := _get_boolean_like_return_value "net_reboot".
Definition quiet_boot := _get_boolean_like_return_value "quiet_boot".

(** The properties of [ModuleParameters], by name. *)
Definition property (item : string) : option (M values pyval) :=
  if String.eqb item "security_banner" then Some security_banner
  else if String.eqb item "gui_setup" then Some gui_setup
  else if String.eqb item "banner_text" then Some banner_text
  else if String.eqb item "lcd_display" then Some lcd_display
  else if String.eqb item "mgmt_dhcp" then Some mgmt_dhcp
  else if String.eqb item "net_reboot" then Some net_reboot
  else if String.eqb item "quiet_boot" then Some quiet_boot
  else None.

(** [getattr(want, item)]: the property when the class has one, with
    Python's fallback to the stored value when it raises an
    [AttributeError]; the stored value otherwise. *)
Definition want_getattr : getter :=
  fun item =>
    match property item with
    | Some p => catch_attribute_error p (base_getattr item)
    | None => base_getattr item
    end.

(** Calls to the SDK resource [tm.sys.global_settings]. *)
Inductive call : Type :=
  | Load
  | Modify (params : values).

(** The module manager, with the client it holds: the check-mode flag, the
    device behind the SDK ([device] are the attributes of the settings
    resource), the SDK calls issued so far and the notices handed to
    [module.deprecate] as (msg, version). *)
Record manager : Type := Manager {
  want : values;
  have : values;
  changes : values;
  check_mode : bool;
  device : values;
  calls : list call;
  deprecations : list (cell * cell)
}.

Definition set_want (w : values) (s : manager) : manager :=
  Manager w (have s) (changes s) (check_mode s) (device s) (calls s) (deprecations s).
Definition set_have (h : values) (s : manager) : manager :=
  Manager (want s) h (changes s) (check_mode s) (device s) (calls s) (deprecations s).
Definition set_changes (c : values) (s : manager) : manager :=
  Manager (want s) (have s) c (check_mode s) (device s) (calls s) (deprecations s).
Definition set_device (d : values) (s : manager) : manager :=
  Manager (want s) (have s) (changes s) (check_mode s) d (calls s) (deprecations s).
Definition log_call (c : call) (s : manager) : manager :=
  Manager (want s) (have s) (changes s) (check_mode s) (device s) (calls s ++ [c])%list (deprecations s).
Definition deprecate (msg version : cell) (s : manager) : manager :=
  Manager (want s) (have s) (changes s) (check_mode s) (device s) (calls s)
          (deprecations s ++ [(msg, version)])%list.

(** Run a method of [self.want] / [self.have]: the object is shared with
    the manager, what the method stores stays stored. *)
Definition on_want {A} (m : M values A) : M manager A :=
  fun s => let (r, w) := m (want s) in (r, set_want w s).
Definition on_have {A} (m : M values A) : M manager A :=
  fun s => let (r, h) := m (have s) in (r, set_have h s).

(** [ModuleManager.__init__] *)
Definition new_manager (params : values) (check : bool) (dev : values) : manager :=
  Manager (init api_map params) (init api_map ∅) (init api_map ∅) check dev [] [].

(** [Difference]: the class defines no property, the attribute lookup of
    [compare] always raises. *)
Definition difference_getattr (param : string) : M manager pyval :=
  raise (AttributeError param).

(** [Difference.__default] *)
Definition __default (param : string) : M manager pyval :=
  let! attr1 := on_want (want_getattr param) in
  catch_attribute_error
    (let! attr2 := on_have (base_getattr param) in
     if negb (pyeq attr1 attr2) then ret attr1 else ret PNone)
    (ret attr1).

(** [Difference.compare] *)
Definition compare (param : string) : M manager pyval :=
  catch_attribute_error (difference_getattr param) (__default param).

(** [ModuleManager._update_changed_options]; a change is never a single
    [dict] here, so it is stored under its key. *)
Fixpoint changed_loop (ks : list string) (changed : values) : M manager values :=
  match ks with
  | [] => ret changed
  | k :: r =>
      let! change := compare k in
      if is_none change then changed_loop r changed
      else changed_loop r (<[k := change]> changed)
  end.

Definition _update_changed_options : M manager bool :=
  let! changed := changed_loop updatables ∅ in
  if bool_decide (changed = ∅) then ret false
  else modify (set_changes (init api_map changed)) ;; ret true.

(** [ModuleManager.should_update] *)
Definition should_update : M manager bool :=
  let! result := _update_changed_options in
  if result then ret true else ret false.

(** Modelled from the spec: the SDK resource, "load" answers the current
    attributes, "modify" stores the given ones. *)
Definition sdk_load : M manager values :=
  modify (log_call Load) ;; let! s := get in ret (device s).
Definition sdk_modify (params : values) : M manager unit :=
  modify (log_call (Modify params)) ;;
  modify (fun s => set_device (params ∪ device s) s).

(** [ModuleManager.read_current_from_device] *)
Definition read_current_from_device : M manager values :=
  let! result := sdk_load in ret (init api_map result).

(** [ModuleManager.update_on_device] *)
Definition update_on_device : M manager unit :=
  let! params := on_want (api_params want_getattr api_map api_attributes) in
  let! resource := sdk_load in
  sdk_modify params.

(** [ModuleManager.update] *)
Definition update_ : M manager bool :=
  let! h := read_current_from_device in
  modify (set_have h) ;;
  let! u := should_update in
  if negb u then ret false
  else
    let! s := get in
    if check_mode s then ret true
    else update_on_device ;; ret true.

(** [ModuleManager.present] *)
Definition present : M manager bool := update_.

(** [ModuleManager._announce_deprecations]: pops [__warnings] off the
    result and hands every notice to [module.deprecate]. *)
Definition lookup_item (d : dict) (k : string) : M manager cell :=
  match d !! k with
  | Some v => ret v
  | None => raise (KeyError k)
  end.

Definition _announce_deprecations (result : values) : M manager values :=
  let! warnings :=
    match result !! "__warnings" with
    | None => ret []
    | Some (PDicts l) => ret l
    | Some _ => raise (TypeError "object is not iterable")
    end in
  for_each warnings (fun warning =>
    let! msg := lookup_item warning "msg" in
    let! version := lookup_item warning "version" in
    modify (deprecate msg version)) ;;
  ret (delete "__warnings" result).

(** [ModuleManager.exec_module] *)
Definition exec_module : M manager values :=
  let! changed := reraise_http present in
  let! s := get in
  let reportable := init api_map (to_return returnables (changes s)) in
  let changes := to_return returnables reportable in
  let result := <["changed" := PBool changed]> (changes ∪ ∅) in
  _announce_deprecations result.

End SysGlobal.

(** * Python's string and path helpers *)

(** [s.endswith(suffix)] *)
Definition endswith (s suffix : string) : bool :=
  String.prefix (String.rev suffix) (String.rev s).

(** [s.startswith(p)] *)
Definition startswith (s p : string) : bool := String.prefix p s.

(** [s.rfind(c)] for a one-character [c]: the last index, or [-1]. *)
Fixpoint rfind_from (c : ascii) (s : string) (i last : Z) : Z :=
  match s with
  | EmptyString => last
  | String x r => rfind_from c r (i + 1) (if Ascii.eqb x c then i else last)
  end.
Definition rfind (c : ascii) (s : string) : Z := rfind_from c s 0 (-1).

(** [s[i:]] and [s[:i]] for [0 <= i] *)
Definition slice_from (i : Z) (s : string) : string :=
  String.substring (Z.to_nat i) (String.length s - Z.to_nat i)%nat s.
Definition slice_to (i : Z) (s : string) : string :=
  String.substring 0 (Z.to_nat i) s.

(** [os.path.basename] (posixpath) *)
Definition basename (p : string) : string :=
  let i := rfind "/" p + 1 in slice_from i p.

(** [os.path.splitext] (genericpath._splitext): the extension starts at the
    last dot of the last component, leading dots of it skipped. *)
Fixpoint splitext_scan (n : nat) (p : string) (filenameIndex dotIndex : Z)
    : string * string :=
  match n with
  | O => (p, "")
  | S n' =>
      if negb (bool_decide (String.get (Z.to_nat filenameIndex) p = Some "."%char))
      then (slice_to dotIndex p, slice_from dotIndex p)
      else splitext_scan n' p (filenameIndex + 1) dotIndex
  end.

Definition splitext (p : string) : string * string :=
  let sepIndex := rfind "/" p in
  let dotIndex := rfind "." p in
  if dotIndex >? sepIndex
  then splitext_scan (Z.to_nat (dotIndex - (sepIndex + 1))) p (sepIndex + 1) dotIndex
  else (p, "").

(** [sorted(l, key=lambda x: x['name'])].  The key is read off every entry
    first, a [KeyError] for an entry that has no name.  Python 3 orders
    strings with strings and integers with integers and refuses every other
    pair of keys, [None] with [None] included: a list is sorted when it has
    one entry at most, or when the names are all strings or all integers.
    The sort is stable, an entry goes in front of the first entry whose name
    is not smaller. *)
Definition name_of (x : dict) : cell := default CNone (x !! "name").

Definition name_leb (a b : cell) : bool :=
  match a, b with
  | CStr s, CStr t => String.leb s t
  | CInt x, CInt y => (x <=? y)%Z
  | _, _ => true
  end.

Fixpoint insert_by_name (x : dict) (l : list dict) : list dict :=
  match l with
  | [] => [x]
  | y :: r =>
      if name_leb (name_of x) (name_of y)
      then x :: y :: r
      else y :: insert_by_name x r
  end.

Definition is_str (c : cell) : bool := match c with CStr _ => true | _ => false end.
Definition is_int (c : cell) : bool := match c with CInt _ => true | _ => false end.

Definition orderable (keys : list cell) : bool :=
  (length keys <=? 1)%nat || forallb is_str keys || forallb is_int keys.

Definition sorted_by_name (l : list dict) : res (list dict) :=
  if negb (forallb (fun x : dict => bool_decide (is_Some (x !! "name"))) l)
  then Raise (KeyError "name")
  else if negb (orderable (map name_of l))
  then Raise (TypeError "'<' not supported between instances")
  else Ok (foldr insert_by_name [] l).

(** * Client SSL profiles ([bigip_profile_client_ssl.py]) *)
Module ClientSSL.

Definition api_map : gmap string string :=
  list_to_map [ ("certKeyChain", "cert_key_chain"); ("ocspStapling", "ocsp_stapling") ].

Definition api_attributes : list string := [ "ciphers"; "certKeyChain"; "ocspStapling" ].

Definition returnables : list string := [ "ciphers"; "ocsp_stapling" ].

Definition updatables : list string := [ "ciphers"; "cert_key_chain"; "ocsp_stapling" ].

(** [k in item] *)
Definition has (item : dict) (k : string) : bool := bool_decide (is_Some (item !! k)).

(** [item[k]] *)
Definition item_get {S} (item : dict) (k : string) : M S cell :=
  match item !! k with
  | Some v => ret v
  | None => raise (KeyError k)
  end.

(** Modelled from the spec: the [partition] property of
    [AnsibleF5Parameters], "the configured partition"; the module documents
    [Common] as the default. *)
Definition partition (self : values) : string :=
  match getv self "partition" with
  | PStr p => p
  | _ => "Common"
  end.

Module ModuleParameters.

(** [_fqdn_name]: [None] is returned as it is, a string gets the partition
    in front unless it starts with a slash; no other value has a
    [startswith]. *)
Definition _fqdn_name (value : cell) : M values cell :=
  let! self := get in
  match value with
  | CNone => ret CNone
  | CStr s =>
      if negb (startswith s "/")
      then ret (CStr ("/" ++ partition self ++ "/" ++ s))
      else ret (CStr s)
  | CInt _ => raise (AttributeError "startswith")
  end.

(** [_key_filename] and [_cert_filename]: only a string has an
    [endswith]. *)
Definition _key_filename (name : cell) : M values string :=
  match name with
  | CStr s => if endswith s ".key" then ret s else ret (s ++ ".key")
  | _ => raise (AttributeError "endswith")
  end.

Definition _cert_filename (name : cell) : M values string :=
  match name with
  | CStr s => if endswith s ".crt" then ret s else ret (s ++ ".crt")
  | _ => raise (AttributeError "endswith")
  end.

Definition _get_chain_value (item : dict) : M values string :=
  if negb (has item "chain") || bool_decide (item !! "chain" = Some (CStr "none"))
  then ret "none"
  else
    let! chain := item_get item "chain" in
    let! fq := _fqdn_name chain in
    _cert_filename fq.

(** The [parent] property; a boolean and a list have no [startswith]
    either. *)
Definition parent : M values pyval :=
  let! self := get in
  match getv self "parent" with
  | PNone => ret PNone
  | PStr s => let! result := _fqdn_name (CStr s) in ret (py_of_cell result)
  | PInt z => let! result := _fqdn_name (CInt z) in ret (py_of_cell result)
  | PBool _ | PDicts _ => raise (AttributeError "startswith")
  end.

(** The body of the loop of the [cert_key_chain] property: one raw entry
    becomes one bundle. *)
Definition bundle_of_item (item : dict) : M values dict :=
  if has item "key" && negb (has item "cert")
  then raise (F5ModuleError "When providing a 'key', you must also provide a 'cert'")
  else if has item "cert" && negb (has item "key")
  then raise (F5ModuleError "When providing a 'cert', you must also provide a 'key'")
  else
    let! k := item_get item "key" in
    let! key := _key_filename k in
    let! c := item_get item "cert" in
    let! cert := _cert_filename c in
    let! chain := _get_chain_value item in
    let name := basename cert in
    let filename := (splitext name).1 in
    let! fq_cert := _fqdn_name (CStr cert) in
    let! fq_key := _fqdn_name (CStr key) in
    let tmp : dict :=
      {[ "name" := CStr filename;
         "cert" := fq_cert;
         "key" := fq_key;
         "chain" := CStr chain ]} in
    match item !! "passphrase" with
    | Some p => ret (<["passphrase" := p]> tmp)
    | None => ret tmp
    end.

Fixpoint bundles_loop (items : list dict) (result : list dict) : M values (list dict) :=
  match items with
  | [] => ret result
  | item :: r =>
      let! tmp := bundle_of_item item in
      bundles_loop r (result ++ [tmp])%list
  end.

(** The [cert_key_chain] property. *)
Definition cert_key_chain : M values pyval :=
  let! self := get in
  match getv self "cert_key_chain" with
  | PNone => ret PNone
  | PDicts items =>
      let! result := bundles_loop items [] in
      let! result := lift (sorted_by_name result) in
      ret (PDicts result)
  | PStr "" => ret (PDicts [])
  | PStr _ => raise (TypeError "string indices must be integers")
  | _ => raise (TypeError "object is not iterable")
  end.

(** [getattr(want, item)], with Python's fallback to the stored value when
    a property raises an [AttributeError]. *)
Definition getattr : getter :=
  fun item =>
    if String.eqb item "parent" then catch_attribute_error parent (base_getattr item)
    else if String.eqb item "cert_key_chain"
    then catch_attribute_error cert_key_chain (base_getattr item)
    else base_getattr item.

End ModuleParameters.

Module ApiParameters.

Definition copy_fields (item : dict) (xs : list string) (tmp : dict) : dict :=
  fold_left (fun tmp x => match item !! x with
                          | Some v => <[x := v]> tmp
                          | None => tmp
                          end) xs tmp.

Fixpoint bundles_loop (items : list dict) (result : list dict) : M values (list dict) :=
  match items with
  | [] => ret result
  | item :: r =>
      let! name := item_get item "name" in
      let tmp := copy_fields item ["cert"; "key"; "chain"; "passphrase"] {[ "name" := name ]} in
      bundles_loop r (result ++ [tmp])%list
  end.

(** The [cert_key_chain] property. *)
Definition cert_key_chain : M values pyval :=
  let! self := get in
  match getv self "cert_key_chain" with
  | PNone => ret PNone
  | PDicts items =>
      let! result := bundles_loop items [] in
      let! result := lift (sorted_by_name result) in
      ret (PDicts result)
  | PStr "" => ret (PDicts [])
  | PStr _ => raise (TypeError "string indices must be integers")
  | _ => raise (TypeError "object is not iterable")
  end.

Definition getattr : getter :=
  fun item =>
    if String.eqb item "cert_key_chain"
    then catch_attribute_error cert_key_chain (base_getattr item)
    else base_getattr item.

End ApiParameters.

(** Calls to the SDK collection [tm.ltm.profile.client_ssls.client_ssl],
    each addressed by name and partition. *)
Inductive call : Type :=
  | Exists (name : pyval) (partition : string)
  | Load (name : pyval) (partition : string)
  | Create (name : pyval) (partition : string) (params : values)
  | Modify (params : values)
  | Delete.

(** The calls that write to the device. *)
Definition mutating (c : call) : bool :=
  match c with
  | Create _ _ _ | Modify _ | Delete => true
  | Exists _ _ | Load _ _ => false
  end.

(** The module manager, with the client it holds: the check-mode flag, the
    device behind the SDK ([device] is the profile addressed by the run,
    [None] when there is none), the SDK calls issued so far and the notices
    handed to [module.deprecate] as (msg, version). *)
Record manager : Type := Manager {
  want : values;
  have : values;
  changes : values;
  check_mode : bool;
  device : option values;
  calls : list call;
  deprecations : list (cell * cell)
}.

Definition set_want (w : values) (s : manager) : manager :=
  Manager w (have s) (changes s) (check_mode s) (device s) (calls s) (deprecations s).
Definition set_have (h : values) (s : manager) : manager :=
  Manager (want s) h (changes s) (check_mode s) (device s) (calls s) (deprecations s).
Definition set_changes (c : values) (s : manager) : manager :=
  Manager (want s) (have s) c (check_mode s) (device s) (calls s) (deprecations s).
Definition set_device (d : option values) (s : manager) : manager :=
  Manager (want s) (have s) (changes s) (check_mode s) d (calls s) (deprecations s).
Definition log_call (c : call) (s : manager) : manager :=
  Manager (want s) (have s) (changes s) (check_mode s) (device s) (calls s ++ [c])%list (deprecations s).
Definition deprecate (msg version : cell) (s : manager) : manager :=
  Manager (want s) (have s) (changes s) (check_mode s) (device s) (calls s)
          (deprecations s ++ [(msg, version)])%list.

Definition on_want {A} (m : M values A) : M manager A :=
  fun s => let (r, w) := m (want s) in (r, set_want w s).
Definition on_have {A} (m : M values A) : M manager A :=
  fun s => let (r, h) := m (have s) in (r, set_have h s).
Definition on_changes {A} (m : M values A) : M manager A :=
  fun s => let (r, c) := m (changes s) in (r, set_changes c s).

(** [ModuleManager.__init__] *)
Definition new_manager (params : values) (check : bool) (dev : option values) : manager :=
  Manager (init api_map params) (init api_map ∅) (init api_map ∅) check dev [] [].

Module Difference.

(** [to_tuple]: the pairs [(str(k), str(v))] of every entry; the names of
    the fields are strings, which [str] leaves as they are, the values go
    through [str]. *)
Definition to_tuple {S} (items : pyval) : M S (list (string * string)) :=
  match items with
  | PDicts l =>
      ret (concat (map (fun x : dict =>
                          map (fun kv => (kv.1, cell_str kv.2)) (map_to_list x)) l))
  | PStr "" => ret []
  | PStr _ => raise (AttributeError "items")
  | _ => raise (TypeError "object is not iterable")
  end.

(** [_diff_complex_items] *)
Definition _diff_complex_items {S} (want have : pyval) : M S pyval :=
  if pyeq want (PDicts []) && is_none have then ret PNone
  else if is_none want then ret PNone
  else
    let! w := to_tuple want in
    let! h := to_tuple have in
    if bool_decide ((list_to_set w : gset (string * string)) ⊆ list_to_set h)
    then ret PNone
    else ret want.

(** The [parent] property. *)
Definition parent : M manager pyval :=
  let! wp := on_want (ModuleParameters.getattr "parent") in
  let! hp := on_have (ApiParameters.getattr "parent") in
  if negb (pyeq wp hp)
  then raise (F5ModuleError "The parent profile cannot be changed")
  else ret PNone.

(** The [cert_key_chain] property. *)
Definition cert_key_chain : M manager pyval :=
  let! w := on_want (ModuleParameters.getattr "cert_key_chain") in
  let! h := on_have (ApiParameters.getattr "cert_key_chain") in
  _diff_complex_items w h.

(** [getattr(self, param)] for the names [compare] is called with. *)
Definition getattr (param : string) : M manager pyval :=
  if String.eqb param "parent" then parent
  else if String.eqb param "cert_key_chain" then cert_key_chain
  else raise (AttributeError param).

(** [__default] *)
Definition __default (param : string) : M manager pyval :=
  let! attr1 := on_want (ModuleParameters.getattr param) in
  catch_attribute_error
    (let! attr2 := on_have (ApiParameters.getattr param) in
     if negb (pyeq attr1 attr2) then ret attr1 else ret PNone)
    (ret attr1).

(** [compare] *)
Definition compare (param : string) : M manager pyval :=
  catch_attribute_error (getattr param) (__default param).

End Difference.

(** Modelled from the spec: the SDK collection, "a resource-oriented API
    addressed by name and partition, supporting existence-check, load,
    create, modify, delete operations"; loading a profile that is not there
    is an HTTP error. *)
Definition sdk_exists : M manager bool :=
  let! s := get in
  modify (log_call (Exists (getv (want s) "name") (partition (want s)))) ;;
  ret (bool_decide (is_Some (device s))).

Definition sdk_load : M manager values :=
  let! s := get in
  modify (log_call (Load (getv (want s) "name") (partition (want s)))) ;;
  match device s with
  | Some attrs => ret attrs
  | None => raise (iControlUnexpectedHTTPError "404 Unexpected Error: Not Found")
  end.

Definition sdk_create (params : values) : M manager unit :=
  let! s := get in
  modify (log_call (Create (getv (want s) "name") (partition (want s)) params)) ;;
  modify (set_device (Some params)).

Definition sdk_modify (params : values) : M manager unit :=
  modify (log_call (Modify params)) ;;
  modify (fun s => set_device (Some (params ∪ default ∅ (device s))) s).

Definition sdk_delete : M manager unit :=
  modify (log_call Delete) ;; modify (set_device None).

(** [ModuleManager._set_changed_options] *)
Fixpoint set_changed_loop (ks : list string) (changed : values) : M manager values :=
  match ks with
  | [] => ret changed
  | key :: r =>
      let! v := on_want (ModuleParameters.getattr key) in
      if negb (is_none v)
      then
        let! v' := on_want (ModuleParameters.getattr key) in
        set_changed_loop r (<[key := v']> changed)
      else set_changed_loop r changed
  end.

Definition _set_changed_options : M manager unit :=
  let! changed := set_changed_loop returnables ∅ in
  if bool_decide (changed = ∅) then ret tt
  else modify (set_changes (init api_map changed)).

(** [ModuleManager._update_changed_options]; a change is never a single
    [dict] here, so it is stored under its key. *)
Fixpoint changed_loop (ks : list string) (changed : values) : M manager values :=
  match ks with
  | [] => ret changed
  | k :: r =>
      let! change := Difference.compare k in
      if is_none change then changed_loop r changed
      else changed_loop r (<[k := change]> changed)
  end.

Definition _update_changed_options : M manager bool :=
  let! changed := changed_loop updatables ∅ in
  if bool_decide (changed = ∅) then ret false
  else modify (set_changes (init api_map changed)) ;; ret true.

(** [ModuleManager.should_update] *)
Definition should_update : M manager bool :=
  let! result := _update_changed_options in
  if result then ret true else ret false.

(** [ModuleManager.exists] *)
Definition exists_ : M manager bool := sdk_exists.

(** [ModuleManager.read_current_from_device] *)
Definition read_current_from_device : M manager values :=
  let! result := sdk_load in ret (init api_map result).

(** [ModuleManager.update_on_device] *)
Definition update_on_device : M manager unit :=
  let! params := on_changes (api_params base_getattr api_map api_attributes) in
  let! result := sdk_load in
  sdk_modify params.

(** [ModuleManager.create_on_device] *)
Definition create_on_device : M manager unit :=
  let! params := on_want (api_params ModuleParameters.getattr api_map api_attributes) in
  sdk_create params.

(** [ModuleManager.remove_from_device]: the loaded resource is truthy. *)
Definition remove_from_device : M manager unit :=
  let! result := sdk_load in sdk_delete.

(** [ModuleManager.create] *)
Definition create : M manager bool :=
  _set_changed_options ;;
  let! ciphers := on_want (ModuleParameters.getattr "ciphers") in
  (if is_none ciphers
   then on_want (modify (update api_map {[ "ciphers" := PStr "DEFAULT" ]}))
   else ret tt) ;;
  let! s := get in
  if check_mode s then ret true
  else create_on_device ;; ret true.

(** [ModuleManager.update] *)
Definition update_ : M manager bool :=
  let! h := read_current_from_device in
  modify (set_have h) ;;
  let! u := should_update in
  if negb u then ret false
  else
    let! s := get in
    if check_mode s then ret true
    else update_on_device ;; ret true.

(** [ModuleManager.present] *)
Definition present : M manager bool :=
  let! e := exists_ in
  if e then update_ else create.

(** [ModuleManager.remove] *)
Definition remove : M manager bool :=
  let! s := get in
  if check_mode s then ret true
  else
    remove_from_device ;;
    let! e := exists_ in
    if e then raise (F5ModuleError "Failed to delete the profile.")
    else ret true.

(** [ModuleManager.absent] *)
Definition absent : M manager bool :=
  let! e := exists_ in
  if e then remove else ret false.

(** [ModuleManager._announce_deprecations] *)
Definition _announce_deprecations (result : values) : M manager values :=
  let! warnings :=
    match result !! "__warnings" with
    | None => ret []
    | Some (PDicts l) => ret l
    | Some _ => raise (TypeError "object is not iterable")
    end in
  for_each warnings (fun warning =>
    let! msg := item_get warning "msg" in
    let! version := item_get warning "version" in
    modify (deprecate msg version)) ;;
  ret (delete "__warnings" result).

(** [ModuleManager.exec_module] *)
Definition exec_module : M manager values :=
  let! state := on_want (ModuleParameters.getattr "state") in
  let! changed :=
    reraise_http
      (if pyeq state (PStr "present") then present
       else if pyeq state (PStr "absent") then absent
       else ret false) in
  let! s := get in
  let reportable := init api_map (to_return returnables (changes s)) in
  let changes := to_return returnables reportable in
  let result := <["changed" := PBool changed]> (changes ∪ ∅) in
  _announce_deprecations result.

End ClientSSL.

(** * The vocabulary of the specification *)

(** The truth-like and false-like tokens the specification lists, as text
    and as the values YAML reads them to. *)
Definition truth_tokens : list pyval :=
  [ PStr "true"; PStr "yes"; PStr "1"; PInt 1; PBool true; PStr "True" ].
Definition false_tokens : list pyval :=
  [ PStr "false"; PStr "no"; PStr "0"; PInt 0; PBool false; PStr "False" ].

(** A run on which one boolean-like field carries a legacy token: the user
    asks for [security_banner: enabled], the device has it disabled. *)
Definition legacy_params : values := {[ "security_banner" := PStr "enabled" ]}.
Definition legacy_device : values := {[ "guiSecurityBanner" := PStr "disabled" ]}.

(** The bundle example of the specification: the user asks for the bundle
    [{cert: a, key: a}], the device holds the bundle [a] with the qualified
    paths. *)
Definition example_params : values :=
  {[ "name" := PStr "my_profile"; "state" := PStr "present";
     "cert_key_chain" := PDicts [ {[ "cert" := CStr "a"; "key" := CStr "a" ]} ] ]}.
Definition example_bundle : dict :=
  {[ "name" := CStr "a"; "cert" := CStr "/Common/a.crt"; "key" := CStr "/Common/a.key";
     "chain" := CStr "none" ]}.
Definition example_device : values :=
  {[ "name" := PStr "my_profile"; "certKeyChain" := PDicts [example_bundle] ]}.

(** A profile the device reports without any bundle. *)
Definition bare_device : values := {[ "name" := PStr "my_profile" ]}.

(** The parent example of the specification. *)
Definition parent_params : values :=
  {[ "name" := PStr "my_profile"; "state" := PStr "present";
     "parent" := PStr "/Common/clientssl" ]}.
Definition parent_device : values :=
  {[ "name" := PStr "my_profile"; "parent" := PStr "/Common/other" ]}.

(** A bundle entry with a key and no certificate. *)
Definition key_only_params : values :=
  {[ "name" := PStr "my_profile"; "state" := PStr "present";
     "cert_key_chain" := PDicts [ {[ "key" := CStr "a" ]} ] ]}.

(** The set of the pairs [to_tuple] collects off a list of entries. *)
Definition pairs (l : list dict) : gset (string * string) :=
  list_to_set (concat (map (fun x : dict =>
                              map (fun kv => (kv.1, cell_str kv.2)) (map_to_list x)) l)).

(** Every (field, value) pair of every desired entry is a pair of some
    current entry, the values taken as the strings [str] makes of them: the
    desired pairs are a subset of the current pairs. *)
Definition covered (want have : list dict) : Prop :=
  forall d k v, d ∈ want -> d !! k = Some v ->
    exists d' v', d' ∈ have /\ d' !! k = Some v' /\ cell_str v' = cell_str v.

(** The two messages of the bundle validation. *)
Definition validation_messages : list string :=
  [ "When providing a 'key', you must also provide a 'cert'";
    "When providing a 'cert', you must also provide a 'key'" ].

(** The difference engine as a function of the desired and the current
    parameters: [_update_changed_options]' loop run on a manager that holds
    nothing else. *)
Definition change_set (w h : values) : res values :=
  (ClientSSL.changed_loop ClientSSL.updatables ∅
     (ClientSSL.Manager w h ∅ false None [] [])).1.

(** The current parameters equal the desired ones on every updatable
    field. *)
Definition in_desired_state (w h : values) : Prop :=
  forall k, k ∈ ClientSSL.updatables ->
    exists v v', (ClientSSL.ModuleParameters.getattr k w).1 = Ok v /\
                 (ClientSSL.ApiParameters.getattr k h).1 = Ok v' /\
                 pyeq v v' = true.

(** * Predicates on computations *)

(** [preserves f m]: running [m] leaves the projection [f] of the state as
    it was, whether [m] returns or raises. *)
Definition preserves {S B : Type} (f : S -> B) {A : Type} (m : M S A) : Prop :=
  forall s, f (m s).2 = f s.

(** [pure m]: [m] reads the state and leaves it as it is. *)
Abbreviation pure m := (preserves (fun s => s) m).

(** What [m] raises is never an [AttributeError]. *)
Definition no_attribute_error {S A} (m : M S A) : Prop :=
  forall s msg, (m s).1 <> Raise (AttributeError msg).

(** What reading [cert_key_chain] returns: [None] or a list. *)
Definition none_or_list (v : pyval) : Prop := v = PNone \/ exists l, v = PDicts l.

(** [keep v]: what [_filter_params] leaves of a field holding [v]. *)
Definition keep (v : pyval) : option pyval :=
  if decide (v = PNone) then None else Some v.

(** The part of a client SSL manager the difference engine reads, and the
    computations that read nothing else and store nothing. *)
Definition core (s : ClientSSL.manager) : ClientSSL.manager :=
  ClientSSL.Manager (ClientSSL.want s) (ClientSSL.have s) ∅ false None [] [].

Definition reads_only {A} (m : M ClientSSL.manager A) : Prop :=
  forall s, m s = ((m (core s)).1, s).

(** What [ClientSSL.exec_module] returns once [present] has returned
    [changed] in the state [s]. *)
Definition assemble (changed : bool) (s : ClientSSL.manager) : values :=
  delete "__warnings"
    (<["changed" := PBool changed]>
       (to_return ClientSSL.returnables
          (init ClientSSL.api_map
             (to_return ClientSSL.returnables (ClientSSL.changes s))) ∪ ∅)).

(** The desired parameters as [ClientSSL.create] leaves them: the default
    cipher list is stored when no cipher list was given. *)
Definition with_default_ciphers (w : values) : values :=
  if is_none (getv w "ciphers") then <["ciphers" := PStr "DEFAULT"]> w else w.

(** The payload [ClientSSL.create_on_device] sends for the desired
    parameters [w] and the bundles [ckc] read off them. *)
Definition create_payload (w : values) (ckc : pyval) : values :=
  _filter_params
    (<["ocspStapling" := getv w "ocsp_stapling"]>
       (<["certKeyChain" := ckc]> (<["ciphers" := getv w "ciphers"]> ∅))).

(** The bundle example with a cipher list the device does not have. *)
Definition cipher_params : values := <["ciphers" := PStr "ECDHE"]> example_params.


(** * Hoare triples for the monad

    [hoare P m Q R]: from a state that satisfies [P], [m] either returns a
    value and a state related by [Q], or raises an exception and leaves a
    state related by [R]. *)
Definition hoare {S A : Type} (P : S -> Prop) (m : M S A)
    (Q : A -> S -> Prop) (R : exn -> S -> Prop) : Prop :=
  forall s, P s ->
    match m s with
    | (Ok a, s') => Q a s'
    | (Raise e, s') => R e s'
    end.

(** [keeps I m]: [m] keeps the invariant [I], whether it returns or
    raises. *)
Definition keeps {S A : Type} (I : S -> Prop) (m : M S A) : Prop :=
  hoare I m (fun _ => I) (fun _ => I).

(** A client SSL run that has written nothing: the device is still [d], and
    the calls issued since [c0] are read-only. *)
Definition nothing_written (d : option values) (c0 : list ClientSSL.call)
    (s : ClientSSL.manager) : Prop :=
  ClientSSL.device s = d /\
  exists new, ClientSSL.calls s = (c0 ++ new)%list /\
              Forall (fun c => ClientSSL.mutating c = false) new.

(** The same in check mode. *)
Definition dry (d : option values) (c0 : list ClientSSL.call)
    (s : ClientSSL.manager) : Prop :=
  ClientSSL.check_mode s = true /\ nothing_written d c0 s.

(** A payload of the client SSL module as the device accepts it: API
    attributes only, each with a value. *)
Definition good_payload (p : values) : Prop :=
  forall k v, p !! k = Some v -> k ∈ ClientSSL.api_attributes /\ v <> PNone.

Definition good_call (c : ClientSSL.call) : Prop :=
  match c with
  | ClientSSL.Create _ _ p | ClientSSL.Modify p => good_payload p
  | _ => True
  end.

Definition payloads_good (s : ClientSSL.manager) : Prop :=
  Forall good_call (ClientSSL.calls s).

(** * Bundles *)

(** An entry whose name is a string, the name, and the order of
    [sorted(result, key=lambda x: x['name'])] on such entries. *)
Definition named (b : dict) : Prop := exists n, b !! "name" = Some (CStr n).
Definition bundle_name (b : dict) : string :=
  match b !! "name" with Some (CStr n) => n | _ => "" end.
Definition by_name (x y : dict) : Prop := String.le (bundle_name x) (bundle_name y).

(** What [_fqdn_name] makes of a string, and what [_key_filename] and
    [_cert_filename] make of one. *)
Definition fqdn (self : values) (s : string) : string :=
  if negb (startswith s "/") then "/" ++ ClientSSL.partition self ++ "/" ++ s else s.
Definition with_ext (ext s : string) : string :=
  if endswith s ext then s else s ++ ext.

(** An entry as the module documents it: the key, the certificate and the
    chain, where given, are strings. *)
Definition string_valued (item : dict) : Prop :=
  forall k v, k ∈ ["key"; "cert"; "chain"] -> item !! k = Some v -> exists s, v = CStr s.

(** Desired parameters whose [cert_key_chain], when it is a list, is a list
    of such entries. *)
Definition plain_bundles (w : values) : Prop :=
  forall items, getv w "cert_key_chain" = PDicts items -> Forall string_valued items.

(** The fields of a bundle. *)
Definition bundle_fields : list string := [ "name"; "cert"; "key"; "chain"; "passphrase" ].

(** What is left of a device entry once the fields that are none of a
    bundle's are dropped. *)
Definition known_fields (item : dict) : dict :=
  filter (fun kv => kv.1 ∈ bundle_fields) item.

(** A fully qualified path with the extension [ext]. *)
Definition qualified (ext path : string) : Prop :=
  startswith path "/" = true /\ endswith path ext = true.

(** A bundle as the desired parameters derive it. *)
Definition well_formed_bundle (b : dict) : Prop :=
  named b /\
  (exists c, b !! "cert" = Some (CStr c) /\ qualified ".crt" c) /\
  (exists k, b !! "key" = Some (CStr k) /\ qualified ".key" k) /\
  (exists ch, b !! "chain" = Some (CStr ch) /\ (ch = "none" \/ qualified ".crt" ch)) /\
  (forall k, is_Some (b !! k) -> k ∈ bundle_fields).

(** The current parameters [h] satisfy the desired parameters [w]: every
    updatable field is either left unset by the user or has the desired
    value already. *)
Definition satisfied (w h : values) : Prop :=
  (forall k, k ∈ ["ciphers"; "ocsp_stapling"] ->
     getv w k = PNone \/ pyeq (getv w k) (getv h k) = true) /\
  exists x y, (ClientSSL.ModuleParameters.getattr "cert_key_chain" w).1 = Ok x /\
              (ClientSSL.ApiParameters.getattr "cert_key_chain" h).1 = Ok y /\
              (x = PNone \/ x = y).




(** * Global settings *)

(** What the boolean-like normalisation makes of a stored value. *)
Definition normalised (v : pyval) : pyval :=
  if is_none v then PNone
  else if bool_decide (v ∈ truth_tokens) then PStr "enabled"
  else if bool_decide (v ∈ false_tokens) then PStr "disabled"
  else PStr (pystr v).

(** The desired value of a setting: normalised when the desired parameters
    have a property of that name, the stored value otherwise. *)
Definition sys_desired (w : values) (k : string) : pyval :=
  match SysGlobal.property k with
  | Some _ => normalised (getv w k)
  | None => getv w k
  end.

(** [w'] holds the settings of [w]: the two differ in the notices collected
    under [__warnings] at most. *)
Definition same_settings (w w' : values) : Prop :=
  (forall k, k <> "__warnings" -> getv w' k = getv w k) /\
  exists l, getv w' "__warnings" = PDicts l.

(** The current settings [h] satisfy the desired settings of [w]. *)
Definition sys_satisfied (w h : values) : Prop :=
  forall k, k ∈ SysGlobal.updatables ->
    sys_desired w k = PNone \/ pyeq (sys_desired w k) (getv h k) = true.

(** A global settings run that has written nothing. *)
Definition sys_dry (d : values) (c0 : list SysGlobal.call) (s : SysGlobal.manager) : Prop :=
  SysGlobal.check_mode s = true /\
  SysGlobal.device s = d /\
  exists n, SysGlobal.calls s = (c0 ++ replicate n SysGlobal.Load)%list.

(** What [SysGlobal.exec_module] returns once [present] has returned
    [changed] in the state [s]. *)
Definition sys_assemble (changed : bool) (s : SysGlobal.manager) : values :=
  delete "__warnings"
    (<["changed" := PBool changed]>
       (to_return SysGlobal.returnables
          (init SysGlobal.api_map
             (to_return SysGlobal.returnables (SysGlobal.changes s))) ∪ ∅)).

(** What the difference engine makes of one setting: the desired value
    when it is set and differs from the current one. *)
Definition sys_change (w h : values) (k : string) : pyval :=
  if negb (pyeq (sys_desired w k) (getv h k)) then sys_desired w k else PNone.

(** * Frame reasoning for the monad

    [preserves f m]: running [m] leaves the projection [f] of the state as
    it was, whether [m] returns or raises. *)
Section Frame.
Context {S B : Type} (f : S -> B).

Lemma preserves_ret {A} (a : A) : preserves f (ret a).
Proof. intros s. reflexivity. Qed.

Lemma preserves_raise {A} (e : exn) : preserves f (@raise S A e).
Proof. intros s. reflexivity. Qed.

Lemma preserves_get : preserves f get.
Proof. intros s. reflexivity. Qed.

Lemma preserves_lift {A} (r : res A) : preserves f (lift r).
Proof. intros s. reflexivity. Qed.

Lemma preserves_modify (g : S -> S) :
  (forall s, f (g s) = f s) -> preserves f (modify g).
Proof. intros Hg s. apply Hg. Qed.

Lemma preserves_bind {A C} (m : M S A) (k : A -> M S C) :
  preserves f m -> (forall a, preserves f (k a)) -> preserves f (bind m k).
Proof.
  intros Hm Hk s. unfold bind. specialize (Hm s).
  destruct (m s) as [[a|e] s']; cbn in *; [|exact Hm].
  rewrite Hk. exact Hm.
Qed.

Lemma preserves_catch_attribute_error {A} (m h : M S A) :
  preserves f m -> preserves f h -> preserves f (catch_attribute_error m h).
Proof.
  intros Hm Hh s. unfold catch_attribute_error. specialize (Hm s).
  destruct (m s) as [[a|[]] s']; cbn in *; try exact Hm.
  rewrite Hh. exact Hm.
Qed.

Lemma preserves_reraise_http {A} (m : M S A) :
  preserves f m -> preserves f (reraise_http m).
Proof.
  intros Hm s. unfold reraise_http. specialize (Hm s).
  destruct (m s) as [[a|[]] s']; cbn in *; exact Hm.
Qed.

Lemma preserves_for_each {A} (l : list A) (g : A -> M S unit) :
  (forall a, preserves f (g a)) -> preserves f (for_each l g).
Proof.
  intros Hg. induction l as [|a l IH]; cbn.
  - apply preserves_ret.
  - apply preserves_bind; [apply Hg | intros _; exact IH].
Qed.

End Frame.

Create HintDb frame discriminated.
#[export] Hint Resolve preserves_ret preserves_raise preserves_get preserves_lift
  preserves_catch_attribute_error preserves_reraise_http : frame.

(** Split a frame goal along the structure of the computation. *)
Ltac frame_step :=
  match goal with
  | |- preserves _ (bind _ _) => apply preserves_bind; [|intros ?]
  | |- preserves _ (ret _) => apply preserves_ret
  | |- preserves _ (raise _) => apply preserves_raise
  | |- preserves _ get => apply preserves_get
  | |- preserves _ (lift _) => apply preserves_lift
  | |- preserves _ (modify _) => apply preserves_modify; intros []; reflexivity
  | |- preserves _ (catch_attribute_error _ _) => apply preserves_catch_attribute_error
  | |- preserves _ (reraise_http _) => apply preserves_reraise_http
  | |- preserves _ (for_each _ _) => apply preserves_for_each; intros ?
  | |- preserves _ (if ?b then _ else _) => destruct b
  | |- preserves _ (match ?x with _ => _ end) => destruct x
  end.
Ltac frame := repeat frame_step; eauto with frame.

Lemma Ok_inj {A} (a b : A) : Ok a = Ok b -> a = b.
Proof. intros H. injection H as H. exact H. Qed.

(** ** Running the monad *)

Lemma bind_ok {S A B} (m : M S A) (k : A -> M S B) (s s' : S) (a : A) :
  m s = (Ok a, s') -> bind m k s = k a s'.
Proof. intros H. unfold bind. rewrite H. reflexivity. Qed.

Lemma bind_raise {S A B} (m : M S A) (k : A -> M S B) (s s' : S) (e : exn) :
  m s = (Raise e, s') -> bind m k s = (Raise e, s').
Proof. intros H. unfold bind. rewrite H. reflexivity. Qed.

Lemma bind_get {S B} (k : S -> M S B) (s : S) : bind get k s = k s s.
Proof. reflexivity. Qed.


Lemma pure_run {S A} (m : M S A) (s : S) : pure m -> m s = ((m s).1, s).
Proof. intros H. rewrite <- (H s) at 3. by destruct (m s). Qed.

Lemma nae_bind {S A B} (m : M S A) (k : A -> M S B) :
  no_attribute_error m -> (forall a, no_attribute_error (k a)) ->
  no_attribute_error (bind m k).
Proof.
  intros Hm Hk s msg. unfold bind. specialize (Hm s msg).
  destruct (m s) as [[a|e] s']; cbn [fst] in *; [apply Hk | congruence].
Qed.

Lemma nae_ret {S A} (a : A) : no_attribute_error (@ret S A a).
Proof. intros s msg. discriminate. Qed.

Lemma nae_get {S} : no_attribute_error (@get S).
Proof. intros s msg. discriminate. Qed.

Ltac nae_step :=
  match goal with
  | |- no_attribute_error (bind _ _) => apply nae_bind; [|intros ?]
  | |- no_attribute_error (ret _) => apply nae_ret
  | |- no_attribute_error get => apply nae_get
  | |- no_attribute_error (lift (Ok _)) => intros ? ?; discriminate
  | |- no_attribute_error (raise _) => intros ? ?; discriminate
  | |- no_attribute_error (if ?b then _ else _) => destruct b
  | |- no_attribute_error (match ?x with _ => _ end) => destruct x
  end.

Lemma bind_Ok_inv {S A B} (m : M S A) (k : A -> M S B) s b :
  (bind m k s).1 = Ok b -> exists a s', m s = (Ok a, s') /\ (k a s').1 = Ok b.
Proof.
  unfold bind. destruct (m s) as [[a|e] s']; cbn [fst]; [eauto | discriminate].
Qed.

Lemma Ok_not_Raise {A} (a : A) (e : exn) : Ok a <> Raise e.
Proof. discriminate. Qed.


(** The entries of a filtered dictionary are entries of the dictionary. *)
Lemma filter_params_lookup_None (params : values) (k : string) :
  params !! k = None -> _filter_params params !! k = None.
Proof.
  intros H. unfold _filter_params. apply map_lookup_filter_None. left. exact H.
Qed.

Lemma to_return_loop_lookup_None (ks : list string) (self result : values) (k : string) :
  k ∉ ks -> result !! k = None -> to_return_loop ks self result !! k = None.
Proof.
  revert result. induction ks as [|r ks IH]; intros result Hk Hr; cbn.
  - by apply filter_params_lookup_None.
  - apply not_elem_of_cons in Hk as [Hne Hk].
    apply IH; [exact Hk|]. by rewrite lookup_insert_ne.
Qed.

(** [to_return] reports returnable fields only. *)
Lemma to_return_lookup_None (ks : list string) (self : values) (k : string) :
  k ∉ ks -> to_return ks self !! k = None.
Proof. intros Hk. apply to_return_loop_lookup_None; [exact Hk | apply lookup_empty]. Qed.

(** ** Dictionaries of parameters *)

(** [update] with parameters whose names the API map leaves alone is a
    dictionary update. *)
Lemma update_no_remap (amap : gmap string string) (params self : values) :
  (forall k, is_Some (params !! k) -> amap !! k = None) ->
  update amap params self = params ∪ self.
Proof.
  unfold update.
  apply (map_fold_weak_ind
           (fun r (p : values) =>
              (forall k, is_Some (p !! k) -> amap !! k = None) -> r = p ∪ self)).
  - intros _. by rewrite (left_id_L ∅ (∪)).
  - intros i x p r Hi IH Hk. rewrite IH.
    + unfold map_key. rewrite (Hk i) by (rewrite lookup_insert_eq; eauto).
      cbn [default]. by rewrite insert_union_l.
    + intros k Hks. apply Hk. rewrite lookup_insert_ne; [exact Hks|].
      intros ->. rewrite Hi in Hks. by destruct Hks.
Qed.

Lemma getv_init_plain (amap : gmap string string) (params : values) (k : string) :
  (forall k, is_Some (params !! k) -> amap !! k = None) ->
  k <> "__warnings" ->
  getv (init amap params) k = getv params k.
Proof.
  intros Hk Hne. unfold init. rewrite update_no_remap by exact Hk.
  unfold getv. rewrite lookup_union.
  rewrite lookup_singleton_ne by congruence.
  by destruct (params !! k).
Qed.

Lemma filter_params_lookup (params : values) (k : string) :
  _filter_params params !! k = params !! k ≫= keep.
Proof.
  unfold _filter_params, keep. destruct (params !! k) as [v|] eqn:E; cbn.
  - destruct (decide (v = PNone)) as [->|Hn].
    + apply map_lookup_filter_None. right. intros x Hx. cbn. congruence.
    + apply map_lookup_filter_Some. split; [exact E | exact Hn].
  - apply map_lookup_filter_None. by left.
Qed.




Lemma keep_getv (c : values) (k : string) :
  (forall v, c !! k = Some v -> v <> PNone) -> keep (getv c k) = c !! k.
Proof.
  intros Hn. unfold getv. destruct (c !! k) as [v|].
  - change (keep v = Some v). unfold keep.
    destruct (decide (v = PNone)) as [->|]; [by destruct (Hn PNone) | reflexivity].
  - reflexivity.
Qed.



(** * Properties of the global-settings module *)
Module SysGlobalProps.
Import SysGlobal.

(** Decide a goal [pyin v tokens = bool_decide (v ∈ tokens')] for a value
    of known shape: both sides are read off the comparisons of [pyin]. *)
Ltac token_cases :=
  match goal with
  | |- ?b = bool_decide _ =>
      let E := fresh "E" in
      destruct b eqn:E; symmetry;
      [ apply bool_decide_eq_true_2 | apply bool_decide_eq_false_2 ];
      cbn in E;
      rewrite ?orb_false_r, ?orb_true_iff, ?orb_false_iff, ?Z.eqb_eq, ?Z.eqb_neq,
        ?bool_decide_eq_true, ?bool_decide_eq_false in E;
      rewrite ?elem_of_cons, ?not_elem_of_cons;
      try discriminate; intuition (try congruence; try set_solver)
  end.

Lemma pyin_truth (v : pyval) :
  pyin v (BOOLEANS_TRUE ++ [PStr "True"]) = bool_decide (v ∈ truth_tokens).
Proof.
  unfold truth_tokens, BOOLEANS_TRUE. destruct v as [|[]|z|s|l]; token_cases.
Qed.

Lemma pyin_false (v : pyval) :
  pyin v (BOOLEANS_FALSE ++ [PStr "False"]) = bool_decide (v ∈ false_tokens).
Proof.
  unfold false_tokens, BOOLEANS_FALSE. destruct v as [|[]|z|s|l]; token_cases.
Qed.

Lemma truth_not_false (v : pyval) : v ∈ truth_tokens -> v ∉ false_tokens.
Proof.
  unfold truth_tokens, false_tokens. intros H.
  repeat (apply elem_of_cons in H as [->|H]); [.. | by apply elem_of_nil in H].
  all: rewrite !not_elem_of_cons; repeat split; try discriminate.
  all: apply not_elem_of_nil.
Qed.

(** What one call of the normalisation returns and stores, by the value of
    the parameter. *)
Lemma boolean_like_run (self : values) (parameter : string) (l : list dict) :
  getv self "__warnings" = PDicts l ->
  _get_boolean_like_return_value parameter self =
    let v := getv self parameter in
    if is_none v then (Ok PNone, self)
    else
      (Ok (if bool_decide (v ∈ truth_tokens) then PStr "enabled"
           else if bool_decide (v ∈ false_tokens) then PStr "disabled"
           else PStr (pystr v)),
       if pyin v [PStr "enabled"; PStr "disabled"]
       then <["__warnings" := PDicts (l ++ [deprecation_notice])]> self
       else self).
Proof.
  intros Hw. unfold _get_boolean_like_return_value, bind, get. cbn zeta.
  destruct (is_none (getv self parameter)); [reflexivity|].
  rewrite pyin_truth, pyin_false.
  destruct (pyin (getv self parameter) _).
  - unfold append_warning. rewrite Hw.
    repeat case_bool_decide; reflexivity.
  - unfold ret. repeat case_bool_decide; reflexivity.
Qed.

(** C4: the normalisation maps a null value to null, every truth-like token
    to the literal [enabled], every false-like token to [disabled], the
    legacy tokens [enabled] and [disabled] to themselves, and any other
    value to its string form. *)
Theorem boolean_like_return_value_spec (self : values) (parameter : string)
    (l : list dict) (v : pyval) :
  getv self "__warnings" = PDicts l ->
  getv self parameter = v ->
  (v = PNone -> (_get_boolean_like_return_value parameter self).1 = Ok PNone) /\
  (v ∈ truth_tokens ->
     (_get_boolean_like_return_value parameter self).1 = Ok (PStr "enabled")) /\
  (v ∈ false_tokens ->
     (_get_boolean_like_return_value parameter self).1 = Ok (PStr "disabled")) /\
  (v = PStr "enabled" ->
     (_get_boolean_like_return_value parameter self).1 = Ok (PStr "enabled")) /\
  (v = PStr "disabled" ->
     (_get_boolean_like_return_value parameter self).1 = Ok (PStr "disabled")) /\
  (v <> PNone -> v ∉ truth_tokens -> v ∉ false_tokens ->
     (_get_boolean_like_return_value parameter self).1 = Ok (PStr (pystr v))).
Proof.
  intros Hw Hv. rewrite (boolean_like_run _ _ _ Hw). cbn zeta. rewrite Hv.
  repeat split.
  - intros ->. reflexivity.
  - intros Hin. rewrite (bool_decide_eq_true_2 _ Hin).
    destruct v; [by apply list_elem_of_In in Hin; cbn in Hin; intuition discriminate|..];
      reflexivity.
  - intros Hin.
    assert (v ∉ truth_tokens) as Hn by (intros Ht; by apply (truth_not_false v Ht)).
    rewrite (bool_decide_eq_false_2 _ Hn), (bool_decide_eq_true_2 _ Hin).
    destruct v; [by apply list_elem_of_In in Hin; cbn in Hin; intuition discriminate|..];
      reflexivity.
  - intros ->. reflexivity.
  - intros ->. reflexivity.
  - intros Hnn Ht Hf.
    rewrite (bool_decide_eq_false_2 _ Ht), (bool_decide_eq_false_2 _ Hf).
    destruct v; [congruence|..]; reflexivity.
Qed.

Lemma boolean_like_return_value_spec_witness :
  (_get_boolean_like_return_value "gui_setup"
     (<["gui_setup" := PStr "yes"]> (init api_map ∅))).1 = Ok (PStr "enabled").
Proof.
  refine (proj1 (proj2 (boolean_like_return_value_spec
            (<["gui_setup" := PStr "yes"]> (init api_map ∅)) "gui_setup" []
            (PStr "yes") _ _)) _).
  - vm_compute. reflexivity.
  - vm_compute. reflexivity.
  - unfold truth_tokens. apply list_elem_of_In. cbn. tauto.
Defined.

(** Reading [banner_text] off the desired parameters is one call of the
    normalisation. *)
Lemma banner_text_getattr (self : values) (l : list dict) :
  getv self "__warnings" = PDicts l ->
  want_getattr "banner_text" self = _get_boolean_like_return_value "banner_text" self.
Proof.
  intros Hw. unfold want_getattr. cbn [property String.eqb Ascii.eqb Bool.eqb].
  unfold catch_attribute_error, banner_text.
  rewrite (boolean_like_run _ _ _ Hw). cbn zeta.
  destruct (is_none _); reflexivity.
Qed.

(** C9: the free-text [banner_text] goes through the boolean-like
    normalisation: a truth-like token reads as [enabled], a false-like token
    as [disabled], a literal [enabled] or [disabled] reads as itself and
    appends a deprecation notice to [__warnings], and only other text reads
    as itself. *)
Theorem banner_text_is_normalised (self : values) (l : list dict) (v : pyval) :
  getv self "__warnings" = PDicts l ->
  getv self "banner_text" = v ->
  (v ∈ truth_tokens -> want_getattr "banner_text" self = (Ok (PStr "enabled"), self)) /\
  (v ∈ false_tokens -> want_getattr "banner_text" self = (Ok (PStr "disabled"), self)) /\
  (v = PStr "enabled" \/ v = PStr "disabled" ->
     want_getattr "banner_text" self =
       (Ok v, <["__warnings" := PDicts (l ++ [deprecation_notice])]> self)) /\
  (forall s, v = PStr s -> v ∉ truth_tokens -> v ∉ false_tokens ->
     s <> "enabled" -> s <> "disabled" ->
     want_getattr "banner_text" self = (Ok (PStr s), self)).
Proof.
  intros Hw Hv. rewrite (banner_text_getattr _ _ Hw), (boolean_like_run _ _ _ Hw).
  cbn zeta. rewrite Hv. repeat split.
  - intros Hin. rewrite (bool_decide_eq_true_2 _ Hin).
    unfold truth_tokens in Hin.
    repeat (apply elem_of_cons in Hin as [->|Hin]); [.. | by apply elem_of_nil in Hin];
      reflexivity.
  - intros Hin.
    assert (v ∉ truth_tokens) as Hn by (intros Ht; by apply (truth_not_false v Ht)).
    rewrite (bool_decide_eq_false_2 _ Hn), (bool_decide_eq_true_2 _ Hin).
    unfold false_tokens in Hin.
    repeat (apply elem_of_cons in Hin as [->|Hin]); [.. | by apply elem_of_nil in Hin];
      reflexivity.
  - intros [-> | ->]; reflexivity.
  - intros s -> Ht Hf He Hd.
    rewrite (bool_decide_eq_false_2 _ Ht), (bool_decide_eq_false_2 _ Hf).
    cbn. rewrite !orb_false_r.
    rewrite !bool_decide_eq_false_2 by congruence. reflexivity.
Qed.

Lemma banner_text_is_normalised_witness :
  want_getattr "banner_text" (<["banner_text" := PStr "yes"]> (init api_map ∅)) =
    (Ok (PStr "enabled"), <["banner_text" := PStr "yes"]> (init api_map ∅)).
Proof.
  refine (proj1 (banner_text_is_normalised
            (<["banner_text" := PStr "yes"]> (init api_map ∅)) [] (PStr "yes") _ _) _).
  - vm_compute. reflexivity.
  - vm_compute. reflexivity.
  - unfold truth_tokens. apply list_elem_of_In. cbn. tauto.
Defined.

(** No step of a run hands a notice to [module.deprecate] before the
    result is assembled. *)
Lemma present_preserves_deprecations : preserves deprecations present.
Proof.
  unfold present, update_, read_current_from_device, should_update,
    _update_changed_options, update_on_device, sdk_load, sdk_modify.
  assert (forall A (m : M values A), preserves deprecations (on_want m)) as Hw.
  { intros A m s. unfold on_want. destruct (m (want s)). reflexivity. }
  assert (forall A (m : M values A), preserves deprecations (on_have m)) as Hh.
  { intros A m s. unfold on_have. destruct (m (have s)). reflexivity. }
  assert (forall ks changed, preserves deprecations (changed_loop ks changed)) as Hl.
  { induction ks as [|k ks IH]; intros changed; cbn [changed_loop].
    - frame.
    - unfold compare, difference_getattr, __default. frame. }
  frame.
Qed.

(** The assembled result never carries a [__warnings] entry. *)
Lemma result_has_no_warnings (changed : bool) (c : values) :
  (<["changed" := PBool changed]>
     (to_return returnables (init api_map (to_return returnables c)) ∪ ∅) : values)
    !! "__warnings" = None.
Proof.
  rewrite lookup_insert_ne by discriminate.
  rewrite (right_id_L ∅ (∪)).
  apply to_return_lookup_None. unfold returnables.
  rewrite !not_elem_of_cons. repeat split; try discriminate. apply not_elem_of_nil.
Qed.

Lemma announce_nothing (result : values) (s : manager) :
  result !! "__warnings" = None ->
  _announce_deprecations result s = (Ok (delete "__warnings" result), s).
Proof. intros H. unfold _announce_deprecations. rewrite H. reflexivity. Qed.

(** C2: no run surfaces a deprecation notice.  Whatever the parameters and
    the device, [exec_module] leaves the notices handed to
    [module.deprecate] as they were, and its result has no [__warnings]
    entry; on the run with [security_banner: enabled] against a device that
    has the banner disabled, two notices are accumulated on the desired
    parameters and none is announced. *)
Theorem legacy_token_is_never_announced :
  (forall m : manager, deprecations (exec_module m).2 = deprecations m) /\
  (forall (m : manager) (result : values),
     (exec_module m).1 = Ok result -> result !! "__warnings" = None) /\
  (exec_module (new_manager legacy_params false legacy_device)).1 =
    Ok {[ "security_banner" := PStr "enabled"; "changed" := PBool true ]} /\
  getv (want (exec_module (new_manager legacy_params false legacy_device)).2)
    "__warnings" = PDicts [deprecation_notice; deprecation_notice] /\
  deprecations (exec_module (new_manager legacy_params false legacy_device)).2 = [].
Proof.
  split; [|split; [|split; [|split]; vm_compute; reflexivity]].
  - intros m. unfold exec_module.
    apply preserves_bind; [apply preserves_reraise_http, present_preserves_deprecations|].
    intros changed. apply preserves_bind; [apply preserves_get|]. intros s.
    cbv zeta. intros s0.
    rewrite announce_nothing by apply result_has_no_warnings. reflexivity.
  - intros m result. unfold exec_module, bind.
    destruct (reraise_http present m) as [[changed|e] s]; [|cbn [fst]; discriminate].
    cbv zeta. unfold get.
    rewrite announce_nothing by apply result_has_no_warnings.
    cbn [fst]. intros H. apply Ok_inj in H. subst result.
    apply lookup_delete_eq.
Qed.

(** ** Check mode *)







Lemma sys_read_current_run s :
  read_current_from_device s = (Ok (init api_map (device s)), log_call Load s).
Proof. reflexivity. Qed.


End SysGlobalProps.

(** * Strings *)

Lemma prefix_app (p x : string) : String.prefix p (p +:+ x) = true.
Proof.
  induction p as [|a p IH]; [by destruct x|].
  simpl. destruct (ascii_dec a a); [exact IH | congruence].
Qed.

Lemma prefix_app_r (p s x : string) :
  String.prefix p s = true -> String.prefix p (s +:+ x) = true.
Proof.
  revert s. induction p as [|a p IH]; intros s H; [by destruct (s +:+ x)%string|].
  destruct s as [|b s]; [discriminate|]. simpl in *.
  destruct (ascii_dec a b); [by apply IH | discriminate].
Qed.

Lemma rev_app_app (s acc x : string) :
  String.rev_app s (acc +:+ x) = String.rev_app s acc +:+ x.
Proof.
  revert acc. induction s as [|a s IH]; intros acc; [reflexivity|].
  simpl. apply (IH (String a acc)).
Qed.

Lemma rev_app_distr (s t : string) : String.rev (s +:+ t) = String.rev t +:+ String.rev s.
Proof.
  unfold String.rev. generalize "" at 1 3. induction s as [|a s IH]; intros acc.
  - simpl. by rewrite <- rev_app_app.
  - simpl. apply IH.
Qed.

(** [(s + suffix).endswith(suffix)] *)
Lemma endswith_app (s suffix : string) : endswith (s +:+ suffix) suffix = true.
Proof. unfold endswith. rewrite rev_app_distr. apply prefix_app. Qed.

(** [s.endswith(suffix)] implies [(x + s).endswith(suffix)] *)
Lemma endswith_app_l (x s suffix : string) :
  endswith s suffix = true -> endswith (x +:+ s) suffix = true.
Proof. unfold endswith. rewrite rev_app_distr. apply prefix_app_r. Qed.

Lemma startswith_app (s p x : string) :
  startswith s p = true -> startswith (s +:+ x) p = true.
Proof. apply prefix_app_r. Qed.

(** * Properties of the client SSL module *)
Module ClientSSLProps.
Import ClientSSL.

(** ** The bundle comparison *)

Lemma elem_of_pairs (l : list dict) (k v : string) :
  (k, v) ∈ pairs l <-> exists d c, d ∈ l /\ d !! k = Some c /\ cell_str c = v.
Proof.
  unfold pairs. rewrite elem_of_list_to_set, list_elem_of_In, in_concat. split.
  - intros (x & Hx & Hin). apply in_map_iff in Hx as (d & <- & Hd).
    apply in_map_iff in Hin as ([k' c] & E & Hin). cbn [fst snd] in E.
    apply pair_equal_spec in E as [-> <-].
    exists d, c. split; [by apply list_elem_of_In|]. split; [|reflexivity].
    apply list_elem_of_In in Hin. by apply elem_of_map_to_list in Hin.
  - intros (d & c & Hd & Hk & <-).
    exists (map (fun kv => (kv.1, cell_str kv.2)) (map_to_list d)). split.
    + apply in_map_iff. exists d. split; [reflexivity | by apply list_elem_of_In].
    + apply in_map_iff. exists (k, c). split; [reflexivity|].
      apply list_elem_of_In. by apply elem_of_map_to_list.
Qed.

Lemma pairs_subseteq (want have : list dict) :
  pairs want ⊆ pairs have <-> covered want have.
Proof.
  unfold covered. split.
  - intros Hsub d k v Hd Hk.
    assert ((k, cell_str v) ∈ pairs have) as Hin
      by (apply Hsub, elem_of_pairs; eauto).
    apply elem_of_pairs in Hin as (d' & v' & Hd' & Hk' & E). eauto.
  - intros Hc [k v] Hin. apply elem_of_pairs in Hin as (d & c & Hd & Hk & <-).
    destruct (Hc d k c Hd Hk) as (d' & v' & Hd' & Hk' & E).
    apply elem_of_pairs. eauto.
Qed.

Lemma diff_complex_items_lists {S} (s : S) (want have : list dict) :
  Difference._diff_complex_items (PDicts want) (PDicts have) s =
    (Ok (if bool_decide (pairs want ⊆ pairs have) then PNone else PDicts want), s).
Proof.
  unfold Difference._diff_complex_items.
  replace (is_none (PDicts have)) with false by reflexivity.
  rewrite andb_false_r.
  replace (is_none (PDicts want)) with false by reflexivity.
  unfold Difference.to_tuple, bind, ret, pairs.
  case_bool_decide; reflexivity.
Qed.

Lemma diff_complex_items_absent {S} (s : S) (d : dict) (l : list dict) :
  Difference._diff_complex_items (PDicts (d :: l)) PNone s
    = (Raise (TypeError "object is not iterable"), s).
Proof.
  unfold Difference._diff_complex_items.
  replace (pyeq (PDicts (d :: l)) (PDicts [])) with false.
  - reflexivity.
  - symmetry. unfold pyeq. cbn [num_of]. by apply bool_decide_eq_false_2.
Qed.

(** C3: an empty desired list against an absent current value is no
    change; for a desired and a current list, the comparison returns no
    change when every (field, value) pair of the desired entries is a pair
    of the current entries, and the whole desired list otherwise.  The case
    the claim's "otherwise" also covers is missed: a desired list that is
    not empty against an absent current value raises a [TypeError]. *)
Theorem diff_complex_items_spec {S} (s : S) (want have : list dict) :
  Difference._diff_complex_items (PDicts []) PNone s = (Ok PNone, s) /\
  (covered want have ->
     Difference._diff_complex_items (PDicts want) (PDicts have) s = (Ok PNone, s)) /\
  (~ covered want have ->
     Difference._diff_complex_items (PDicts want) (PDicts have) s
       = (Ok (PDicts want), s)) /\
  (want <> [] ->
     Difference._diff_complex_items (PDicts want) PNone s
       = (Raise (TypeError "object is not iterable"), s)).
Proof.
  split; [reflexivity|]. rewrite diff_complex_items_lists.
  split; [|split]; intros H.
  - rewrite bool_decide_eq_true_2; [reflexivity | by apply pairs_subseteq].
  - rewrite bool_decide_eq_false_2; [reflexivity|].
    intros Hs. by apply H, pairs_subseteq.
  - destruct want as [|d l]; [done | apply diff_complex_items_absent].
Qed.

(** The desired bundle of the specification's example, once expanded, is
    the bundle the device holds. *)
Lemma example_expands :
  (ModuleParameters.cert_key_chain (init api_map example_params)).1
    = Ok (PDicts [example_bundle]).
Proof. vm_compute. reflexivity. Qed.

Lemma diff_complex_items_spec_witness :
  Difference._diff_complex_items (PDicts [example_bundle]) (PDicts [example_bundle]) tt
    = (Ok PNone, tt) /\
  Difference._diff_complex_items (PDicts [example_bundle]) PNone tt
    = (Raise (TypeError "object is not iterable"), tt).
Proof.
  split.
  - refine (proj1 (proj2 (diff_complex_items_spec tt [example_bundle] [example_bundle])) _).
    apply pairs_subseteq. apply (bool_decide_unpack _). vm_compute. exact I.
  - refine (proj2 (proj2 (proj2 (diff_complex_items_spec tt [example_bundle] []))) _).
    discriminate.
Defined.

(** C10: a non-empty desired list against an absent current value makes
    [to_tuple] iterate over [None]: the comparison raises a [TypeError],
    and so does the run, where no handler catches it. *)
Theorem diff_complex_items_raises_on_absent_current :
  (forall (d : dict) (l : list dict) (s : unit),
     Difference._diff_complex_items (PDicts (d :: l)) PNone s
       = (Raise (TypeError "object is not iterable"), s)) /\
  (exec_module (new_manager example_params false (Some bare_device))).1
    = Raise (TypeError "object is not iterable").
Proof.
  split.
  - intros d l s. apply diff_complex_items_absent.
  - vm_compute. reflexivity.
Qed.

(** C1: [parent] is not among the fields the difference engine visits.
    With the desired parent [/Common/clientssl] and the current parent
    [/Common/other] the comparator of [parent] would raise, but the run
    never calls it: it reads the profile and reports no change. *)
Theorem parent_difference_is_not_detected :
  (Difference.compare "parent"
     (set_have (init api_map parent_device)
        (new_manager parent_params false (Some parent_device)))).1
    = Raise (F5ModuleError "The parent profile cannot be changed") /\
  ("parent" ∉ updatables) /\
  (exec_module (new_manager parent_params false (Some parent_device))).1
    = Ok {[ "changed" := PBool false ]} /\
  calls (exec_module (new_manager parent_params false (Some parent_device))).2
    = [ Exists (PStr "my_profile") "Common"; Load (PStr "my_profile") "Common" ].
Proof.
  split; [vm_compute; reflexivity|].
  split; [|split; vm_compute; reflexivity].
  unfold updatables. rewrite !not_elem_of_cons.
  split; [discriminate|]. split; [discriminate|]. split; [discriminate|].
  apply not_elem_of_nil.
Qed.

(** ** Reading the parameters *)

Lemma fqdn_name_pure value : pure (ModuleParameters._fqdn_name value).
Proof. unfold ModuleParameters._fqdn_name. frame. Qed.

Lemma key_filename_pure name : pure (ModuleParameters._key_filename name).
Proof. unfold ModuleParameters._key_filename. frame. Qed.

Lemma cert_filename_pure name : pure (ModuleParameters._cert_filename name).
Proof. unfold ModuleParameters._cert_filename. frame. Qed.

Lemma get_chain_value_pure item : pure (ModuleParameters._get_chain_value item).
Proof.
  unfold ModuleParameters._get_chain_value, item_get.
  pose proof fqdn_name_pure. pose proof cert_filename_pure. frame.
Qed.

Lemma want_bundle_of_item_pure item : pure (ModuleParameters.bundle_of_item item).
Proof.
  unfold ModuleParameters.bundle_of_item, item_get.
  pose proof fqdn_name_pure. pose proof key_filename_pure.
  pose proof cert_filename_pure. pose proof get_chain_value_pure. frame.
Qed.

Lemma want_bundles_loop_pure items acc : pure (ModuleParameters.bundles_loop items acc).
Proof.
  revert acc. induction items as [|i items IH]; intros acc; cbn [ModuleParameters.bundles_loop].
  - frame.
  - apply preserves_bind; [apply want_bundle_of_item_pure | intros tmp; apply IH].
Qed.

Lemma want_cert_key_chain_pure : pure ModuleParameters.cert_key_chain.
Proof.
  unfold ModuleParameters.cert_key_chain. pose proof want_bundles_loop_pure. frame.
Qed.

Lemma want_getattr_pure k : pure (ModuleParameters.getattr k).
Proof.
  unfold ModuleParameters.getattr, ModuleParameters.parent, base_getattr.
  pose proof want_cert_key_chain_pure. pose proof fqdn_name_pure.
  frame; try (intros s; reflexivity).
Qed.

Lemma have_bundles_loop_pure items acc : pure (ApiParameters.bundles_loop items acc).
Proof.
  revert acc. induction items as [|i items IH]; intros acc; cbn [ApiParameters.bundles_loop].
  - frame.
  - unfold item_get. apply preserves_bind; [frame | intros tmp; apply IH].
Qed.

Lemma have_cert_key_chain_pure : pure ApiParameters.cert_key_chain.
Proof.
  unfold ApiParameters.cert_key_chain. pose proof have_bundles_loop_pure. frame.
Qed.

Lemma have_getattr_pure k : pure (ApiParameters.getattr k).
Proof.
  unfold ApiParameters.getattr, base_getattr.
  pose proof have_cert_key_chain_pure.
  frame; try (intros s; reflexivity).
Qed.

(** What the two [cert_key_chain] properties return, [getattr]'s fallback
    to the stored value included: [None] or a list. *)
Lemma cert_key_chain_cases (loop : list dict -> list dict -> M values (list dict))
    (self : values) (v : pyval) :
  ((let! self := get in
    match getv self "cert_key_chain" with
    | PNone => ret PNone
    | PDicts items =>
        let! result := loop items [] in
        let! result := lift (sorted_by_name result) in
        ret (PDicts result)
    | PStr "" => ret (PDicts [])
    | PStr _ => raise (TypeError "string indices must be integers")
    | _ => raise (TypeError "object is not iterable")
    end) self).1 = Ok v ->
  none_or_list v.
Proof.
  unfold bind at 1. cbn [get].
  destruct (getv self "cert_key_chain") as [| | |s|items].
  - cbn [ret fst]. intros H%Ok_inj. subst. by left.
  - cbn [raise fst]. discriminate.
  - cbn [raise fst]. discriminate.
  - destruct s; cbn [ret raise fst]; [|discriminate].
    intros H%Ok_inj. subst. right. eauto.
  - unfold bind, lift. destruct (loop items [] self) as [[r|e] s']; [|discriminate].
    destruct (sorted_by_name r) as [l|e]; cbn [ret fst]; [|discriminate].
    intros H%Ok_inj. subst. right. eauto.
Qed.

Lemma want_cert_key_chain_shape self v :
  (ModuleParameters.getattr "cert_key_chain" self).1 = Ok v -> none_or_list v.
Proof.
  change (ModuleParameters.getattr "cert_key_chain")
    with (catch_attribute_error ModuleParameters.cert_key_chain (base_getattr "cert_key_chain")).
  unfold catch_attribute_error.
  pose proof (cert_key_chain_cases ModuleParameters.bundles_loop self) as Hc.
  change (let! self := get in _) with ModuleParameters.cert_key_chain in Hc.
  rewrite (pure_run _ self want_cert_key_chain_pure).
  destruct (ModuleParameters.cert_key_chain self).1 as [x|e] eqn:E.
  - cbn [fst]. intros H%Ok_inj. subst. by apply Hc.
  - destruct e; cbn [fst]; try discriminate.
    unfold base_getattr. cbn [fst]. intros H%Ok_inj. subst v.
    unfold ModuleParameters.cert_key_chain in E. unfold bind at 1 in E. cbn [get] in E.
    destruct (getv self "cert_key_chain") as [| | |s|items];
      [by left | discriminate E | discriminate E | | right; eauto].
    destruct s; discriminate E.
Qed.

Lemma have_cert_key_chain_shape self v :
  (ApiParameters.getattr "cert_key_chain" self).1 = Ok v -> none_or_list v.
Proof.
  change (ApiParameters.getattr "cert_key_chain")
    with (catch_attribute_error ApiParameters.cert_key_chain (base_getattr "cert_key_chain")).
  unfold catch_attribute_error.
  pose proof (cert_key_chain_cases ApiParameters.bundles_loop self) as Hc.
  change (let! self := get in _) with ApiParameters.cert_key_chain in Hc.
  rewrite (pure_run _ self have_cert_key_chain_pure).
  destruct (ApiParameters.cert_key_chain self).1 as [x|e] eqn:E.
  - cbn [fst]. intros H%Ok_inj. subst. by apply Hc.
  - destruct e; cbn [fst]; try discriminate.
    unfold base_getattr. cbn [fst]. intros H%Ok_inj. subst v.
    unfold ApiParameters.cert_key_chain in E. unfold bind at 1 in E. cbn [get] in E.
    destruct (getv self "cert_key_chain") as [| | |s|items];
      [by left | discriminate E | discriminate E | | right; eauto].
    destruct s; discriminate E.
Qed.

Lemma set_want_id s : set_want (want s) s = s.
Proof. by destruct s. Qed.
Lemma set_have_id s : set_have (have s) s = s.
Proof. by destruct s. Qed.

Lemma on_want_pure {A} (g : M values A) s :
  pure g -> on_want g s = ((g (want s)).1, s).
Proof.
  intros Hg. unfold on_want. rewrite (pure_run g (want s) Hg). cbn [fst].
  by rewrite set_want_id.
Qed.

Lemma on_have_pure {A} (g : M values A) s :
  pure g -> on_have g s = ((g (have s)).1, s).
Proof.
  intros Hg. unfold on_have. rewrite (pure_run g (have s) Hg). cbn [fst].
  by rewrite set_have_id.
Qed.

Lemma ro_ret {A} (a : A) : reads_only (ret a).
Proof. intros s. reflexivity. Qed.

Lemma ro_raise {A} (e : exn) : reads_only (@raise manager A e).
Proof. intros s. reflexivity. Qed.

Lemma ro_on_want {A} (g : M values A) : pure g -> reads_only (on_want g).
Proof. intros Hg s. by rewrite !on_want_pure. Qed.

Lemma ro_on_have {A} (g : M values A) : pure g -> reads_only (on_have g).
Proof. intros Hg s. by rewrite !on_have_pure. Qed.

Lemma ro_bind {A B} (m : M manager A) (k : A -> M manager B) :
  reads_only m -> (forall a, reads_only (k a)) -> reads_only (bind m k).
Proof.
  intros Hm Hk s. unfold bind. rewrite (Hm s), (Hm (core s)).
  change (core (core s)) with (core s).
  destruct (m (core s)) as [[a|e] s']; cbn [fst]; [|reflexivity].
  rewrite (Hk a s), (Hk a (core s)). reflexivity.
Qed.

Lemma ro_catch {A} (m h : M manager A) :
  reads_only m -> reads_only h -> reads_only (catch_attribute_error m h).
Proof.
  intros Hm Hh s. unfold catch_attribute_error. rewrite (Hm s), (Hm (core s)).
  change (core (core s)) with (core s).
  destruct (m (core s)) as [[a|[]] s']; cbn [fst]; try reflexivity.
  rewrite (Hh s), (Hh (core s)). reflexivity.
Qed.

Ltac ro_step :=
  match goal with
  | |- reads_only (bind _ _) => apply ro_bind; [|intros ?]
  | |- reads_only (ret _) => apply ro_ret
  | |- reads_only (raise _) => apply ro_raise
  | |- reads_only (catch_attribute_error _ _) => apply ro_catch
  | |- reads_only (on_want _) => apply ro_on_want
  | |- reads_only (on_have _) => apply ro_on_have
  | |- reads_only (if ?b then _ else _) => destruct b
  | |- reads_only (match ?x with _ => _ end) => destruct x
  end.

Lemma diff_complex_items_ro (w h : pyval) :
  reads_only (Difference._diff_complex_items w h).
Proof.
  unfold Difference._diff_complex_items, Difference.to_tuple. repeat ro_step.
Qed.

Lemma compare_reads_only k : reads_only (Difference.compare k).
Proof.
  unfold Difference.compare, Difference.getattr, Difference.parent,
    Difference.cert_key_chain, Difference.__default.
  pose proof want_getattr_pure. pose proof have_getattr_pure.
  pose proof diff_complex_items_ro.
  repeat ro_step; auto.
Qed.

Lemma changed_loop_reads_only ks acc : reads_only (changed_loop ks acc).
Proof.
  revert acc. induction ks as [|k ks IH]; intros acc; cbn [changed_loop].
  - apply ro_ret.
  - apply ro_bind; [apply compare_reads_only|]. intros c. destruct (is_none c); apply IH.
Qed.

(** The loop of [_update_changed_options] computes the change set of the
    desired and current parameters and leaves the manager as it is. *)
Lemma changed_loop_run s :
  changed_loop updatables ∅ s = (change_set (want s) (have s), s).
Proof. apply changed_loop_reads_only. Qed.

(** Evaluate the monad's plumbing and the record accessors, nothing else. *)
Ltac mstep :=
  cbv beta iota zeta delta [bind get modify ret raise];
  cbn [want have changes check_mode device calls deprecations
       set_want set_have set_changes set_device log_call deprecate fst snd].

Lemma exists_run s :
  exists_ s = (Ok (bool_decide (is_Some (device s))),
               log_call (Exists (getv (want s) "name") (partition (want s))) s).
Proof. reflexivity. Qed.

Lemma read_current_run s attrs :
  device s = Some attrs ->
  read_current_from_device s =
    (Ok (init api_map attrs),
     log_call (Load (getv (want s) "name") (partition (want s))) s).
Proof.
  intros Hd. unfold read_current_from_device, sdk_load. mstep. rewrite Hd. reflexivity.
Qed.

(** [update] on a profile the device has, in check mode or when the
    difference engine finds nothing to change. *)
Lemma update_run s attrs :
  device s = Some attrs ->
  update_ s =
    let s3 := set_have (init api_map attrs)
                (log_call (Load (getv (want s) "name") (partition (want s))) s) in
    match change_set (want s) (init api_map attrs) with
    | Raise e => (Raise e, s3)
    | Ok changed =>
        if bool_decide (changed = ∅) then (Ok false, s3)
        else if check_mode s then (Ok true, set_changes (init api_map changed) s3)
        else (update_on_device ;; ret true) (set_changes (init api_map changed) s3)
    end.
Proof.
  intros Hd. unfold update_. rewrite (bind_ok _ _ _ _ _ (read_current_run s attrs Hd)).
  unfold should_update, _update_changed_options. mstep.
  rewrite changed_loop_run. mstep.
  destruct (change_set (want s) (init api_map attrs)) as [changed|e]; [|reflexivity].
  destruct (bool_decide (changed = ∅)); cbn [negb]; mstep; [reflexivity|].
  destruct (check_mode s); reflexivity.
Qed.

Lemma want_getattr_plain k self :
  k <> "parent" -> k <> "cert_key_chain" ->
  ModuleParameters.getattr k self = (Ok (getv self k), self).
Proof.
  intros H1 H2. unfold ModuleParameters.getattr.
  rewrite (proj2 (String.eqb_neq _ _) H1), (proj2 (String.eqb_neq _ _) H2).
  reflexivity.
Qed.

Lemma have_getattr_plain k self :
  k <> "cert_key_chain" -> ApiParameters.getattr k self = (Ok (getv self k), self).
Proof.
  intros H2. unfold ApiParameters.getattr.
  rewrite (proj2 (String.eqb_neq _ _) H2). reflexivity.
Qed.

Lemma on_want_plain k s :
  k <> "parent" -> k <> "cert_key_chain" ->
  on_want (ModuleParameters.getattr k) s = (Ok (getv (want s) k), s).
Proof.
  intros H1 H2. rewrite on_want_pure by apply want_getattr_pure.
  by rewrite want_getattr_plain.
Qed.

Lemma on_have_plain k s :
  k <> "cert_key_chain" ->
  on_have (ApiParameters.getattr k) s = (Ok (getv (have s) k), s).
Proof.
  intros H2. rewrite on_have_pure by apply have_getattr_pure.
  by rewrite have_getattr_plain.
Qed.

(** The default comparison of a field without a comparator of its own. *)
Lemma compare_plain k s :
  k <> "parent" -> k <> "cert_key_chain" ->
  Difference.compare k s =
    (Ok (if negb (pyeq (getv (want s) k) (getv (have s) k))
         then getv (want s) k else PNone), s).
Proof.
  intros H1 H2. unfold Difference.compare, Difference.getattr.
  rewrite (proj2 (String.eqb_neq _ _) H1), (proj2 (String.eqb_neq _ _) H2).
  unfold catch_attribute_error at 1. cbn [raise].
  unfold Difference.__default.
  rewrite (bind_ok _ _ _ _ _ (on_want_plain k s H1 H2)).
  unfold catch_attribute_error.
  rewrite (bind_ok _ _ _ _ _ (on_have_plain k s H2)).
  destruct (negb _); reflexivity.
Qed.

Lemma diff_complex_items_same {S} (s : S) (x : pyval) :
  none_or_list x -> Difference._diff_complex_items x x s = (Ok PNone, s).
Proof.
  intros [-> | [l ->]]; [reflexivity|].
  rewrite diff_complex_items_lists. by rewrite bool_decide_eq_true_2.
Qed.

Lemma pyeq_none_or_list x y :
  none_or_list x -> none_or_list y -> pyeq x y = true -> x = y.
Proof.
  intros [-> | [l ->]] [-> | [l' ->]]; unfold pyeq; cbn [num_of];
    intros H; by apply bool_decide_eq_true in H.
Qed.

(** The comparator of [cert_key_chain] when both sides read the same. *)
Lemma compare_cert_key_chain_same s x :
  (ModuleParameters.getattr "cert_key_chain" (want s)).1 = Ok x ->
  (ApiParameters.getattr "cert_key_chain" (have s)).1 = Ok x ->
  Difference.compare "cert_key_chain" s = (Ok PNone, s).
Proof.
  intros Hw Hh.
  change (Difference.compare "cert_key_chain")
    with (catch_attribute_error Difference.cert_key_chain
            (Difference.__default "cert_key_chain")).
  unfold catch_attribute_error, Difference.cert_key_chain.
  assert (on_want (ModuleParameters.getattr "cert_key_chain") s = (Ok x, s)) as Ew.
  { rewrite on_want_pure by apply want_getattr_pure. by rewrite Hw. }
  assert (on_have (ApiParameters.getattr "cert_key_chain") s = (Ok x, s)) as Eh.
  { rewrite on_have_pure by apply have_getattr_pure. by rewrite Hh. }
  rewrite (bind_ok _ _ _ _ _ Ew), (bind_ok _ _ _ _ _ Eh).
  rewrite diff_complex_items_same; [reflexivity|].
  by eapply want_cert_key_chain_shape.
Qed.

Lemma compare_plain_satisfied k s :
  k <> "parent" -> k <> "cert_key_chain" ->
  getv (want s) k = PNone \/ pyeq (getv (want s) k) (getv (have s) k) = true ->
  Difference.compare k s = (Ok PNone, s).
Proof.
  intros H1 H2 H. rewrite (compare_plain k s H1 H2).
  destruct H as [->| ->]; [by destruct (negb _) | reflexivity].
Qed.

Lemma compare_cert_key_chain_unset s y :
  (ModuleParameters.getattr "cert_key_chain" (want s)).1 = Ok PNone ->
  (ApiParameters.getattr "cert_key_chain" (have s)).1 = Ok y ->
  Difference.compare "cert_key_chain" s = (Ok PNone, s).
Proof.
  intros Hw Hh.
  change (Difference.compare "cert_key_chain")
    with (catch_attribute_error Difference.cert_key_chain
            (Difference.__default "cert_key_chain")).
  unfold catch_attribute_error, Difference.cert_key_chain.
  assert (on_want (ModuleParameters.getattr "cert_key_chain") s = (Ok PNone, s)) as Ew.
  { rewrite on_want_pure by apply want_getattr_pure. by rewrite Hw. }
  assert (on_have (ApiParameters.getattr "cert_key_chain") s = (Ok y, s)) as Eh.
  { rewrite on_have_pure by apply have_getattr_pure. by rewrite Hh. }
  rewrite (bind_ok _ _ _ _ _ Ew), (bind_ok _ _ _ _ _ Eh).
  unfold Difference._diff_complex_items. cbn [is_none].
  by destruct (pyeq PNone (PDicts []) && is_none y).
Qed.

(** No field is changed when the current parameters satisfy the desired
    ones. *)
Lemma change_set_satisfied w h : satisfied w h -> change_set w h = Ok ∅.
Proof.
  intros [Hp (x & y & Hx & Hy & Hxy)]. unfold change_set, updatables.
  cbn [changed_loop].
  rewrite (bind_ok _ _ _ _ _
             (compare_plain_satisfied "ciphers" (Manager w h ∅ false None [] [])
                ltac:(discriminate) ltac:(discriminate)
                (Hp "ciphers" ltac:(apply elem_of_cons; by left)))).
  cbn [is_none].
  assert (Difference.compare "cert_key_chain" (Manager w h ∅ false None [] [])
          = (Ok PNone, Manager w h ∅ false None [] [])) as Ec.
  { destruct Hxy as [->| ->].
    - by apply (compare_cert_key_chain_unset _ y).
    - by apply (compare_cert_key_chain_same _ y). }
  rewrite (bind_ok _ _ _ _ _ Ec). cbn [is_none].
  rewrite (bind_ok _ _ _ _ _
             (compare_plain_satisfied "ocsp_stapling" (Manager w h ∅ false None [] [])
                ltac:(discriminate) ltac:(discriminate)
                (Hp "ocsp_stapling"
                   ltac:(apply elem_of_cons; right; apply elem_of_cons; by left)))).
  reflexivity.
Qed.

(** Current parameters that equal the desired ones on every updatable
    field satisfy them. *)
Lemma in_desired_state_satisfied w h : in_desired_state w h -> satisfied w h.
Proof.
  intros Hd.
  destruct (Hd "ciphers") as (v1 & v1' & Hw1 & Hh1 & E1); [set_solver|].
  destruct (Hd "cert_key_chain") as (v2 & v2' & Hw2 & Hh2 & E2); [set_solver|].
  destruct (Hd "ocsp_stapling") as (v3 & v3' & Hw3 & Hh3 & E3); [set_solver|].
  rewrite want_getattr_plain in Hw1, Hw3 by discriminate.
  rewrite have_getattr_plain in Hh1, Hh3 by discriminate.
  cbn [fst] in Hw1, Hw3, Hh1, Hh3.
  apply Ok_inj in Hw1, Hw3, Hh1, Hh3. subst v1 v1' v3 v3'.
  split.
  - intros k Hk. right.
    apply elem_of_cons in Hk as [->|Hk]; [exact E1|].
    apply elem_of_cons in Hk as [->|Hk]; [exact E3|].
    by apply elem_of_nil in Hk.
  - exists v2, v2'. split; [exact Hw2|]. split; [exact Hh2|]. right.
    apply pyeq_none_or_list; [by eapply want_cert_key_chain_shape
                             | by eapply have_cert_key_chain_shape | exact E2].
Qed.

(** In the desired state the difference engine finds nothing. *)
Lemma change_set_in_desired_state w h :
  in_desired_state w h -> change_set w h = Ok ∅.
Proof. intros Hd. by apply change_set_satisfied, in_desired_state_satisfied. Qed.

Lemma clientssl_result_has_no_warnings (changed : bool) (c : values) :
  (<["changed" := PBool changed]>
     (to_return returnables (init api_map (to_return returnables c)) ∪ ∅) : values)
    !! "__warnings" = None.
Proof.
  rewrite lookup_insert_ne by discriminate.
  rewrite (right_id_L ∅ (∪)).
  apply to_return_lookup_None. unfold returnables.
  rewrite !not_elem_of_cons. split; [discriminate|]. split; [discriminate|].
  apply not_elem_of_nil.
Qed.

Lemma clientssl_announce_nothing (result : values) (s : manager) :
  result !! "__warnings" = None ->
  _announce_deprecations result s = (Ok (delete "__warnings" result), s).
Proof. intros H. unfold _announce_deprecations. rewrite H. reflexivity. Qed.

Lemma assemble_changed changed s : assemble changed s !! "changed" = Some (PBool changed).
Proof.
  unfold assemble. rewrite lookup_delete_ne by discriminate. apply lookup_insert_eq.
Qed.

(** A run with [state: present]. *)
Lemma exec_module_present m :
  getv (want m) "state" = PStr "present" ->
  exec_module m =
    match present m with
    | (Ok changed, s) => (Ok (assemble changed s), s)
    | (Raise (iControlUnexpectedHTTPError msg), s) => (Raise (F5ModuleError msg), s)
    | (Raise e, s) => (Raise e, s)
    end.
Proof.
  intros Hs. unfold exec_module.
  rewrite (bind_ok _ _ _ _ _ (on_want_plain "state" m ltac:(discriminate) ltac:(discriminate))).
  rewrite Hs. replace (pyeq (PStr "present") (PStr "present")) with true by reflexivity.
  unfold bind at 1. unfold reraise_http.
  destruct (present m) as [[changed|e] s].
  - mstep. rewrite clientssl_announce_nothing by apply clientssl_result_has_no_warnings.
    reflexivity.
  - destruct e; reflexivity.
Qed.

(** [present] when the device has the profile. *)
Lemma present_existing m attrs :
  device m = Some attrs ->
  present m = update_ (log_call (Exists (getv (want m) "name") (partition (want m))) m).
Proof.
  intros Hd. unfold present. rewrite (bind_ok _ _ _ _ _ (exists_run m)).
  rewrite Hd. reflexivity.
Qed.

(** C6: a [present] run against a profile that is in the desired state
    already, every updatable field either left unset by the user or at its
    desired value, as the second of two identical runs finds it, finds no
    changed field, reports [changed = false], and issues the existence
    check and the load only: no modify call reaches the device, the device
    is as it was. *)
Theorem present_in_desired_state_changes_nothing (m : manager) (attrs : values) :
  getv (want m) "state" = PStr "present" ->
  device m = Some attrs ->
  satisfied (want m) (init api_map attrs) ->
  change_set (want m) (init api_map attrs) = Ok ∅ /\
  (exists result, (exec_module m).1 = Ok result /\
                  result !! "changed" = Some (PBool false)) /\
  calls (exec_module m).2 =
    (calls m ++ [ Exists (getv (want m) "name") (partition (want m));
                  Load (getv (want m) "name") (partition (want m)) ])%list /\
  device (exec_module m).2 = device m.
Proof.
  intros Hs Hd Hin.
  pose proof (change_set_satisfied _ _ Hin) as Hc.
  split; [exact Hc|].
  rewrite (exec_module_present m Hs), (present_existing m attrs Hd).
  rewrite (update_run _ attrs) by exact Hd.
  cbn [want log_call]. rewrite Hc.
  rewrite bool_decide_eq_true_2 by reflexivity. cbv zeta.
  split; [|split].
  - eexists. split; [reflexivity | apply assemble_changed].
  - cbn [snd calls set_have log_call]. by rewrite <- app_assoc.
  - reflexivity.
Qed.

(** The witness is the second of two identical runs: the first run created
    the profile of the bundle example, with the default ciphers the user
    did not ask for. *)
Lemma present_in_desired_state_changes_nothing_witness :
  exists result,
    (exec_module
       (new_manager example_params false
          (device (exec_module (new_manager example_params false None)).2))).1
      = Ok result /\
    result !! "changed" = Some (PBool false).
Proof.
  refine (proj1 (proj2 (present_in_desired_state_changes_nothing
            (new_manager example_params false
               (device (exec_module (new_manager example_params false None)).2))
            (default ∅ (device (exec_module (new_manager example_params false None)).2))
            _ _ _))).
  - vm_compute. reflexivity.
  - vm_compute. reflexivity.
  - split.
    + intros k Hk. left.
      apply elem_of_cons in Hk as [->|Hk]; [vm_compute; reflexivity|].
      apply elem_of_cons in Hk as [->|Hk]; [vm_compute; reflexivity|].
      by apply elem_of_nil in Hk.
    + exists (PDicts [example_bundle]), (PDicts [example_bundle]).
      split; [vm_compute; reflexivity|]. split; [vm_compute; reflexivity|]. by right.
Defined.

Lemma getv_init_no_remap (params : values) (k : string) :
  (forall k, is_Some (params !! k) -> api_map !! k = None) ->
  k <> "__warnings" ->
  getv (init api_map params) k = getv params k.
Proof. apply getv_init_plain. Qed.

(** Every entry the difference engine collects is an updatable field with
    a value. *)
Lemma changed_loop_entries ks acc s c k v :
  (changed_loop ks acc s).1 = Ok c -> c !! k = Some v ->
  acc !! k = Some v \/ (k ∈ ks /\ v <> PNone).
Proof.
  revert acc. induction ks as [|k0 ks IH]; intros acc Hc Hk.
  - cbn [changed_loop ret fst] in Hc. apply Ok_inj in Hc. subst c. by left.
  - cbn [changed_loop] in Hc. apply bind_Ok_inv in Hc as (change & s' & Hcmp & Hc).
    rewrite (compare_reads_only k0 s) in Hcmp.
    assert (s' = s) as -> by congruence.
    destruct (is_none change) eqn:En.
    + destruct (IH _ Hc Hk) as [?|[? ?]]; [by left|right]. split; [set_solver|done].
    + destruct (IH _ Hc Hk) as [Ha|[? ?]]; [|right; split; [set_solver|done]].
      destruct (decide (k = k0)) as [->|Hne].
      * rewrite lookup_insert_eq in Ha. apply (inj Some) in Ha. subst v.
        right. split; [set_solver|]. intros ->. discriminate.
      * rewrite lookup_insert_ne in Ha by done. by left.
Qed.

Lemma change_set_entries w h c k v :
  change_set w h = Ok c -> c !! k = Some v -> k ∈ updatables /\ v <> PNone.
Proof.
  intros Hc Hk. destruct (changed_loop_entries _ _ _ _ _ _ Hc Hk) as [Ha|H]; [|exact H].
  by rewrite lookup_empty in Ha.
Qed.

Lemma updatable_not_remapped k : k ∈ updatables -> api_map !! k = None.
Proof.
  unfold updatables. intros Hk.
  repeat (apply elem_of_cons in Hk as [->|Hk]; [reflexivity|]).
  by apply elem_of_nil in Hk.
Qed.




(** Two runs with the same input: the first creates the profile of the
    bundle example, the second finds the device in the desired state. *)
Lemma second_run_reports_no_change :
  (exec_module
     (new_manager example_params false
        (device (exec_module (new_manager example_params false None)).2))).1
    = Ok {[ "changed" := PBool false ]}.
Proof. vm_compute. reflexivity. Qed.



(** ** Creation *)

Lemma present_missing m :
  device m = None ->
  present m = create (log_call (Exists (getv (want m) "name") (partition (want m))) m).
Proof.
  intros Hd. unfold present. rewrite (bind_ok _ _ _ _ _ (exists_run m)).
  rewrite Hd. reflexivity.
Qed.

Lemma set_changes_id s : set_changes (changes s) s = s.
Proof. by destruct s. Qed.

Lemma set_changed_loop_run ks acc s :
  Forall (fun k => k <> "parent" /\ k <> "cert_key_chain") ks ->
  exists c, set_changed_loop ks acc s = (Ok c, s).
Proof.
  intros Hks. revert acc. induction Hks as [|k ks [H1 H2] _ IH]; intros acc.
  - by eexists.
  - cbn [set_changed_loop].
    rewrite (bind_ok _ _ _ _ _ (on_want_plain k s H1 H2)).
    destruct (negb (is_none (getv (want s) k))); [|apply IH].
    rewrite (bind_ok _ _ _ _ _ (on_want_plain k s H1 H2)). apply IH.
Qed.

(** [_set_changed_options] reads the desired parameters and replaces at
    most the change set. *)
Lemma set_changed_options_run s :
  exists c, _set_changed_options s = (Ok tt, set_changes c s).
Proof.
  unfold _set_changed_options.
  destruct (set_changed_loop_run returnables ∅ s) as [c Hc].
  { unfold returnables. repeat constructor; discriminate. }
  rewrite (bind_ok _ _ _ _ _ Hc).
  destruct (bool_decide (c = ∅)).
  - exists (changes s). by rewrite set_changes_id.
  - by eexists.
Qed.

Lemma map_key_ciphers : map_key api_map "ciphers" = "ciphers".
Proof. vm_compute. reflexivity. Qed.
Lemma map_key_certKeyChain : map_key api_map "certKeyChain" = "cert_key_chain".
Proof. vm_compute. reflexivity. Qed.
Lemma map_key_ocspStapling : map_key api_map "ocspStapling" = "ocsp_stapling".
Proof. vm_compute. reflexivity. Qed.

(** [want.update({'ciphers': 'DEFAULT'})] *)
Lemma update_default_ciphers w :
  update api_map {[ "ciphers" := PStr "DEFAULT" ]} w = <["ciphers" := PStr "DEFAULT"]> w.
Proof. unfold update. rewrite map_fold_singleton. by rewrite map_key_ciphers. Qed.

(** The payload of the desired parameters: what reading [cert_key_chain]
    raises is raised, otherwise the three API attributes that carry a
    value. *)
Lemma want_api_params_run w :
  api_params ModuleParameters.getattr api_map api_attributes w =
    match (ModuleParameters.getattr "cert_key_chain" w).1 with
    | Ok ckc =>
        (Ok (_filter_params
               (<["ocspStapling" := getv w "ocsp_stapling"]>
                  (<["certKeyChain" := ckc]>
                     (<["ciphers" := getv w "ciphers"]> ∅)))), w)
    | Raise e => (Raise e, w)
    end.
Proof.
  unfold api_params, api_attributes. cbn [api_params_loop].
  rewrite map_key_ciphers, map_key_certKeyChain, map_key_ocspStapling.
  unfold bind at 1. unfold bind at 1.
  rewrite want_getattr_plain by discriminate.
  unfold bind at 1.
  rewrite (pure_run _ w (want_getattr_pure "cert_key_chain")).
  destruct (ModuleParameters.getattr "cert_key_chain" w).1 as [ckc|e]; [|reflexivity].
  unfold bind at 1. rewrite want_getattr_plain by discriminate. reflexivity.
Qed.

(** The bundle derivation reads the raw list and the partition only. *)
Lemma agree_bind {A B} (m : M values A) (k : A -> M values B) (w w' : values) :
  pure m -> (m w).1 = (m w').1 -> (forall a, (k a w).1 = (k a w').1) ->
  (bind m k w).1 = (bind m k w').1.
Proof.
  intros Hm E Hk. unfold bind. rewrite (pure_run m w Hm), (pure_run m w' Hm), E.
  destruct (m w').1; [apply Hk | reflexivity].
Qed.

Lemma fqdn_name_agree value w w' :
  partition w = partition w' ->
  (ModuleParameters._fqdn_name value w).1 = (ModuleParameters._fqdn_name value w').1.
Proof.
  intros Hp. unfold ModuleParameters._fqdn_name. unfold bind, get.
  destruct value as [|z|s]; [reflexivity..|].
  destruct (negb (startswith s "/")); cbn [ret fst]; by rewrite ?Hp.
Qed.

Lemma get_chain_value_agree item w w' :
  partition w = partition w' ->
  (ModuleParameters._get_chain_value item w).1
    = (ModuleParameters._get_chain_value item w').1.
Proof.
  intros Hp. unfold ModuleParameters._get_chain_value.
  destruct (negb (has item "chain") || bool_decide (item !! "chain" = Some (CStr "none")));
    [reflexivity|].
  apply agree_bind; [unfold item_get; frame | by unfold item_get; destruct (item !! "chain") |].
  intros chain. apply agree_bind; [apply fqdn_name_pure | by apply fqdn_name_agree |].
  intros fq. unfold ModuleParameters._cert_filename.
  destruct fq as [|z|s]; [reflexivity..|]. by destruct (endswith s ".crt").
Qed.

Lemma bundle_of_item_agree item w w' :
  partition w = partition w' ->
  (ModuleParameters.bundle_of_item item w).1 = (ModuleParameters.bundle_of_item item w').1.
Proof.
  intros Hp. unfold ModuleParameters.bundle_of_item.
  destruct (has item "key" && negb (has item "cert")); [reflexivity|].
  destruct (has item "cert" && negb (has item "key")); [reflexivity|].
  apply agree_bind; [unfold item_get; frame | by unfold item_get; destruct (item !! "key") |].
  intros k. apply agree_bind; [apply key_filename_pure | |].
  { unfold ModuleParameters._key_filename.
    destruct k as [|z|s]; [reflexivity..|]. by destruct (endswith s ".key"). }
  intros key.
  apply agree_bind; [unfold item_get; frame | by unfold item_get; destruct (item !! "cert") |].
  intros c. apply agree_bind; [apply cert_filename_pure | |].
  { unfold ModuleParameters._cert_filename.
    destruct c as [|z|s]; [reflexivity..|]. by destruct (endswith s ".crt"). }
  intros cert.
  apply agree_bind; [apply get_chain_value_pure | by apply get_chain_value_agree |].
  intros chain. cbv zeta.
  apply agree_bind; [apply fqdn_name_pure | by apply fqdn_name_agree |].
  intros fq_cert.
  apply agree_bind; [apply fqdn_name_pure | by apply fqdn_name_agree |].
  intros fq_key. by destruct (item !! "passphrase").
Qed.

Lemma bundles_loop_agree items acc w w' :
  partition w = partition w' ->
  (ModuleParameters.bundles_loop items acc w).1 = (ModuleParameters.bundles_loop items acc w').1.
Proof.
  intros Hp. revert acc. induction items as [|i items IH]; intros acc; [reflexivity|].
  cbn [ModuleParameters.bundles_loop].
  apply agree_bind; [apply want_bundle_of_item_pure | by apply bundle_of_item_agree |].
  intros tmp. apply IH.
Qed.

Lemma want_cert_key_chain_agree w w' :
  getv w "cert_key_chain" = getv w' "cert_key_chain" ->
  partition w = partition w' ->
  (ModuleParameters.getattr "cert_key_chain" w).1
    = (ModuleParameters.getattr "cert_key_chain" w').1.
Proof.
  intros Hc Hp.
  assert ((ModuleParameters.cert_key_chain w).1 = (ModuleParameters.cert_key_chain w').1)
    as E.
  { unfold ModuleParameters.cert_key_chain. rewrite !bind_get, <- Hc.
    destruct (getv w "cert_key_chain") as [| | |s|items]; try reflexivity.
    - destruct s; reflexivity.
    - apply agree_bind; [apply want_bundles_loop_pure | by apply bundles_loop_agree |].
      intros result. unfold bind, lift. by destruct (sorted_by_name result). }
  change (ModuleParameters.getattr "cert_key_chain")
    with (catch_attribute_error ModuleParameters.cert_key_chain (base_getattr "cert_key_chain")).
  unfold catch_attribute_error.
  rewrite (pure_run _ w want_cert_key_chain_pure), (pure_run _ w' want_cert_key_chain_pure), E.
  destruct (ModuleParameters.cert_key_chain w').1 as [x|e]; [reflexivity|].
  destruct e; try reflexivity. unfold base_getattr. cbn [fst]. by rewrite Hc.
Qed.

Lemma partition_insert_ne w k v : k <> "partition" -> partition (<[k := v]> w) = partition w.
Proof. intros Hk. unfold partition, getv. by rewrite lookup_insert_ne. Qed.

Lemma getv_insert_ne w k k' v : k <> k' -> getv (<[k := v]> w) k' = getv w k'.
Proof. intros Hk. unfold getv. by rewrite lookup_insert_ne. Qed.

Lemma getv_insert_eq w k v : getv (<[k := v]> w) k = v.
Proof. unfold getv. by rewrite lookup_insert_eq. Qed.

Lemma with_default_ciphers_facts w :
  getv (with_default_ciphers w) "name" = getv w "name" /\
  partition (with_default_ciphers w) = partition w /\
  (ModuleParameters.getattr "cert_key_chain" (with_default_ciphers w)).1
    = (ModuleParameters.getattr "cert_key_chain" w).1.
Proof.
  unfold with_default_ciphers. destruct (is_none (getv w "ciphers")); [|done].
  split; [by rewrite getv_insert_ne|].
  split; [by rewrite partition_insert_ne|].
  apply want_cert_key_chain_agree;
    [by rewrite getv_insert_ne | by rewrite partition_insert_ne].
Qed.

(** [create]: the change set is recorded, the default cipher list stored,
    and outside check mode the payload is read off the desired parameters
    and sent. *)
Lemma create_run s :
  exists c,
    create s =
      let w' := with_default_ciphers (want s) in
      let s2 := set_want w' (set_changes c s) in
      if check_mode s then (Ok true, s2)
      else match (ModuleParameters.getattr "cert_key_chain" (want s)).1 with
           | Ok ckc =>
               (Ok true,
                set_device (Some (create_payload w' ckc))
                  (log_call (Create (getv (want s) "name") (partition (want s))
                               (create_payload w' ckc)) s2))
           | Raise e => (Raise e, s2)
           end.
Proof.
  destruct (set_changed_options_run s) as [c Hc]. exists c.
  destruct (with_default_ciphers_facts (want s)) as (Hn & Hp & Hk).
  unfold create. rewrite (bind_ok _ _ _ _ _ Hc).
  rewrite (bind_ok _ _ _ _ _
             (on_want_plain "ciphers" _ ltac:(discriminate) ltac:(discriminate))).
  cbn [want set_changes]. cbv zeta.
  assert ((if is_none (getv (want s) "ciphers")
           then on_want (modify (update api_map {["ciphers" := PStr "DEFAULT"]}))
           else ret tt) (set_changes c s)
          = (Ok tt, set_want (with_default_ciphers (want s)) (set_changes c s))) as E.
  { unfold with_default_ciphers. destruct (is_none (getv (want s) "ciphers")).
    - unfold on_want, modify. cbn [want set_changes]. by rewrite update_default_ciphers.
    - unfold ret. by destruct s. }
  rewrite (bind_ok _ _ _ _ _ E). mstep.
  destruct (check_mode s); [reflexivity|].
  unfold create_on_device, on_want. mstep.
  rewrite want_api_params_run, Hk.
  destruct (ModuleParameters.getattr "cert_key_chain" (want s)).1 as [ckc|e];
    [|reflexivity].
  unfold sdk_create. mstep. rewrite Hn, Hp. reflexivity.
Qed.

(** C8: outside check mode, a [present] run that creates the profile for a
    user who gave no cipher list sends a create call whose payload has
    [ciphers = DEFAULT]. *)
Theorem create_sends_default_ciphers (m : manager) (ckc : pyval) :
  getv (want m) "state" = PStr "present" ->
  device m = None ->
  check_mode m = false ->
  getv (want m) "ciphers" = PNone ->
  (ModuleParameters.getattr "cert_key_chain" (want m)).1 = Ok ckc ->
  exists payload,
    calls (exec_module m).2 =
      (calls m ++ [ Exists (getv (want m) "name") (partition (want m));
                    Create (getv (want m) "name") (partition (want m)) payload ])%list /\
    payload !! "ciphers" = Some (PStr "DEFAULT") /\
    device (exec_module m).2 = Some payload.
Proof.
  intros Hs Hd Hchk Hci Hckc.
  rewrite (exec_module_present m Hs), (present_missing m Hd).
  destruct (create_run (log_call (Exists (getv (want m) "name") (partition (want m))) m))
    as [c ->].
  cbn [want check_mode log_call]. rewrite Hchk, Hckc. cbv zeta.
  exists (create_payload (with_default_ciphers (want m)) ckc).
  cbn [snd calls device set_device set_want set_changes log_call].
  split; [by rewrite <- app_assoc|]. split; [|reflexivity].
  unfold create_payload, with_default_ciphers. rewrite Hci. cbn [is_none].
  rewrite filter_params_lookup, getv_insert_eq.
  rewrite !lookup_insert_ne by discriminate. rewrite lookup_insert_eq. reflexivity.
Qed.

Lemma create_sends_default_ciphers_witness :
  exists payload,
    calls (exec_module (new_manager example_params false None)).2 =
      [ Exists (PStr "my_profile") "Common";
        Create (PStr "my_profile") "Common" payload ] /\
    payload !! "ciphers" = Some (PStr "DEFAULT") /\
    device (exec_module (new_manager example_params false None)).2 = Some payload.
Proof.
  refine (create_sends_default_ciphers (new_manager example_params false None)
            (PDicts [example_bundle]) _ _ _ _ _).
  - vm_compute. reflexivity.
  - reflexivity.
  - reflexivity.
  - vm_compute. reflexivity.
  - vm_compute. reflexivity.
Defined.

(** ** Validation of the bundles *)

Lemma has_true item k : has item k = true -> exists v, item !! k = Some v.
Proof. unfold has. intros H. apply bool_decide_eq_true in H. by destruct H as [v ->]; eauto. Qed.

Lemma fqdn_name_str s self :
  ModuleParameters._fqdn_name (CStr s) self = (Ok (CStr (fqdn self s)), self).
Proof.
  unfold ModuleParameters._fqdn_name, fqdn. rewrite bind_get.
  by destruct (negb (startswith s "/")).
Qed.

Lemma key_filename_str s self :
  ModuleParameters._key_filename (CStr s) self = (Ok (with_ext ".key" s), self).
Proof. unfold ModuleParameters._key_filename, with_ext. by destruct (endswith s ".key"). Qed.

Lemma cert_filename_str s self :
  ModuleParameters._cert_filename (CStr s) self = (Ok (with_ext ".crt" s), self).
Proof. unfold ModuleParameters._cert_filename, with_ext. by destruct (endswith s ".crt"). Qed.

Lemma with_ext_endswith ext s : endswith (with_ext ext s) ext = true.
Proof.
  unfold with_ext. destruct (endswith s ext) eqn:E; [exact E | apply endswith_app].
Qed.

Lemma fqdn_slash self s : startswith (fqdn self s) "/" = true.
Proof.
  unfold fqdn. destruct (startswith s "/") eqn:E; cbn [negb];
    [exact E | apply (prefix_app "/")].
Qed.

Lemma fqdn_qualified self ext s : endswith s ext = true -> qualified ext (fqdn self s).
Proof.
  intros He. split; [apply fqdn_slash|]. unfold fqdn.
  destruct (startswith s "/"); cbn [negb]; [exact He|].
  by do 3 apply endswith_app_l.
Qed.

Lemma with_ext_fqdn_qualified self ext s : qualified ext (with_ext ext (fqdn self s)).
Proof.
  split; [|apply with_ext_endswith]. unfold with_ext.
  destruct (endswith _ ext); [apply fqdn_slash | apply startswith_app, fqdn_slash].
Qed.

(** The chain of an entry whose chain, if given, is a string. *)
Lemma get_chain_value_str item self :
  (forall v, item !! "chain" = Some v -> exists s, v = CStr s) ->
  exists ch,
    ModuleParameters._get_chain_value item self = (Ok ch, self) /\
    (ch = "none" \/ qualified ".crt" ch).
Proof.
  intros Hs. unfold ModuleParameters._get_chain_value, has, item_get.
  destruct (item !! "chain") as [v|] eqn:E.
  - destruct (Hs v eq_refl) as [s ->].
    rewrite bool_decide_eq_true_2 by eauto. cbn [negb orb].
    destruct (decide (s = "none")) as [->|Hn].
    + rewrite bool_decide_eq_true_2 by reflexivity. eexists. split; [reflexivity | by left].
    + rewrite bool_decide_eq_false_2 by congruence.
      unfold bind at 1. cbn [ret].
      rewrite (bind_ok _ _ _ _ _ (fqdn_name_str s self)), cert_filename_str.
      eexists. split; [reflexivity|]. right. apply with_ext_fqdn_qualified.
  - rewrite bool_decide_eq_false_2 by (by intros [? ?]).
    eexists. split; [reflexivity | by left].
Qed.

Lemma tmp_fields (n c k ch : cell) (x : string) :
  is_Some (({[ "name" := n; "cert" := c; "key" := k; "chain" := ch ]} : dict) !! x) ->
  x ∈ bundle_fields.
Proof.
  rewrite !lookup_insert_is_Some', lookup_singleton_is_Some. unfold bundle_fields.
  rewrite !elem_of_cons. intuition.
Qed.

Lemma tmp_well_formed (n c k ch : string) :
  qualified ".crt" c -> qualified ".key" k -> ch = "none" \/ qualified ".crt" ch ->
  well_formed_bundle
    {[ "name" := CStr n; "cert" := CStr c; "key" := CStr k; "chain" := CStr ch ]}.
Proof.
  intros Hc Hk Hch. split; [|split; [|split; [|split]]].
  - exists n. apply lookup_insert_eq.
  - exists c. split; [|exact Hc].
    rewrite lookup_insert_ne by discriminate. apply lookup_insert_eq.
  - exists k. split; [|exact Hk].
    rewrite !lookup_insert_ne by discriminate. apply lookup_insert_eq.
  - exists ch. split; [|exact Hch].
    rewrite !lookup_insert_ne by discriminate. apply lookup_singleton_eq.
  - apply tmp_fields.
Qed.

Lemma well_formed_passphrase (b : dict) (p : cell) :
  well_formed_bundle b -> well_formed_bundle (<["passphrase" := p]> b).
Proof.
  intros (Hn & Hc & Hk & Hch & Hf). split; [|split; [|split; [|split]]].
  - unfold named. by rewrite lookup_insert_ne by discriminate.
  - by rewrite lookup_insert_ne by discriminate.
  - by rewrite lookup_insert_ne by discriminate.
  - by rewrite lookup_insert_ne by discriminate.
  - intros x. rewrite lookup_insert_is_Some'. intros [<-|Hx]; [|by apply Hf].
    unfold bundle_fields. rewrite !elem_of_cons. intuition.
Qed.

(** A complete entry with string values becomes a bundle with a name,
    qualified paths and no field of its own. *)
Lemma bundle_of_item_ok item self :
  has item "key" = true -> has item "cert" = true -> string_valued item ->
  exists tmp, ModuleParameters.bundle_of_item item self = (Ok tmp, self) /\
              well_formed_bundle tmp.
Proof.
  intros Hk Hc Hs. destruct (has_true _ _ Hk) as [k Ek], (has_true _ _ Hc) as [c Ec].
  destruct (Hs "key" k ltac:(apply elem_of_cons; by left) Ek) as [ks ->].
  destruct (Hs "cert" c ltac:(apply elem_of_cons; right; apply elem_of_cons; by left) Ec)
    as [cs ->].
  destruct (get_chain_value_str item self
              (fun v Hv => Hs "chain" v ltac:(do 2 (apply elem_of_cons; right);
                                             apply elem_of_cons; by left) Hv))
    as (ch & Ech & Hch).
  unfold ModuleParameters.bundle_of_item, item_get.
  rewrite Hk, Hc, Ek, Ec. cbn [negb andb].
  unfold bind at 1. cbn [ret].
  rewrite (bind_ok _ _ _ _ _ (key_filename_str ks self)).
  unfold bind at 1. cbn [ret].
  rewrite (bind_ok _ _ _ _ _ (cert_filename_str cs self)).
  rewrite (bind_ok _ _ _ _ _ Ech). cbv zeta.
  rewrite (bind_ok _ _ _ _ _ (fqdn_name_str _ self)).
  rewrite (bind_ok _ _ _ _ _ (fqdn_name_str _ self)).
  assert (well_formed_bundle
            {[ "name" := CStr (splitext (basename (with_ext ".crt" cs))).1;
               "cert" := CStr (fqdn self (with_ext ".crt" cs));
               "key" := CStr (fqdn self (with_ext ".key" ks));
               "chain" := CStr ch ]}) as Hw.
  { apply tmp_well_formed; [| |exact Hch]; apply fqdn_qualified, with_ext_endswith. }
  destruct (item !! "passphrase") as [p|].
  - eexists. split; [reflexivity | by apply well_formed_passphrase].
  - eexists. split; [reflexivity | exact Hw].
Qed.

Lemma bundle_of_item_lone item self :
  has item "key" <> has item "cert" ->
  exists msg, msg ∈ validation_messages /\
    ModuleParameters.bundle_of_item item self = (Raise (F5ModuleError msg), self).
Proof.
  intros Hne. unfold ModuleParameters.bundle_of_item, validation_messages.
  destruct (has item "key"), (has item "cert"); try congruence; cbn [negb andb].
  - eexists. split; [|reflexivity]. apply elem_of_cons. by left.
  - eexists. split; [|reflexivity]. apply elem_of_cons. right.
    apply elem_of_cons. by left.
Qed.

Lemma bundles_loop_lone pre item post acc self :
  Forall (fun i => has i "key" = true /\ has i "cert" = true /\ string_valued i) pre ->
  has item "key" <> has item "cert" ->
  exists msg, msg ∈ validation_messages /\
    ModuleParameters.bundles_loop (pre ++ item :: post) acc self
      = (Raise (F5ModuleError msg), self).
Proof.
  intros Hpre Hne. revert acc. induction Hpre as [|i pre (Hk & Hc & Hs) _ IH]; intros acc.
  - destruct (bundle_of_item_lone item self Hne) as (msg & Hin & E).
    exists msg. split; [exact Hin|].
    cbn [app ModuleParameters.bundles_loop]. by rewrite (bind_raise _ _ _ _ _ E).
  - destruct (bundle_of_item_ok i self Hk Hc Hs) as (tmp & E & _).
    cbn [app ModuleParameters.bundles_loop]. rewrite (bind_ok _ _ _ _ _ E). apply IH.
Qed.

(** Reading the desired [cert_key_chain] raises the validation error at
    the first entry that has a key without a certificate, or a certificate
    without a key, when the entries before it are complete and hold
    strings. *)
Lemma want_cert_key_chain_lone self pre item post :
  getv self "cert_key_chain" = PDicts (pre ++ item :: post) ->
  Forall (fun i => has i "key" = true /\ has i "cert" = true /\ string_valued i) pre ->
  has item "key" <> has item "cert" ->
  exists msg, msg ∈ validation_messages /\
    ModuleParameters.cert_key_chain self = (Raise (F5ModuleError msg), self) /\
    ModuleParameters.getattr "cert_key_chain" self = (Raise (F5ModuleError msg), self).
Proof.
  intros Hv Hpre Hne.
  destruct (bundles_loop_lone pre item post [] self Hpre Hne) as (msg & Hin & E).
  exists msg. split; [exact Hin|].
  assert (ModuleParameters.cert_key_chain self = (Raise (F5ModuleError msg), self)) as Ec.
  { unfold ModuleParameters.cert_key_chain. rewrite bind_get, Hv.
    by rewrite (bind_raise _ _ _ _ _ E). }
  split; [exact Ec|].
  change (ModuleParameters.getattr "cert_key_chain")
    with (catch_attribute_error ModuleParameters.cert_key_chain (base_getattr "cert_key_chain")).
  unfold catch_attribute_error. by rewrite Ec.
Qed.

Lemma changed_loop_cons k ks acc :
  changed_loop (k :: ks) acc =
    bind (Difference.compare k)
      (fun change => if is_none change then changed_loop ks acc
                     else changed_loop ks (<[k := change]> acc)).
Proof. reflexivity. Qed.

Lemma change_set_raises w h msg :
  ModuleParameters.getattr "cert_key_chain" w = (Raise (F5ModuleError msg), w) ->
  change_set w h = Raise (F5ModuleError msg).
Proof.
  intros E. unfold change_set, updatables.
  assert (forall acc, changed_loop ["cert_key_chain"; "ocsp_stapling"] acc
                        (Manager w h ∅ false None [] [])
                      = (Raise (F5ModuleError msg), Manager w h ∅ false None [] [])) as Hl.
  { intros acc. rewrite changed_loop_cons.
    apply bind_raise.
    change (Difference.compare "cert_key_chain")
      with (catch_attribute_error Difference.cert_key_chain
              (Difference.__default "cert_key_chain")).
    unfold catch_attribute_error, Difference.cert_key_chain.
    assert (on_want (ModuleParameters.getattr "cert_key_chain")
              (Manager w h ∅ false None [] [])
            = (Raise (F5ModuleError msg), Manager w h ∅ false None [] [])) as Ew.
    { unfold on_want. cbn [want]. by rewrite E. }
    by rewrite (bind_raise _ _ _ _ _ Ew). }
  rewrite changed_loop_cons.
  rewrite (bind_ok _ _ _ _ _
             (compare_plain "ciphers" _ ltac:(discriminate) ltac:(discriminate))).
  destruct (is_none _); by rewrite Hl.
Qed.

(** C5 (amended): when the first entry that is not a complete bundle has a
    key without a certificate or a certificate without a key, and the
    entries before it hold strings for their key, certificate and chain,
    reading the desired [cert_key_chain] raises the validation error; a
    [present] run that updates a profile the device has, or creates one
    outside check mode, ends with that error after read-only device calls
    and before any call that writes to the device, which is left as it
    was. *)
Theorem lone_key_or_cert_is_rejected (m : manager) (pre post : list dict) (item : dict) :
  getv (want m) "state" = PStr "present" ->
  getv (want m) "cert_key_chain" = PDicts (pre ++ item :: post) ->
  Forall (fun i => has i "key" = true /\ has i "cert" = true /\ string_valued i) pre ->
  has item "key" <> has item "cert" ->
  is_Some (device m) \/ check_mode m = false ->
  exists msg,
    msg ∈ validation_messages /\
    (ModuleParameters.cert_key_chain (want m)).1 = Raise (F5ModuleError msg) /\
    (exec_module m).1 = Raise (F5ModuleError msg) /\
    (exists new, calls (exec_module m).2 = (calls m ++ new)%list /\
                 Forall (fun c => mutating c = false) new) /\
    device (exec_module m).2 = device m.
Proof.
  intros Hs Hv Hpre Hne Hrun.
  destruct (want_cert_key_chain_lone (want m) pre item post Hv Hpre Hne)
    as (msg & Hin & Ec & Eg).
  exists msg. split; [exact Hin|]. split; [by rewrite Ec|].
  rewrite (exec_module_present m Hs).
  destruct (device m) as [attrs|] eqn:Hd.
  - rewrite (present_existing m attrs Hd).
    rewrite (update_run _ attrs) by exact Hd.
    cbn [want log_call]. rewrite (change_set_raises _ _ msg Eg). cbv zeta.
    split; [reflexivity|]. split; [|by rewrite <- Hd].
    eexists. cbn [snd calls set_have log_call]. rewrite <- app_assoc. split; [reflexivity|].
    repeat constructor.
  - destruct Hrun as [[? Hsome]|Hchk]; [discriminate|].
    rewrite (present_missing m Hd).
    destruct (create_run (log_call (Exists (getv (want m) "name") (partition (want m))) m))
      as [c ->].
    cbn [want check_mode log_call]. rewrite Hchk, Eg. cbv zeta. cbn [fst].
    split; [reflexivity|]. split; [|by rewrite <- Hd].
    eexists. cbn [snd calls set_want set_changes log_call]. split; [reflexivity|].
    repeat constructor.
Qed.

Lemma lone_key_or_cert_is_rejected_witness :
  exists msg,
    msg ∈ validation_messages /\
    (ModuleParameters.cert_key_chain
       (want (new_manager key_only_params false (Some example_device)))).1
      = Raise (F5ModuleError msg) /\
    (exec_module (new_manager key_only_params false (Some example_device))).1
      = Raise (F5ModuleError msg) /\
    (exists new,
       calls (exec_module (new_manager key_only_params false (Some example_device))).2
         = ([] ++ new)%list /\
       Forall (fun c => mutating c = false) new) /\
    device (exec_module (new_manager key_only_params false (Some example_device))).2
      = Some example_device.
Proof.
  refine (lone_key_or_cert_is_rejected
            (new_manager key_only_params false (Some example_device))
            [] [] {[ "key" := CStr "a" ]} _ _ _ _ _).
  - vm_compute. reflexivity.
  - vm_compute. reflexivity.
  - constructor.
  - vm_compute. discriminate.
  - left. eexists. reflexivity.
Defined.

(** The run on a key without certificate against a profile the device has
    reaches the validation only after the existence check and the load;
    in check mode against a device without the profile it reaches no
    validation at all. *)
Lemma validation_is_not_before_device_calls :
  ~ (exists msg,
       (exec_module (new_manager key_only_params false (Some example_device))).1
         = Raise (F5ModuleError msg) /\
       calls (exec_module (new_manager key_only_params false (Some example_device))).2
         = []) /\
  ~ (exists msg,
       (exec_module (new_manager key_only_params true None)).1
         = Raise (F5ModuleError msg)).
Proof.
  split.
  - assert (calls (exec_module (new_manager key_only_params false (Some example_device))).2
            = [ Exists (PStr "my_profile") "Common"; Load (PStr "my_profile") "Common" ])
      as E by (vm_compute; reflexivity).
    intros (msg & _ & H). rewrite E in H. discriminate.
  - assert ((exec_module (new_manager key_only_params true None)).1
            = Ok {[ "changed" := PBool true ]}) as E by (vm_compute; reflexivity).
    intros (msg & H). rewrite E in H. by apply Ok_not_Raise in H.
Qed.

End ClientSSLProps.

(** * Hoare rules *)
Section HoareRules.
Context {S : Type}.

Lemma hoare_ret {A} (P : S -> Prop) (Q : A -> S -> Prop) R (a : A) :
  (forall s, P s -> Q a s) -> hoare P (ret a) Q R.
Proof. intros H s Hs. by apply H. Qed.

Lemma hoare_raise {A} (P : S -> Prop) (Q : A -> S -> Prop) (R : exn -> S -> Prop) e :
  (forall s, P s -> R e s) -> hoare P (raise e) Q R.
Proof. intros H s Hs. by apply H. Qed.

Lemma hoare_bind {A B} (P : S -> Prop) (m : M S A) (k : A -> M S B)
    (Q : A -> S -> Prop) (Q' : B -> S -> Prop) R :
  hoare P m Q R -> (forall a, hoare (Q a) (k a) Q' R) -> hoare P (bind m k) Q' R.
Proof.
  intros Hm Hk s Hs. unfold bind. specialize (Hm s Hs).
  destruct (m s) as [[a|e] s']; [by apply Hk | exact Hm].
Qed.

Lemma hoare_bind_get {B} (P : S -> Prop) (k : S -> M S B) (Q : B -> S -> Prop) R :
  (forall s0, hoare (fun s => P s /\ s = s0) (k s0) Q R) -> hoare P (bind get k) Q R.
Proof. intros Hk s Hs. unfold bind, get. by apply (Hk s). Qed.

Lemma hoare_modify (P : S -> Prop) (f : S -> S) (Q : unit -> S -> Prop) R :
  (forall s, P s -> Q tt (f s)) -> hoare P (modify f) Q R.
Proof. intros H s Hs. by apply H. Qed.

Lemma hoare_conseq {A} (P P' : S -> Prop) (m : M S A) (Q Q' : A -> S -> Prop)
    (R R' : exn -> S -> Prop) :
  hoare P' m Q' R' -> (forall s, P s -> P' s) ->
  (forall a s, Q' a s -> Q a s) -> (forall e s, R' e s -> R e s) ->
  hoare P m Q R.
Proof.
  intros Hm HP HQ HR s Hs. specialize (Hm s (HP s Hs)).
  destruct (m s) as [[a|e] s']; auto.
Qed.

Lemma keeps_ret {A} (I : S -> Prop) (a : A) : keeps I (ret a).
Proof. by apply hoare_ret. Qed.

Lemma keeps_raise {A} (I : S -> Prop) e : keeps I (@raise S A e).
Proof. by apply hoare_raise. Qed.

Lemma keeps_get (I : S -> Prop) : keeps I get.
Proof. intros s Hs. exact Hs. Qed.

Lemma keeps_modify (I : S -> Prop) (f : S -> S) :
  (forall s, I s -> I (f s)) -> keeps I (modify f).
Proof. intros H. by apply hoare_modify. Qed.

Lemma keeps_bind {A B} (I : S -> Prop) (m : M S A) (k : A -> M S B) :
  keeps I m -> (forall a, keeps I (k a)) -> keeps I (bind m k).
Proof. intros Hm Hk. eapply hoare_bind; [exact Hm | exact Hk]. Qed.

(** After [get] the value read is the state: the continuation may use what
    the invariant says of it. *)
Lemma keeps_bind_get {B} (I : S -> Prop) (k : S -> M S B) :
  (forall s, I s -> I (k s s).2 ) -> keeps I (bind get k).
Proof.
  intros Hk s Hs. unfold bind, get. specialize (Hk s Hs).
  by destruct (k s s) as [[b|e] s'].
Qed.

Lemma keeps_run {A} (I : S -> Prop) (m : M S A) s : keeps I m -> I s -> I (m s).2.
Proof. intros Hm Hs. specialize (Hm s Hs). by destruct (m s) as [[a|e] s']. Qed.

Lemma keeps_catch_attribute_error {A} (I : S -> Prop) (m h : M S A) :
  keeps I m -> keeps I h -> keeps I (catch_attribute_error m h).
Proof.
  intros Hm Hh s Hs. unfold catch_attribute_error. specialize (Hm s Hs).
  destruct (m s) as [[a|[]] s']; try exact Hm. by apply Hh.
Qed.

Lemma keeps_reraise_http {A} (I : S -> Prop) (m : M S A) :
  keeps I m -> keeps I (reraise_http m).
Proof.
  intros Hm s Hs. unfold reraise_http. specialize (Hm s Hs).
  destruct (m s) as [[a|[]] s']; exact Hm.
Qed.

Lemma keeps_for_each {A} (I : S -> Prop) (l : list A) (g : A -> M S unit) :
  (forall a, keeps I (g a)) -> keeps I (for_each l g).
Proof.
  intros Hg. induction l as [|a l IH]; cbn [for_each].
  - apply keeps_ret.
  - apply keeps_bind; [apply Hg | intros _; exact IH].
Qed.

End HoareRules.

(** Split an invariant goal along the structure of the computation. *)
Ltac keeps_step :=
  match goal with
  | |- keeps _ (bind get _) => fail 1
  | |- keeps _ (bind _ _) => apply keeps_bind; [|intros ?]
  | |- keeps _ (ret _) => apply keeps_ret
  | |- keeps _ (raise _) => apply keeps_raise
  | |- keeps _ get => apply keeps_get
  | |- keeps _ (catch_attribute_error _ _) => apply keeps_catch_attribute_error
  | |- keeps _ (reraise_http _) => apply keeps_reraise_http
  | |- keeps _ (for_each _ _) => apply keeps_for_each; intros ?
  | |- keeps _ (if ?b then _ else _) => destruct b
  | |- keeps _ (match ?x with _ => _ end) => destruct x
  end.

(** * Sorting by name *)

#[local] Instance by_name_trans : Transitive by_name.
Proof. intros x y z. unfold by_name. apply transitivity. Qed.

Lemma by_name_total x y : by_name x y \/ by_name y x.
Proof. unfold by_name. apply (total String.le). Qed.

Lemma named_name_leb x y :
  named x -> named y ->
  name_leb (name_of x) (name_of y) = String.leb (bundle_name x) (bundle_name y).
Proof.
  intros [n Hn] [n' Hn']. unfold name_of, bundle_name. by rewrite Hn, Hn'.
Qed.

Lemma by_name_leb x y :
  named x -> named y ->
  by_name x y <-> name_leb (name_of x) (name_of y) = true.
Proof.
  intros Hx Hy. rewrite (named_name_leb x y Hx Hy).
  unfold by_name, String.le. apply Is_true_true.
Qed.

Lemma insert_by_name_perm x l : insert_by_name x l ≡ₚ x :: l.
Proof.
  induction l as [|y l IH]; [reflexivity|]. cbn [insert_by_name].
  destruct (name_leb _ _); [reflexivity|].
  rewrite IH. apply Permutation_swap.
Qed.

(** The insertion sort permutes its input. *)
Lemma isort_perm l : foldr insert_by_name [] l ≡ₚ l.
Proof.
  induction l as [|x l IH]; [reflexivity|].
  cbn [foldr]. rewrite insert_by_name_perm. by rewrite IH.
Qed.

Lemma insert_by_name_sorted x l :
  named x -> Forall named l ->
  Sorted by_name l -> Sorted by_name (insert_by_name x l).
Proof.
  intros Hx Hn Hs. induction Hs as [|y l Hl IH Hy]; cbn [insert_by_name].
  - by repeat constructor.
  - apply Forall_cons in Hn as [Hny Hn].
    destruct (name_leb (name_of x) (name_of y)) eqn:E.
    + constructor; [by constructor|]. constructor. by apply by_name_leb.
    + assert (by_name y x) as Hyx.
      { destruct (by_name_total x y) as [H|H]; [|exact H].
        apply by_name_leb in H; [congruence|done..]. }
      constructor; [by apply IH|].
      destruct Hy as [|z l Hz]; cbn [insert_by_name].
      * by constructor.
      * destruct (name_leb (name_of x) (name_of z)); by constructor.
Qed.

(** On entries whose names are strings the insertion sort yields a list in
    the order of the names. *)
Lemma isort_sorted l : Forall named l -> Sorted by_name (foldr insert_by_name [] l).
Proof.
  induction 1 as [|x l Hx Hl IH]; [constructor|].
  cbn [foldr]. apply insert_by_name_sorted; [exact Hx | | exact IH].
  by rewrite isort_perm.
Qed.

(** It leaves a list in the order of the names as it is. *)
Lemma isort_of_sorted l :
  Forall named l -> Sorted by_name l -> foldr insert_by_name [] l = l.
Proof.
  intros Hn Hs. induction Hs as [|x l Hl IH Hx]; [reflexivity|].
  apply Forall_cons in Hn as [Hnx Hn]. cbn [foldr]. rewrite IH by exact Hn.
  destruct Hx as [|y l Hy]; [reflexivity|]. cbn [insert_by_name].
  apply Forall_cons in Hn as [Hny _].
  apply by_name_leb in Hy; [|done..]. by rewrite Hy.
Qed.

(** [sorted] returns on entries whose names are strings. *)
Lemma sorted_by_name_named l :
  Forall named l -> sorted_by_name l = Ok (foldr insert_by_name [] l).
Proof.
  intros Hn. unfold sorted_by_name, orderable.
  assert (forallb (fun x : dict => bool_decide (is_Some (x !! "name"))) l = true) as ->.
  { apply forallb_forall. intros x Hx%list_elem_of_In.
    destruct (proj1 (Forall_forall _ _) Hn x Hx) as [n E].
    apply bool_decide_eq_true_2. eauto. }
  assert (forallb is_str (map name_of l) = true) as ->.
  { apply forallb_forall. intros c Hc%in_map_iff. destruct Hc as (x & <- & Hx%list_elem_of_In).
    destruct (proj1 (Forall_forall _ _) Hn x Hx) as [n E].
    unfold name_of. by rewrite E. }
  by rewrite orb_true_r.
Qed.

(** * Name translation of the parameter container *)

(** [update] stores the value of a name under the name the API map gives
    it, as long as no other stored name is mapped to the same one. *)
Lemma update_lookup (amap : gmap string string) (params self : values) (k : string) :
  (forall k', is_Some (params !! k') -> map_key amap k' = map_key amap k -> k' = k) ->
  update amap params self !! map_key amap k =
    match params !! k with
    | Some v => Some v
    | None => self !! map_key amap k
    end.
Proof.
  unfold update.
  apply (map_fold_weak_ind
           (fun r (p : values) =>
              (forall k', is_Some (p !! k') -> map_key amap k' = map_key amap k -> k' = k) ->
              r !! map_key amap k =
                match p !! k with Some v => Some v | None => self !! map_key amap k end)).
  - intros _. by rewrite lookup_empty.
  - intros i x p r Hi IH Hk.
    destruct (decide (i = k)) as [->|Hne].
    + by rewrite !lookup_insert_eq.
    + assert (map_key amap i <> map_key amap k) as Hm.
      { intros E. apply Hne, Hk; [|exact E]. rewrite lookup_insert_eq. eauto. }
      rewrite !lookup_insert_ne by done. apply IH.
      intros k' Hk' E. apply Hk; [|exact E].
      apply lookup_insert_is_Some'. by right.
Qed.

Lemma getv_init (amap : gmap string string) (params : values) (k : string) :
  (forall k', is_Some (params !! k') -> map_key amap k' = map_key amap k -> k' = k) ->
  map_key amap k <> "__warnings" ->
  getv (init amap params) (map_key amap k) = getv params k.
Proof.
  intros Hk Hw. unfold getv, init. rewrite update_lookup by exact Hk.
  destruct (params !! k); [reflexivity|].
  by rewrite lookup_singleton_ne by congruence.
Qed.

Lemma pyeq_refl (v : pyval) : pyeq v v = true.
Proof.
  unfold pyeq. destruct (num_of v); [apply Z.eqb_refl | by apply bool_decide_eq_true_2].
Qed.

Lemma is_none_true (v : pyval) : is_none v = true -> v = PNone.
Proof. by destruct v. Qed.

Lemma getv_keep (p : values) (k : string) (v : pyval) :
  p !! k = keep v -> getv p k = v.
Proof.
  unfold getv, keep. intros ->. by destruct (decide (v = PNone)) as [->|].
Qed.

(** * More on the client SSL module *)
Module ClientSSLMore.
Import ClientSSL ClientSSLProps.

(** ** Check mode writes nothing *)

(** An invariant of the manager that does not look at the parameter
    objects nor at the notices, and that read-only device calls keep, is
    kept by every method that only reads the device. *)
Section ReadInvariant.
Variable I : manager -> Prop.
Hypothesis I_want : forall w s, I s -> I (set_want w s).
Hypothesis I_have : forall h s, I s -> I (set_have h s).
Hypothesis I_changes : forall c s, I s -> I (set_changes c s).
Hypothesis I_deprecate : forall msg v s, I s -> I (deprecate msg v s).
Hypothesis I_log : forall c s, mutating c = false -> I s -> I (log_call c s).

Lemma keeps_on_want {A} (g : M values A) : keeps I (on_want g).
Proof.
  intros s Hs. unfold on_want. destruct (g (want s)) as [[a|e] w]; by apply I_want.
Qed.

Lemma keeps_on_have {A} (g : M values A) : keeps I (on_have g).
Proof.
  intros s Hs. unfold on_have. destruct (g (have s)) as [[a|e] w]; by apply I_have.
Qed.

Lemma keeps_exists : keeps I exists_.
Proof.
  unfold exists_, sdk_exists. apply keeps_bind_get. intros s Hs.
  cbv beta iota zeta delta [bind modify ret]. cbn [snd]. by apply I_log.
Qed.

Lemma keeps_sdk_load : keeps I sdk_load.
Proof.
  unfold sdk_load. apply keeps_bind_get. intros s Hs.
  cbv beta iota zeta delta [bind modify ret raise].
  destruct (device s); cbn [snd]; by apply I_log.
Qed.

Lemma keeps_compare k : keeps I (Difference.compare k).
Proof.
  unfold Difference.compare, Difference.getattr, Difference.parent,
    Difference.cert_key_chain, Difference.__default,
    Difference._diff_complex_items, Difference.to_tuple.
  repeat first [ apply keeps_on_want | apply keeps_on_have | keeps_step ].
Qed.

Lemma keeps_changed_loop ks acc : keeps I (changed_loop ks acc).
Proof.
  revert acc. induction ks as [|k ks IH]; intros acc; cbn [changed_loop].
  - apply keeps_ret.
  - apply keeps_bind; [apply keeps_compare|]. intros c. destruct (is_none c); apply IH.
Qed.

Lemma keeps_set_changed_loop ks acc : keeps I (set_changed_loop ks acc).
Proof.
  revert acc. induction ks as [|k ks IH]; intros acc; cbn [set_changed_loop].
  - apply keeps_ret.
  - apply keeps_bind; [apply keeps_on_want|]. intros v.
    destruct (negb (is_none v)); [|apply IH].
    apply keeps_bind; [apply keeps_on_want|]. intros v'. apply IH.
Qed.

Lemma keeps_announce result : keeps I (_announce_deprecations result).
Proof.
  unfold _announce_deprecations, item_get.
  repeat first
    [ apply keeps_modify; intros s Hs; by apply I_deprecate | keeps_step ].
Qed.

Lemma keeps_set_changed_options : keeps I _set_changed_options.
Proof.
  unfold _set_changed_options. pose proof keeps_set_changed_loop.
  repeat first
    [ apply keeps_modify; intros s Hs; by apply I_changes | keeps_step ]; auto.
Qed.

Lemma keeps_should_update : keeps I should_update.
Proof.
  unfold should_update, _update_changed_options. pose proof keeps_changed_loop.
  repeat first
    [ apply keeps_modify; intros s Hs; by apply I_changes | keeps_step ]; auto.
Qed.

Lemma keeps_read_current : keeps I read_current_from_device.
Proof. unfold read_current_from_device. pose proof keeps_sdk_load. repeat keeps_step; auto. Qed.

(** The methods that may write keep the invariant as soon as the three
    device writers do. *)
Lemma keeps_exec_module_if :
  keeps I update_on_device -> keeps I create_on_device -> keeps I remove_from_device ->
  keeps I exec_module.
Proof.
  intros Hu Hc Hr.
  assert (keeps I update_) as Hupdate.
  { unfold update_.
    apply keeps_bind; [apply keeps_read_current | intros h].
    apply keeps_bind; [apply keeps_modify; intros s Hs; by apply I_have | intros _].
    apply keeps_bind; [apply keeps_should_update | intros u].
    destruct (negb u); [apply keeps_ret|].
    apply keeps_bind; [apply keeps_get | intros s].
    destruct (check_mode s); [apply keeps_ret|].
    apply keeps_bind; [exact Hu | intros _; apply keeps_ret]. }
  assert (keeps I create) as Hcreate.
  { unfold create.
    apply keeps_bind; [apply keeps_set_changed_options | intros _].
    apply keeps_bind; [apply keeps_on_want | intros ciphers].
    apply keeps_bind.
    { destruct (is_none ciphers); [apply keeps_on_want | apply keeps_ret]. }
    intros _. apply keeps_bind; [apply keeps_get | intros s].
    destruct (check_mode s); [apply keeps_ret|].
    apply keeps_bind; [exact Hc | intros _; apply keeps_ret]. }
  assert (keeps I remove) as Hremove.
  { unfold remove.
    apply keeps_bind; [apply keeps_get | intros s].
    destruct (check_mode s); [apply keeps_ret|].
    apply keeps_bind; [exact Hr | intros _].
    apply keeps_bind; [apply keeps_exists | intros e].
    destruct e; [apply keeps_raise | apply keeps_ret]. }
  unfold exec_module.
  apply keeps_bind; [apply keeps_on_want | intros state].
  apply keeps_bind.
  { apply keeps_reraise_http.
    destruct (pyeq state (PStr "present")).
    - unfold present. apply keeps_bind; [apply keeps_exists | intros e].
      by destruct e.
    - destruct (pyeq state (PStr "absent")); [|apply keeps_ret].
      unfold absent. apply keeps_bind; [apply keeps_exists | intros e].
      destruct e; [exact Hremove | apply keeps_ret]. }
  intros changed. apply keeps_bind; [apply keeps_get | intros s].
  apply keeps_announce.
Qed.

End ReadInvariant.

Section CheckModeInvariant.
Variable I : manager -> Prop.
Hypothesis I_want : forall w s, I s -> I (set_want w s).
Hypothesis I_have : forall h s, I s -> I (set_have h s).
Hypothesis I_changes : forall c s, I s -> I (set_changes c s).
Hypothesis I_deprecate : forall msg v s, I s -> I (deprecate msg v s).
Hypothesis I_log : forall c s, mutating c = false -> I s -> I (log_call c s).
Hypothesis I_check : forall s, I s -> check_mode s = true.

Lemma keeps_update : keeps I update_.
Proof.
  unfold update_.
  pose proof (keeps_read_current I I_log).
  pose proof (keeps_should_update I I_want I_have I_changes).
  repeat first
    [ apply keeps_bind_get; intros s Hs; rewrite (I_check s Hs); exact Hs
    | apply keeps_modify; intros s Hs; by apply I_have
    | keeps_step ]; auto.
Qed.

Lemma keeps_create : keeps I create.
Proof.
  unfold create.
  pose proof (keeps_set_changed_options I I_want I_changes).
  repeat first
    [ apply keeps_bind_get; intros s Hs; rewrite (I_check s Hs); exact Hs
    | apply (keeps_on_want I I_want)
    | keeps_step ]; auto.
Qed.

Lemma keeps_remove : keeps I remove.
Proof.
  unfold remove. apply keeps_bind_get. intros s Hs. by rewrite (I_check s Hs).
Qed.

Lemma keeps_exec_module : keeps I exec_module.
Proof.
  unfold exec_module.
  apply keeps_bind; [apply (keeps_on_want I I_want) | intros state].
  apply keeps_bind.
  { apply keeps_reraise_http.
    destruct (pyeq state (PStr "present")).
    - unfold present. apply keeps_bind; [apply (keeps_exists I I_log) | intros e].
      destruct e; [apply keeps_update | apply keeps_create].
    - destruct (pyeq state (PStr "absent")); [|apply keeps_ret].
      unfold absent. apply keeps_bind; [apply (keeps_exists I I_log) | intros e].
      destruct e; [apply keeps_remove | apply keeps_ret]. }
  intros changed. apply keeps_bind; [apply keeps_get | intros s].
  apply (keeps_announce I I_deprecate).
Qed.

End CheckModeInvariant.

Lemma dry_start m : check_mode m = true -> dry (device m) (calls m) m.
Proof.
  intros Hc. split; [exact Hc|]. split; [reflexivity|].
  exists []. split; [by rewrite app_nil_r | constructor].
Qed.

Lemma dry_log d c0 c s : mutating c = false -> dry d c0 s -> dry d c0 (log_call c s).
Proof.
  intros Hc (Hchk & Hd & new & Hn & Hall). split; [exact Hchk|]. split; [exact Hd|].
  exists (new ++ [c])%list. cbn [calls log_call]. rewrite Hn. split; [by rewrite app_assoc|].
  apply Forall_app. split; [exact Hall | by repeat constructor].
Qed.

(** X1: in check mode no run of the client SSL module writes to the
    device, whatever the parameters and whatever the device holds, and
    whether the run returns or raises: the device is as it was, and every
    call issued is an existence check or a load. *)
Theorem check_mode_never_writes (m : manager) :
  check_mode m = true ->
  device (exec_module m).2 = device m /\
  exists new, calls (exec_module m).2 = (calls m ++ new)%list /\
              Forall (fun c => mutating c = false) new.
Proof.
  intros Hc.
  assert (dry (device m) (calls m) (exec_module m).2) as (_ & Hd & Hnew).
  { apply keeps_run; [|by apply dry_start].
    apply keeps_exec_module; try (intros; assumption).
    - intros; by apply dry_log.
    - by intros s [? _]. }
  split; [exact Hd | exact Hnew].
Qed.

Lemma check_mode_never_writes_witness :
  device (exec_module (new_manager key_only_params true (Some example_device))).2
    = Some example_device /\
  exists new,
    calls (exec_module (new_manager key_only_params true (Some example_device))).2
      = ([] ++ new)%list /\
    Forall (fun c => mutating c = false) new.
Proof.
  apply (check_mode_never_writes (new_manager key_only_params true (Some example_device))).
  reflexivity.
Defined.

(** ** What is sent to the device *)

Lemma api_params_loop_keys g amap attrs acc w p k :
  (api_params_loop g amap attrs acc w).1 = Ok p -> is_Some (p !! k) ->
  k ∈ attrs \/ is_Some (acc !! k).
Proof.
  revert acc w. induction attrs as [|a attrs IH]; intros acc w Hp Hk.
  - cbn [api_params_loop ret fst] in Hp. apply Ok_inj in Hp. subst p. by right.
  - cbn [api_params_loop] in Hp. apply bind_Ok_inv in Hp as (v & w' & _ & Hp).
    destruct (IH _ _ Hp Hk) as [Hin|Hacc]; [left; apply elem_of_cons; by right|].
    destruct (decide (k = a)) as [->|Hne]; [left; apply elem_of_cons; by left|].
    right. by rewrite lookup_insert_ne in Hacc.
Qed.

(** [api_params] yields API attributes that carry a value, and nothing
    else, whatever the object it is called on. *)
Lemma api_params_good g w p :
  (api_params g api_map api_attributes w).1 = Ok p -> good_payload p.
Proof.
  unfold api_params. intros Hp.
  apply bind_Ok_inv in Hp as (raw & w' & Hraw & Hp).
  cbn [ret fst] in Hp. apply Ok_inj in Hp. subst p. intros k v Hk.
  rewrite filter_params_lookup in Hk.
  destruct (raw !! k) as [x|] eqn:Ex; [|discriminate]. cbn in Hk.
  unfold keep in Hk. destruct (decide (x = PNone)); [discriminate|].
  apply (inj Some) in Hk. subst x. split; [|done].
  assert ((api_params_loop g api_map api_attributes ∅ w).1 = Ok raw) as Hl
    by (by rewrite Hraw).
  destruct (api_params_loop_keys _ _ _ _ _ _ k Hl) as [Hin|[? Hacc]]; [by eauto|done|].
  by rewrite lookup_empty in Hacc.
Qed.

Lemma payloads_good_log c s : good_call c -> payloads_good s -> payloads_good (log_call c s).
Proof.
  intros Hc Hs. unfold payloads_good. cbn [calls log_call].
  apply Forall_app. split; [exact Hs | by repeat constructor].
Qed.

Lemma payloads_good_read c s :
  mutating c = false -> payloads_good s -> payloads_good (log_call c s).
Proof. intros Hc. apply payloads_good_log. by destruct c. Qed.

Lemma keeps_update_on_device : keeps payloads_good update_on_device.
Proof.
  intros s Hs. unfold update_on_device, bind at 1, on_changes.
  destruct (api_params base_getattr api_map api_attributes (changes s)) as [[p|e] c] eqn:E;
    [|exact Hs].
  assert (good_payload p) as Hp by (apply (api_params_good base_getattr (changes s)); by rewrite E).
  unfold sdk_load, sdk_modify. mstep.
  destruct (device s); cbn [fst snd].
  - apply payloads_good_log; [exact Hp|]. by apply payloads_good_read.
  - by apply payloads_good_read.
Qed.

Lemma keeps_create_on_device : keeps payloads_good create_on_device.
Proof.
  intros s Hs. unfold create_on_device, bind at 1, on_want.
  destruct (api_params ModuleParameters.getattr api_map api_attributes (want s))
    as [[p|e] w] eqn:E; [|exact Hs].
  assert (good_payload p) as Hp
    by (apply (api_params_good ModuleParameters.getattr (want s)); by rewrite E).
  unfold sdk_create. mstep. by apply payloads_good_log.
Qed.

Lemma keeps_remove_from_device : keeps payloads_good remove_from_device.
Proof.
  intros s Hs. unfold remove_from_device, sdk_load, sdk_delete. mstep.
  destruct (device s); cbn [fst snd].
  - apply payloads_good_log; [exact I|]. by apply payloads_good_read.
  - by apply payloads_good_read.
Qed.

(** X2: whatever a run sends to the device, in a create or in a modify
    call, holds API attributes only ([ciphers], [certKeyChain],
    [ocspStapling]), each with a value: no field that is [None] and no
    field of another name is ever sent. *)
Theorem payloads_hold_api_attributes_only (m : manager) :
  payloads_good m -> payloads_good (exec_module m).2.
Proof.
  intros Hm. apply keeps_run; [|exact Hm].
  apply keeps_exec_module_if; try (intros; assumption).
  - intros. by apply payloads_good_read.
  - apply keeps_update_on_device.
  - apply keeps_create_on_device.
  - apply keeps_remove_from_device.
Qed.

Lemma payloads_hold_api_attributes_only_witness :
  payloads_good (exec_module (new_manager parent_params false None)).2.
Proof.
  apply (payloads_hold_api_attributes_only (new_manager parent_params false None)).
  constructor.
Defined.

(** ** The life cycle *)

(** A run, by its [state]. *)
Lemma exec_module_run m :
  exec_module m =
    match (if pyeq (getv (want m) "state") (PStr "present") then present
           else if pyeq (getv (want m) "state") (PStr "absent") then absent
           else ret false) m with
    | (Ok changed, s) => (Ok (assemble changed s), s)
    | (Raise (iControlUnexpectedHTTPError msg), s) => (Raise (F5ModuleError msg), s)
    | (Raise e, s) => (Raise e, s)
    end.
Proof.
  unfold exec_module.
  rewrite (bind_ok _ _ _ _ _ (on_want_plain "state" m ltac:(discriminate) ltac:(discriminate))).
  unfold bind at 1. unfold reraise_http.
  destruct ((if pyeq (getv (want m) "state") (PStr "present") then present
             else if pyeq (getv (want m) "state") (PStr "absent") then absent
             else ret false) m) as [[changed|e] s].
  - mstep. rewrite clientssl_announce_nothing by apply clientssl_result_has_no_warnings.
    reflexivity.
  - destruct e; reflexivity.
Qed.

Lemma exec_module_absent m :
  getv (want m) "state" = PStr "absent" ->
  exec_module m =
    match absent m with
    | (Ok changed, s) => (Ok (assemble changed s), s)
    | (Raise (iControlUnexpectedHTTPError msg), s) => (Raise (F5ModuleError msg), s)
    | (Raise e, s) => (Raise e, s)
    end.
Proof.
  intros Hs. rewrite exec_module_run, Hs.
  replace (pyeq (PStr "absent") (PStr "present")) with false by reflexivity.
  replace (pyeq (PStr "absent") (PStr "absent")) with true by reflexivity.
  reflexivity.
Qed.

(** X3: [state: absent] for a profile the device does not have changes
    nothing: the run reports [changed = false] after the existence check,
    its only device call. *)
Theorem absent_on_missing_profile_is_a_noop (m : manager) :
  getv (want m) "state" = PStr "absent" ->
  device m = None ->
  (exists result, (exec_module m).1 = Ok result /\
                  result !! "changed" = Some (PBool false)) /\
  calls (exec_module m).2 =
    (calls m ++ [ Exists (getv (want m) "name") (partition (want m)) ])%list /\
  device (exec_module m).2 = None.
Proof.
  intros Hs Hd. rewrite (exec_module_absent m Hs).
  unfold absent. rewrite (bind_ok _ _ _ _ _ (exists_run m)). rewrite Hd.
  replace (bool_decide (is_Some (@None values))) with false by reflexivity.
  unfold ret. cbn [fst snd calls device log_call].
  split; [|split; [reflexivity | exact Hd]].
  eexists. split; [reflexivity | apply assemble_changed].
Qed.

Lemma absent_on_missing_profile_is_a_noop_witness :
  calls (exec_module (new_manager (<["state" := PStr "absent"]> example_params) false None)).2
    = [ Exists (PStr "my_profile") "Common" ].
Proof.
  refine (proj1 (proj2 (absent_on_missing_profile_is_a_noop
            (new_manager (<["state" := PStr "absent"]> example_params) false None) _ _))).
  - vm_compute. reflexivity.
  - reflexivity.
Defined.

(** X4: outside check mode, [state: absent] for a profile the device has
    loads it, deletes it and checks that it is gone: the run reports
    [changed = true] and the device has no profile left. *)
Theorem absent_deletes_an_existing_profile (m : manager) (attrs : values) :
  getv (want m) "state" = PStr "absent" ->
  device m = Some attrs ->
  check_mode m = false ->
  (exists result, (exec_module m).1 = Ok result /\
                  result !! "changed" = Some (PBool true)) /\
  calls (exec_module m).2 =
    (calls m ++ [ Exists (getv (want m) "name") (partition (want m));
                  Load (getv (want m) "name") (partition (want m));
                  Delete;
                  Exists (getv (want m) "name") (partition (want m)) ])%list /\
  device (exec_module m).2 = None.
Proof.
  intros Hs Hd Hc. rewrite (exec_module_absent m Hs).
  unfold absent. rewrite (bind_ok _ _ _ _ _ (exists_run m)). rewrite Hd.
  replace (bool_decide (is_Some (Some attrs))) with true by reflexivity.
  unfold remove, remove_from_device, sdk_load, sdk_delete, exists_, sdk_exists.
  mstep. rewrite Hc. mstep. rewrite Hd. mstep.
  replace (bool_decide (is_Some (@None values))) with false by reflexivity.
  cbn [fst snd calls device log_call set_device].
  split; [|split; [by rewrite <- !app_assoc | reflexivity]].
  eexists. split; [reflexivity | apply assemble_changed].
Qed.

Lemma absent_deletes_an_existing_profile_witness :
  device (exec_module
            (new_manager (<["state" := PStr "absent"]> example_params) false
               (Some example_device))).2 = None.
Proof.
  refine (proj2 (proj2 (absent_deletes_an_existing_profile
            (new_manager (<["state" := PStr "absent"]> example_params) false
               (Some example_device)) example_device _ _ _))).
  - vm_compute. reflexivity.
  - reflexivity.
  - reflexivity.
Defined.

(** X5: in check mode, [state: present] for a profile the device does not
    have reports [changed = true] after the existence check, its only
    device call: nothing is created, and the desired parameters are left
    with the default cipher list stored when none was given. *)
Theorem check_mode_create_reports_changed (m : manager) :
  getv (want m) "state" = PStr "present" ->
  device m = None ->
  check_mode m = true ->
  (exists result, (exec_module m).1 = Ok result /\
                  result !! "changed" = Some (PBool true)) /\
  calls (exec_module m).2 =
    (calls m ++ [ Exists (getv (want m) "name") (partition (want m)) ])%list /\
  device (exec_module m).2 = None /\
  want (exec_module m).2 = with_default_ciphers (want m).
Proof.
  intros Hs Hd Hchk.
  rewrite (exec_module_present m Hs), (present_missing m Hd).
  destruct (create_run (log_call (Exists (getv (want m) "name") (partition (want m))) m))
    as [c ->].
  cbn [want check_mode log_call]. rewrite Hchk. cbv zeta.
  cbn [fst snd calls device want set_want set_changes log_call].
  split; [|split; [reflexivity | split; [exact Hd | reflexivity]]].
  eexists. split; [reflexivity | apply assemble_changed].
Qed.

Lemma check_mode_create_reports_changed_witness :
  calls (exec_module (new_manager example_params true None)).2
    = [ Exists (PStr "my_profile") "Common" ].
Proof.
  refine (proj1 (proj2 (check_mode_create_reports_changed
            (new_manager example_params true None) _ _ _))).
  - vm_compute. reflexivity.
  - reflexivity.
  - reflexivity.
Defined.

(** The payload of the recorded changes: the fields of a change set under
    their API names. *)
Lemma changes_api_params_run changed w h :
  change_set w h = Ok changed ->
  exists payload,
    api_params base_getattr api_map api_attributes (init api_map changed)
      = (Ok payload, init api_map changed) /\
    good_payload payload /\
    forall a, a ∈ api_attributes -> payload !! a = changed !! map_key api_map a.
Proof.
  intros Hc.
  assert (forall k, k ∈ updatables ->
            keep (getv (init api_map changed) k) = changed !! k) as Hk.
  { intros k Hk. rewrite getv_init_no_remap.
    - apply keep_getv. intros v Hv. by destruct (change_set_entries _ _ _ _ _ Hc Hv).
    - intros k' [v' Hv']. apply updatable_not_remapped.
      by destruct (change_set_entries _ _ _ _ _ Hc Hv').
    - intros ->. unfold updatables in Hk.
      repeat (apply elem_of_cons in Hk as [Hk|Hk]; [discriminate|]).
      by apply elem_of_nil in Hk. }
  eexists. split; [|split].
  - unfold api_params, api_attributes. cbn [api_params_loop].
    rewrite map_key_ciphers, map_key_certKeyChain, map_key_ocspStapling.
    unfold base_getattr. cbv beta iota zeta delta [bind ret]. reflexivity.
  - apply (api_params_good base_getattr (init api_map changed)).
    unfold api_params, api_attributes. cbn [api_params_loop].
    unfold base_getattr. cbv beta iota zeta delta [bind ret]. reflexivity.
  - intros a Ha. unfold api_attributes in Ha. rewrite filter_params_lookup.
    apply elem_of_cons in Ha as [->|Ha]; [|apply elem_of_cons in Ha as [->|Ha];
      [|apply elem_of_cons in Ha as [->|Ha]; [|by apply elem_of_nil in Ha]]].
    + rewrite !lookup_insert_ne by discriminate. rewrite lookup_insert_eq.
      rewrite map_key_ciphers. cbn. apply Hk. unfold updatables. set_solver.
    + rewrite lookup_insert_ne by discriminate. rewrite lookup_insert_eq.
      rewrite map_key_certKeyChain. cbn. apply Hk. unfold updatables. set_solver.
    + rewrite lookup_insert_eq.
      rewrite map_key_ocspStapling. cbn. apply Hk. unfold updatables. set_solver.
Qed.

(** X6: outside check mode, a [present] run that finds a non-empty change
    set for a profile the device has sends the change set and nothing else:
    after the existence check and two loads, one modify call whose payload
    holds, under its API name, each changed field; the device stores the
    payload over its attributes, and the run reports [changed = true]. *)
Theorem update_sends_the_change_set (m : manager) (attrs changed : values) :
  getv (want m) "state" = PStr "present" ->
  check_mode m = false ->
  device m = Some attrs ->
  change_set (want m) (init api_map attrs) = Ok changed ->
  changed <> ∅ ->
  exists payload,
    good_payload payload /\
    (forall a, a ∈ api_attributes -> payload !! a = changed !! map_key api_map a) /\
    calls (exec_module m).2 =
      (calls m ++ [ Exists (getv (want m) "name") (partition (want m));
                    Load (getv (want m) "name") (partition (want m));
                    Load (getv (want m) "name") (partition (want m));
                    Modify payload ])%list /\
    device (exec_module m).2 = Some (payload ∪ attrs) /\
    exists result, (exec_module m).1 = Ok result /\
                   result !! "changed" = Some (PBool true).
Proof.
  intros Hs Hchk Hd Hc Hne.
  destruct (changes_api_params_run changed _ _ Hc) as (payload & Ep & Hgood & Hpay).
  exists payload. split; [exact Hgood|]. split; [exact Hpay|].
  rewrite (exec_module_present m Hs), (present_existing m attrs Hd).
  rewrite (update_run _ attrs) by exact Hd.
  cbn [want log_call check_mode]. rewrite Hc, Hchk.
  rewrite bool_decide_eq_false_2 by exact Hne. cbv zeta.
  unfold update_on_device, on_changes, sdk_load, sdk_modify. mstep.
  rewrite Ep. mstep. rewrite Hd. mstep.
  cbn [fst snd calls device log_call set_device set_changes set_have].
  rewrite ?Hd. cbn [default].
  split; [by rewrite <- !app_assoc|]. split; [reflexivity|].
  eexists. split; [reflexivity | apply assemble_changed].
Qed.

Lemma update_sends_the_change_set_witness :
  exists payload,
    good_payload payload /\
    (forall a, a ∈ api_attributes ->
       payload !! a = ({[ "ciphers" := PStr "ECDHE" ]} : values) !! map_key api_map a) /\
    calls (exec_module (new_manager cipher_params false (Some example_device))).2 =
      ([] ++ [ Exists (PStr "my_profile") "Common"; Load (PStr "my_profile") "Common";
               Load (PStr "my_profile") "Common"; Modify payload ])%list /\
    device (exec_module (new_manager cipher_params false (Some example_device))).2
      = Some (payload ∪ example_device) /\
    exists result,
      (exec_module (new_manager cipher_params false (Some example_device))).1 = Ok result /\
      result !! "changed" = Some (PBool true).
Proof.
  refine (update_sends_the_change_set
            (new_manager cipher_params false (Some example_device))
            example_device {[ "ciphers" := PStr "ECDHE" ]} _ _ _ _ _).
  - vm_compute. reflexivity.
  - reflexivity.
  - reflexivity.
  - vm_compute. reflexivity.
  - apply map_non_empty_singleton.
Defined.

(** ** The desired bundles *)

Lemma PDicts_inj (l l' : list dict) : PDicts l = PDicts l' -> l = l'.
Proof. intros H. injection H as H. exact H. Qed.

Lemma well_formed_named (l : list dict) : Forall well_formed_bundle l -> Forall named l.
Proof. intros H. eapply Forall_impl; [exact H|]. by intros b [Hn _]. Qed.

(** The example of the specification gives strings. *)
Lemma example_params_plain : plain_bundles (init api_map example_params).
Proof.
  intros items H. vm_compute in H. apply PDicts_inj in H as <-.
  constructor; [|constructor]. intros k v Hk Hv.
  repeat (apply elem_of_cons in Hk as [->|Hk]); [| | |by apply elem_of_nil in Hk];
    vm_compute in Hv; destruct v; try discriminate Hv; eauto.
Qed.

(** An entry that has neither a key nor a certificate passes the two
    checks and fails at the lookup of its key. *)
Lemma bundle_of_item_neither item self :
  has item "key" = false -> has item "cert" = false ->
  ModuleParameters.bundle_of_item item self = (Raise (KeyError "key"), self).
Proof.
  intros Hk Hc. unfold ModuleParameters.bundle_of_item, item_get.
  rewrite Hk, Hc. cbn [negb andb].
  unfold has in Hk. apply bool_decide_eq_false in Hk.
  destruct (item !! "key") eqn:E; [by destruct Hk; eauto | reflexivity].
Qed.

(** What one entry with string values becomes: a well-formed bundle when it
    has a key and a certificate, an error that is no [AttributeError]
    otherwise; the parameters are left as they are. *)
Lemma bundle_of_item_cases item self :
  string_valued item ->
  (exists tmp, ModuleParameters.bundle_of_item item self = (Ok tmp, self) /\
               well_formed_bundle tmp) \/
  (exists e, ModuleParameters.bundle_of_item item self = (Raise e, self) /\
             forall msg, e <> AttributeError msg).
Proof.
  intros Hs. destruct (has item "key") eqn:Hk, (has item "cert") eqn:Hc.
  - left. apply (bundle_of_item_ok item self Hk Hc Hs).
  - right. destruct (bundle_of_item_lone item self) as (msg & _ & E); [congruence|].
    exists (F5ModuleError msg). split; [exact E|]. intros m H. discriminate H.
  - right. destruct (bundle_of_item_lone item self) as (msg & _ & E); [congruence|].
    exists (F5ModuleError msg). split; [exact E|]. intros m H. discriminate H.
  - right. exists (KeyError "key"). split; [by apply bundle_of_item_neither|].
    intros m H. discriminate H.
Qed.

Lemma bundles_loop_cases items acc self :
  Forall string_valued items ->
  (exists new, ModuleParameters.bundles_loop items acc self = (Ok (acc ++ new)%list, self) /\
               length new = length items /\ Forall well_formed_bundle new) \/
  (exists e, ModuleParameters.bundles_loop items acc self = (Raise e, self) /\
             forall msg, e <> AttributeError msg).
Proof.
  intros Hs. revert acc. induction Hs as [|item items Hi _ IH]; intros acc.
  - left. exists []. cbn [ModuleParameters.bundles_loop]. by rewrite app_nil_r.
  - cbn [ModuleParameters.bundles_loop].
    destruct (bundle_of_item_cases item self Hi) as [(tmp & E & Hw)|(e & E & He)].
    + rewrite (bind_ok _ _ _ _ _ E).
      destruct (IH (acc ++ [tmp])%list) as [(new & E' & Hl & Hn)|(e & E' & He)].
      * left. exists (tmp :: new). rewrite E', <- app_assoc. split; [done|]. split.
        -- cbn [length]. by rewrite Hl.
        -- by constructor.
      * right. by exists e.
    + right. exists e. by rewrite (bind_raise _ _ _ _ _ E).
Qed.

(** What reading the desired [cert_key_chain] returns, by the stored
    value, when the entries hold strings. *)
Lemma want_cert_key_chain_run self v :
  plain_bundles self ->
  (ModuleParameters.getattr "cert_key_chain" self).1 = Ok v ->
  match getv self "cert_key_chain" with
  | PNone => v = PNone
  | PDicts items =>
      exists bs, v = PDicts (foldr insert_by_name [] bs) /\ length bs = length items /\
                 Forall well_formed_bundle bs
  | PStr s => s = "" /\ v = PDicts []
  | _ => False
  end.
Proof.
  intros Hp. unfold plain_bundles in Hp.
  change (ModuleParameters.getattr "cert_key_chain")
    with (catch_attribute_error ModuleParameters.cert_key_chain (base_getattr "cert_key_chain")).
  unfold catch_attribute_error, ModuleParameters.cert_key_chain.
  unfold bind at 1. cbn [get].
  destruct (getv self "cert_key_chain") as [| | |s|items].
  - cbn [ret fst]. by intros H%Ok_inj.
  - cbn [raise fst]. discriminate.
  - cbn [raise fst]. discriminate.
  - destruct s; cbn [ret raise fst]; [|discriminate]. by intros H%Ok_inj.
  - destruct (bundles_loop_cases items [] self (Hp items eq_refl))
      as [(new & E & Hl & Hw)|(e & E & He)].
    + cbn [app] in E. rewrite (bind_ok _ _ _ _ _ E).
      rewrite (sorted_by_name_named new (well_formed_named _ Hw)).
      unfold bind, lift. cbn [ret fst]. intros H%Ok_inj. subst v. by exists new.
    + rewrite (bind_raise _ _ _ _ _ E).
      destruct e; cbn [fst]; try discriminate. by destruct (He msg).
Qed.

Lemma well_formed_desired_bundles (self : values) (bs : list dict) :
  plain_bundles self ->
  (ModuleParameters.getattr "cert_key_chain" self).1 = Ok (PDicts bs) ->
  Sorted by_name bs /\ Forall well_formed_bundle bs.
Proof.
  intros Hp H. apply (want_cert_key_chain_run _ _ Hp) in H.
  destruct (getv self "cert_key_chain") as [| | |s|items]; try done.
  - destruct H as [_ H]. apply PDicts_inj in H as ->. split; constructor.
  - destruct H as (bs0 & H & Hl & Hw). apply PDicts_inj in H as ->.
    split; [by apply isort_sorted, well_formed_named | by rewrite isort_perm].
Qed.

(** X7: when the entries the user wrote hold strings for the key, the
    certificate and the chain, the bundles the desired parameters derive
    are in the order of their names, there is one for each entry given, and
    each has a name, fully qualified certificate and key paths that end in
    [.crt] and [.key], a chain that is [none] or a fully qualified [.crt]
    path, and no field besides these and the passphrase. *)
Theorem desired_bundles_are_well_formed (self : values) (bs : list dict) :
  plain_bundles self ->
  (ModuleParameters.getattr "cert_key_chain" self).1 = Ok (PDicts bs) ->
  Sorted by_name bs /\
  Forall well_formed_bundle bs /\
  forall items, getv self "cert_key_chain" = PDicts items -> length bs = length items.
Proof.
  intros Hp H. apply (want_cert_key_chain_run _ _ Hp) in H.
  destruct (getv self "cert_key_chain") as [| | |s|items]; try done.
  - destruct H as [_ H]. apply PDicts_inj in H as ->.
    split; [constructor|]. split; [constructor|]. discriminate.
  - destruct H as (bs0 & H & Hl & Hw). apply PDicts_inj in H as ->.
    split; [by apply isort_sorted, well_formed_named|]. split.
    + by rewrite isort_perm.
    + intros items' Hi. apply PDicts_inj in Hi as <-.
      by rewrite isort_perm.
Qed.

Lemma desired_bundles_are_well_formed_witness :
  Sorted by_name [example_bundle] /\
  Forall well_formed_bundle [example_bundle] /\
  forall items, getv (want (new_manager example_params false None)) "cert_key_chain"
                = PDicts items -> length [example_bundle] = length items.
Proof.
  apply (desired_bundles_are_well_formed (want (new_manager example_params false None))).
  - exact example_params_plain.
  - vm_compute. reflexivity.
Defined.

Lemma bundles_loop_key_error pre item post acc self :
  Forall (fun i => has i "key" = true /\ has i "cert" = true /\ string_valued i) pre ->
  has item "key" = false -> has item "cert" = false ->
  ModuleParameters.bundles_loop (pre ++ item :: post) acc self
    = (Raise (KeyError "key"), self).
Proof.
  intros Hpre Hk Hc. revert acc.
  induction Hpre as [|i pre (Hik & Hic & His) _ IH]; intros acc.
  - cbn [app ModuleParameters.bundles_loop]. apply bind_raise.
    by apply bundle_of_item_neither.
  - destruct (bundle_of_item_ok i self Hik Hic His) as (tmp & E & _).
    cbn [app ModuleParameters.bundles_loop]. rewrite (bind_ok _ _ _ _ _ E). apply IH.
Qed.

(** X8: the validation of the desired bundles looks for a key without a
    certificate and for a certificate without a key only: an entry that has
    neither is not rejected with a message of the module.  When the entries
    before it are complete and hold strings for the key, the certificate
    and the chain, reading the desired [cert_key_chain] ends with the
    [KeyError] of the lookup [item['key']], the parameters left as they
    were. *)
Theorem entry_without_key_and_cert_raises_key_error
    (self : values) (pre post : list dict) (item : dict) :
  getv self "cert_key_chain" = PDicts (pre ++ item :: post) ->
  Forall (fun i => has i "key" = true /\ has i "cert" = true /\ string_valued i) pre ->
  has item "key" = false -> has item "cert" = false ->
  ModuleParameters.getattr "cert_key_chain" self = (Raise (KeyError "key"), self).
Proof.
  intros Hv Hpre Hk Hc.
  change (ModuleParameters.getattr "cert_key_chain")
    with (catch_attribute_error ModuleParameters.cert_key_chain (base_getattr "cert_key_chain")).
  unfold catch_attribute_error, ModuleParameters.cert_key_chain.
  unfold bind at 1. cbn [get]. rewrite Hv.
  by rewrite (bind_raise _ _ _ _ _ (bundles_loop_key_error pre item post [] self Hpre Hk Hc)).
Qed.

Lemma entry_without_key_and_cert_raises_key_error_witness :
  ModuleParameters.getattr "cert_key_chain"
      ({[ "cert_key_chain" := PDicts [ {[ "chain" := CStr "ca" ]} ] ]} : values)
    = (Raise (KeyError "key"),
       ({[ "cert_key_chain" := PDicts [ {[ "chain" := CStr "ca" ]} ] ]} : values)).
Proof.
  refine (entry_without_key_and_cert_raises_key_error
            {[ "cert_key_chain" := PDicts [ {[ "chain" := CStr "ca" ]} ] ]}
            [] [] {[ "chain" := CStr "ca" ]} _ _ _ _).
  - vm_compute. reflexivity.
  - constructor.
  - vm_compute. reflexivity.
  - vm_compute. reflexivity.
Defined.

(** ** The fallback to the raw list *)

(** A complete entry one of whose key, certificate and chain is no string:
    a string method is called on it. *)
Lemma bundle_of_item_unreadable item self :
  has item "key" = true -> has item "cert" = true -> ~ string_valued item ->
  exists msg, ModuleParameters.bundle_of_item item self = (Raise (AttributeError msg), self).
Proof.
  intros Hk Hc Hn. destruct (has_true _ _ Hk) as [k Ek], (has_true _ _ Hc) as [c Ec].
  unfold ModuleParameters.bundle_of_item, item_get.
  rewrite Hk, Hc, Ek, Ec. cbn [negb andb].
  unfold bind at 1. cbn [ret].
  destruct k as [|z|ks]; [by eexists | by eexists |].
  rewrite (bind_ok _ _ _ _ _ (key_filename_str ks self)).
  unfold bind at 1. cbn [ret].
  destruct c as [|z|cs]; [by eexists | by eexists |].
  rewrite (bind_ok _ _ _ _ _ (cert_filename_str cs self)).
  unfold ModuleParameters._get_chain_value, has, item_get.
  destruct (item !! "chain") as [[|z|ch]|] eqn:Ech.
  - rewrite bool_decide_eq_true_2 by eauto.
    rewrite bool_decide_eq_false_2 by discriminate. by eexists.
  - rewrite bool_decide_eq_true_2 by eauto.
    rewrite bool_decide_eq_false_2 by discriminate. by eexists.
  - destruct Hn. intros x v Hx Hv.
    repeat (apply elem_of_cons in Hx as [->|Hx]); [| | |by apply elem_of_nil in Hx];
      rewrite ?Ek, ?Ec, ?Ech in Hv; apply (inj Some) in Hv as <-; eauto.
  - destruct Hn. intros x v Hx Hv.
    repeat (apply elem_of_cons in Hx as [->|Hx]); [| | |by apply elem_of_nil in Hx];
      rewrite ?Ek, ?Ec, ?Ech in Hv; [| |discriminate Hv];
      apply (inj Some) in Hv as <-; eauto.
Qed.

Lemma bundles_loop_unreadable pre item post acc self :
  Forall (fun i => has i "key" = true /\ has i "cert" = true /\ string_valued i) pre ->
  has item "key" = true -> has item "cert" = true -> ~ string_valued item ->
  exists msg, ModuleParameters.bundles_loop (pre ++ item :: post) acc self
                = (Raise (AttributeError msg), self).
Proof.
  intros Hpre Hk Hc Hn. revert acc.
  induction Hpre as [|i pre (Hik & Hic & His) _ IH]; intros acc.
  - destruct (bundle_of_item_unreadable item self Hk Hc Hn) as [msg E]. exists msg.
    cbn [app ModuleParameters.bundles_loop]. by rewrite (bind_raise _ _ _ _ _ E).
  - destruct (bundle_of_item_ok i self Hik Hic His) as (tmp & E & _).
    cbn [app ModuleParameters.bundles_loop]. rewrite (bind_ok _ _ _ _ _ E). apply IH.
Qed.

(** X19: an entry that has a key and a certificate, one of its key,
    certificate and chain being no string ([chain: None], say), makes the
    [cert_key_chain] property raise an [AttributeError] when the entries
    before it are complete and hold strings.  Python then falls back to
    [__getattr__]: reading the desired [cert_key_chain] returns the list as
    the user wrote it, underived, and the entries after that entry are not
    validated. *)
Theorem unreadable_entry_skips_validation
    (self : values) (pre post : list dict) (item : dict) :
  getv self "cert_key_chain" = PDicts (pre ++ item :: post) ->
  Forall (fun i => has i "key" = true /\ has i "cert" = true /\ string_valued i) pre ->
  has item "key" = true -> has item "cert" = true -> ~ string_valued item ->
  (exists msg, ModuleParameters.cert_key_chain self = (Raise (AttributeError msg), self)) /\
  ModuleParameters.getattr "cert_key_chain" self
    = (Ok (PDicts (pre ++ item :: post)), self).
Proof.
  intros Hv Hpre Hk Hc Hn.
  destruct (bundles_loop_unreadable pre item post [] self Hpre Hk Hc Hn) as [msg E].
  assert (ModuleParameters.cert_key_chain self = (Raise (AttributeError msg), self)) as Ec.
  { unfold ModuleParameters.cert_key_chain. rewrite bind_get, Hv.
    by rewrite (bind_raise _ _ _ _ _ E). }
  split; [by exists msg|].
  change (ModuleParameters.getattr "cert_key_chain")
    with (catch_attribute_error ModuleParameters.cert_key_chain (base_getattr "cert_key_chain")).
  unfold catch_attribute_error. rewrite Ec. unfold base_getattr. by rewrite Hv.
Qed.

Lemma unreadable_entry_skips_validation_witness :
  ModuleParameters.getattr "cert_key_chain"
      ({[ "cert_key_chain" :=
            PDicts [ {[ "cert" := CStr "a"; "key" := CStr "a"; "chain" := CNone ]};
                     {[ "key" := CStr "b" ]} ] ]} : values)
    = (Ok (PDicts [ {[ "cert" := CStr "a"; "key" := CStr "a"; "chain" := CNone ]};
                    {[ "key" := CStr "b" ]} ]),
       ({[ "cert_key_chain" :=
            PDicts [ {[ "cert" := CStr "a"; "key" := CStr "a"; "chain" := CNone ]};
                     {[ "key" := CStr "b" ]} ] ]} : values)).
Proof.
  refine (proj2 (unreadable_entry_skips_validation
                   {[ "cert_key_chain" :=
                        PDicts [ {[ "cert" := CStr "a"; "key" := CStr "a";
                                    "chain" := CNone ]};
                                 {[ "key" := CStr "b" ]} ] ]}
                   [] [ {[ "key" := CStr "b" ]} ]
                   {[ "cert" := CStr "a"; "key" := CStr "a"; "chain" := CNone ]}
                   _ _ _ _ _)).
  - vm_compute. reflexivity.
  - constructor.
  - vm_compute. reflexivity.
  - vm_compute. reflexivity.
  - intros H.
    destruct (H "chain" CNone) as [s Hs]; [|vm_compute; reflexivity|discriminate Hs].
    apply elem_of_cons; right. apply elem_of_cons; right. apply elem_of_cons. by left.
Defined.

(** ** The current bundles *)

Lemma copy_fields_lookup (item : dict) (xs : list string) (tmp : dict) (i : string) :
  ApiParameters.copy_fields item xs tmp !! i =
    if decide (i ∈ xs)
    then match item !! i with Some v => Some v | None => tmp !! i end
    else tmp !! i.
Proof.
  unfold ApiParameters.copy_fields. revert tmp.
  induction xs as [|x xs IH]; intros tmp; cbn [fold_left].
  - destruct (decide (i ∈ [])) as [H|_]; [by apply elem_of_nil in H | reflexivity].
  - rewrite IH.
    assert ((match item !! x with Some v => <[x := v]> tmp | None => tmp end) !! i
            = if decide (i = x)
              then match item !! i with Some v => Some v | None => tmp !! i end
              else tmp !! i) as E.
    { destruct (decide (i = x)) as [->|Hne].
      - destruct (item !! x); [apply lookup_insert_eq | reflexivity].
      - destruct (item !! x); [by rewrite lookup_insert_ne | reflexivity]. }
    rewrite E.
    destruct (decide (i ∈ xs)) as [Hin|Hnin], (decide (i = x)) as [->|Hne].
    + rewrite decide_True by (apply elem_of_cons; by left). by destruct (item !! x).
    + by rewrite decide_True by (apply elem_of_cons; by right).
    + by rewrite decide_True by (apply elem_of_cons; by left).
    + rewrite decide_False; [reflexivity|]. rewrite elem_of_cons. by intros [?|?].
Qed.

(** The entry read off a device entry holds the known fields of it. *)
Lemma copy_fields_known (item : dict) (n : cell) :
  item !! "name" = Some n ->
  ApiParameters.copy_fields item ["cert"; "key"; "chain"; "passphrase"] {[ "name" := n ]}
    = known_fields item.
Proof.
  intros Hn. apply map_eq. intros i. rewrite copy_fields_lookup.
  unfold known_fields. apply option_eq. intros v.
  rewrite map_lookup_filter_Some. cbn [fst]. unfold bundle_fields.
  destruct (decide (i ∈ ["cert"; "key"; "chain"; "passphrase"])) as [Hin|Hnin].
  - destruct (item !! i) as [w|] eqn:Ei.
    + split; [intros [= ->]; split; [done|by apply elem_of_cons; right] | by intros [? _]].
    + rewrite lookup_singleton_ne; [by split; [|intros [? _]]|].
      intros <-. congruence.
  - destruct (decide (i = "name")) as [->|Hne].
    + rewrite lookup_singleton_eq, Hn.
      split; [intros [= ->]; split; [done|by apply elem_of_cons; left] | by intros [? _]].
    + rewrite lookup_singleton_ne by congruence.
      split; [done|]. intros [_ Hi]. apply elem_of_cons in Hi as [?|?]; done.
Qed.

Lemma known_fields_id (b : dict) :
  (forall k, is_Some (b !! k) -> k ∈ bundle_fields) -> known_fields b = b.
Proof.
  intros Hf. apply map_eq. intros i. unfold known_fields. apply option_eq. intros v.
  rewrite map_lookup_filter_Some. cbn [fst]. split; [by intros [? _]|].
  intros Hi. split; [exact Hi | apply Hf; eauto].
Qed.

Lemma known_fields_named (item : dict) : named item -> named (known_fields item).
Proof.
  intros [n Hn]. exists n. unfold known_fields. apply map_lookup_filter_Some.
  split; [exact Hn|]. cbn [fst]. unfold bundle_fields. apply elem_of_cons. by left.
Qed.

Lemma have_bundles_loop_run items acc self :
  Forall (fun i => has i "name" = true) items ->
  ApiParameters.bundles_loop items acc self
    = (Ok (acc ++ map known_fields items)%list, self).
Proof.
  intros Hn. revert acc. induction Hn as [|i items Hi _ IH]; intros acc.
  - cbn [ApiParameters.bundles_loop map]. by rewrite app_nil_r.
  - cbn [ApiParameters.bundles_loop map]. destruct (has_true _ _ Hi) as [n En].
    unfold item_get. rewrite En. unfold bind at 1. cbn [ret].
    rewrite (copy_fields_known _ _ En), IH. by rewrite <- app_assoc.
Qed.

Lemma sorted_by_name_raises l e :
  sorted_by_name l = Raise e -> forall msg, e <> AttributeError msg.
Proof.
  unfold sorted_by_name.
  destruct (negb (forallb _ l)); [intros H msg ->; discriminate H|].
  destruct (negb (orderable _)); [intros H msg ->; discriminate H | discriminate].
Qed.

Lemma current_bundles_run (self : values) (items : list dict) :
  getv self "cert_key_chain" = PDicts items ->
  Forall (fun i => has i "name" = true) items ->
  ApiParameters.getattr "cert_key_chain" self
    = (match sorted_by_name (map known_fields items) with
       | Ok l => Ok (PDicts l)
       | Raise e => Raise e
       end, self).
Proof.
  intros Hv Hn.
  change (ApiParameters.getattr "cert_key_chain")
    with (catch_attribute_error ApiParameters.cert_key_chain (base_getattr "cert_key_chain")).
  unfold catch_attribute_error, ApiParameters.cert_key_chain.
  unfold bind at 1. cbn [get]. rewrite Hv.
  rewrite (bind_ok _ _ _ _ _ (have_bundles_loop_run items [] self Hn)). cbn [app].
  unfold bind, lift.
  destruct (sorted_by_name (map known_fields items)) as [l|e] eqn:E; [reflexivity|].
  pose proof (sorted_by_name_raises _ _ E) as He.
  destruct e; try reflexivity. by destruct (He msg).
Qed.

(** X9: of every entry the device lists, the current parameters keep the
    name, the certificate, the key, the chain and the passphrase, and
    nothing else, and hand the entries to Python's [sorted] with the name
    as the key.  When the names are strings, [sorted] returns the entries
    in the order of their names. *)
Theorem current_bundles_keep_known_fields (self : values) (items : list dict) :
  getv self "cert_key_chain" = PDicts items ->
  Forall (fun i => has i "name" = true) items ->
  ApiParameters.getattr "cert_key_chain" self
    = (match sorted_by_name (map known_fields items) with
       | Ok l => Ok (PDicts l)
       | Raise e => Raise e
       end, self) /\
  (Forall named items ->
   exists l, sorted_by_name (map known_fields items) = Ok l /\
             Sorted by_name l /\ l ≡ₚ map known_fields items).
Proof.
  intros Hv Hn. split.
  - change (ApiParameters.getattr "cert_key_chain")
      with (catch_attribute_error ApiParameters.cert_key_chain
              (base_getattr "cert_key_chain")).
    unfold catch_attribute_error, ApiParameters.cert_key_chain.
    unfold bind at 1. cbn [get]. rewrite Hv.
    rewrite (bind_ok _ _ _ _ _ (have_bundles_loop_run items [] self Hn)). cbn [app].
    unfold bind, lift.
    destruct (sorted_by_name (map known_fields items)) as [l|e] eqn:E; [reflexivity|].
    pose proof (sorted_by_name_raises _ _ E) as He.
    destruct e; try reflexivity. by destruct (He msg).
  - intros Hs.
    assert (Forall named (map known_fields items)) as Hk.
    { apply Forall_map. eapply Forall_impl; [exact Hs|]. apply known_fields_named. }
    exists (foldr insert_by_name [] (map known_fields items)).
    split; [by apply sorted_by_name_named|].
    split; [by apply isort_sorted | apply isort_perm].
Qed.

Lemma current_bundles_keep_known_fields_witness :
  ApiParameters.getattr "cert_key_chain"
      ({[ "cert_key_chain" :=
            PDicts [ {[ "name" := CStr "a"; "cert" := CStr "/Common/a.crt";
                        "usage" := CStr "SERVER" ]} ] ]}
         : values)
    = (match sorted_by_name
               (map known_fields
                  [ {[ "name" := CStr "a"; "cert" := CStr "/Common/a.crt";
                       "usage" := CStr "SERVER" ]} ]) with
       | Ok l => Ok (PDicts l)
       | Raise e => Raise e
       end,
       ({[ "cert_key_chain" :=
            PDicts [ {[ "name" := CStr "a"; "cert" := CStr "/Common/a.crt";
                        "usage" := CStr "SERVER" ]} ] ]}
         : values)).
Proof.
  refine (proj1 (current_bundles_keep_known_fields
                   {[ "cert_key_chain" :=
                        PDicts [ {[ "name" := CStr "a"; "cert" := CStr "/Common/a.crt";
                                    "usage" := CStr "SERVER" ]} ] ]}
                   [ {[ "name" := CStr "a"; "cert" := CStr "/Common/a.crt";
                        "usage" := CStr "SERVER" ]} ] _ _)).
  - vm_compute. reflexivity.
  - constructor; [vm_compute; reflexivity | constructor].
Defined.

Lemma map_known_fields_id (bs : list dict) :
  Forall well_formed_bundle bs -> map known_fields bs = bs.
Proof.
  induction 1 as [|b bs (_ & _ & _ & _ & Hf) _ IH]; [reflexivity|].
  cbn [map]. by rewrite known_fields_id, IH.
Qed.

Lemma desired_bundles_run (w h : values) (bs : list dict) :
  plain_bundles w ->
  (ModuleParameters.getattr "cert_key_chain" w).1 = Ok (PDicts bs) ->
  getv h "cert_key_chain" = PDicts bs ->
  ApiParameters.getattr "cert_key_chain" h = (Ok (PDicts bs), h).
Proof.
  intros Hp Hw Hh.
  destruct (well_formed_desired_bundles _ _ Hp Hw) as [Hs Hf].
  pose proof (well_formed_named _ Hf) as Hn.
  rewrite (current_bundles_run _ _ Hh).
  - rewrite (map_known_fields_id _ Hf), (sorted_by_name_named _ Hn).
    by rewrite (isort_of_sorted _ Hn Hs).
  - eapply Forall_impl; [exact Hn|]. intros b [n Hb]. unfold has.
    apply bool_decide_eq_true_2. eauto.
Qed.

(** X10: when the entries the user wrote hold strings for the key, the
    certificate and the chain, the current parameters of a device that
    lists the bundles the desired parameters derive read these very bundles
    back, and the difference engine finds the bundles unchanged. *)
Theorem desired_bundles_read_back (s : manager) (bs : list dict) :
  plain_bundles (want s) ->
  (ModuleParameters.getattr "cert_key_chain" (want s)).1 = Ok (PDicts bs) ->
  getv (have s) "cert_key_chain" = PDicts bs ->
  ApiParameters.getattr "cert_key_chain" (have s) = (Ok (PDicts bs), have s) /\
  Difference.compare "cert_key_chain" s = (Ok PNone, s).
Proof.
  intros Hp Hw Hh.
  pose proof (desired_bundles_run _ _ _ Hp Hw Hh) as E.
  split; [exact E|].
  apply (compare_cert_key_chain_same s (PDicts bs)); [exact Hw | by rewrite E].
Qed.

Lemma desired_bundles_read_back_witness :
  ApiParameters.getattr "cert_key_chain"
      (have (set_have (init api_map example_device) (new_manager example_params false None)))
    = (Ok (PDicts [example_bundle]),
       have (set_have (init api_map example_device) (new_manager example_params false None))) /\
  Difference.compare "cert_key_chain"
      (set_have (init api_map example_device) (new_manager example_params false None))
    = (Ok PNone, set_have (init api_map example_device) (new_manager example_params false None)).
Proof.
  apply (desired_bundles_read_back
           (set_have (init api_map example_device) (new_manager example_params false None))
           [example_bundle]).
  - exact example_params_plain.
  - vm_compute. reflexivity.
  - vm_compute. reflexivity.
Defined.

(** ** Reading the device *)

Lemma map_key_cases (k : string) :
  (k = "certKeyChain" /\ map_key api_map k = "cert_key_chain") \/
  (k = "ocspStapling" /\ map_key api_map k = "ocsp_stapling") \/
  (k <> "certKeyChain" /\ k <> "ocspStapling" /\ map_key api_map k = k).
Proof.
  destruct (decide (k = "certKeyChain")) as [->|H1]; [by left|].
  destruct (decide (k = "ocspStapling")) as [->|H2]; [by right; left|].
  right; right. split; [done|]. split; [done|].
  unfold map_key, api_map. cbn [list_to_map foldr fst snd uncurry].
  by rewrite !lookup_insert_ne, lookup_empty by congruence.
Qed.

(** The current parameters of a resource that has no attribute of the
    name [cert_key_chain] or [ocsp_stapling]. *)
Lemma have_getv (attrs : values) (k : string) :
  attrs !! "cert_key_chain" = None -> attrs !! "ocsp_stapling" = None ->
  k <> "cert_key_chain" -> k <> "ocsp_stapling" -> k <> "__warnings" ->
  getv (init api_map attrs) (map_key api_map k) = getv attrs k.
Proof.
  intros Hc Ho H1 H2 H3. apply getv_init.
  - intros k' [v Hv] E.
    destruct (map_key_cases k) as [[-> Ek]|[[-> Ek]|(_ & _ & Ek)]],
             (map_key_cases k') as [[-> Ek']|[[-> Ek']|(_ & _ & Ek')]];
      rewrite ?Ek, ?Ek' in E; try done; congruence.
  - destruct (map_key_cases k) as [[-> Ek]|[[-> Ek]|(_ & _ & Ek)]];
      rewrite Ek; congruence.
Qed.

Lemma have_getv_names (attrs : values) :
  attrs !! "cert_key_chain" = None -> attrs !! "ocsp_stapling" = None ->
  getv (init api_map attrs) "ciphers" = getv attrs "ciphers" /\
  getv (init api_map attrs) "cert_key_chain" = getv attrs "certKeyChain" /\
  getv (init api_map attrs) "ocsp_stapling" = getv attrs "ocspStapling".
Proof.
  intros Hc Ho.
  pose proof (have_getv attrs "ciphers" Hc Ho
                ltac:(discriminate) ltac:(discriminate) ltac:(discriminate)) as H1.
  pose proof (have_getv attrs "certKeyChain" Hc Ho
                ltac:(discriminate) ltac:(discriminate) ltac:(discriminate)) as H2.
  pose proof (have_getv attrs "ocspStapling" Hc Ho
                ltac:(discriminate) ltac:(discriminate) ltac:(discriminate)) as H3.
  rewrite map_key_ciphers in H1. rewrite map_key_certKeyChain in H2.
  rewrite map_key_ocspStapling in H3. done.
Qed.

(** X11: what the device reports is read under the names of the module:
    for a resource that has no attribute named [cert_key_chain] or
    [ocsp_stapling] already, the current [cert_key_chain] is the
    [certKeyChain] of the resource, the current [ocsp_stapling] its
    [ocspStapling], and every other attribute is read under its own
    name. *)
Theorem current_parameters_use_module_names (attrs : values) :
  attrs !! "cert_key_chain" = None -> attrs !! "ocsp_stapling" = None ->
  getv (init api_map attrs) "cert_key_chain" = getv attrs "certKeyChain" /\
  getv (init api_map attrs) "ocsp_stapling" = getv attrs "ocspStapling" /\
  forall k, k ∉ ["certKeyChain"; "ocspStapling"; "cert_key_chain"; "ocsp_stapling";
                 "__warnings"] ->
    getv (init api_map attrs) k = getv attrs k.
Proof.
  intros Hc Ho. destruct (have_getv_names attrs Hc Ho) as (_ & H1 & H2).
  split; [exact H1|]. split; [exact H2|].
  intros k Hk. rewrite !not_elem_of_cons in Hk.
  destruct Hk as (Hk1 & Hk2 & Hk3 & Hk4 & Hk5 & _).
  destruct (map_key_cases k) as [[-> _]|[[-> _]|(_ & _ & Ek)]]; [done|done|].
  pose proof (have_getv attrs k Hc Ho Hk3 Hk4 Hk5) as E. by rewrite Ek in E.
Qed.

Lemma current_parameters_use_module_names_witness :
  getv (init api_map example_device) "cert_key_chain" = getv example_device "certKeyChain" /\
  getv (init api_map example_device) "ocsp_stapling" = getv example_device "ocspStapling" /\
  forall k, k ∉ ["certKeyChain"; "ocspStapling"; "cert_key_chain"; "ocsp_stapling";
                 "__warnings"] ->
    getv (init api_map example_device) k = getv example_device k.
Proof.
  apply (current_parameters_use_module_names example_device); vm_compute; reflexivity.
Defined.

(** ** Nothing to change *)

(** What a run reports when it did not record any change. *)
Lemma assemble_initial (changed : bool) (s : manager) :
  changes s = init api_map ∅ -> assemble changed s = {[ "changed" := PBool changed ]}.
Proof. intros E. unfold assemble. rewrite E. destruct changed; vm_compute; reflexivity. Qed.

Lemma present_satisfied_run (m : manager) (attrs : values) :
  getv (want m) "state" = PStr "present" ->
  device m = Some attrs ->
  satisfied (want m) (init api_map attrs) ->
  exec_module m =
    let s := set_have (init api_map attrs)
               (log_call (Load (getv (want m) "name") (partition (want m)))
                  (log_call (Exists (getv (want m) "name") (partition (want m))) m)) in
    (Ok (assemble false s), s).
Proof.
  intros Hs Hd Hsat.
  pose proof (change_set_satisfied _ _ Hsat) as Hc.
  rewrite (exec_module_present m Hs), (present_existing m attrs Hd).
  rewrite (update_run _ attrs) by exact Hd.
  cbn [want log_call]. rewrite Hc.
  by rewrite bool_decide_eq_true_2 by reflexivity.
Qed.

(** X12: a [present] run against a profile that satisfies the desired
    parameters, every updatable field either left unset by the user or at
    its desired value, changes nothing: it reports [changed = false] and
    nothing else when no change was recorded before, issues the existence
    check and the load only, and leaves the device as it is. *)
Theorem satisfied_profile_is_left_alone (m : manager) (attrs : values) :
  getv (want m) "state" = PStr "present" ->
  device m = Some attrs ->
  satisfied (want m) (init api_map attrs) ->
  (exists result, (exec_module m).1 = Ok result /\
                  result !! "changed" = Some (PBool false) /\
                  (changes m = init api_map ∅ -> result = {[ "changed" := PBool false ]})) /\
  calls (exec_module m).2 =
    (calls m ++ [ Exists (getv (want m) "name") (partition (want m));
                  Load (getv (want m) "name") (partition (want m)) ])%list /\
  device (exec_module m).2 = device m.
Proof.
  intros Hs Hd Hsat. rewrite (present_satisfied_run m attrs Hs Hd Hsat). cbv zeta.
  split; [|split].
  - eexists. split; [reflexivity|]. split; [apply assemble_changed|].
    intros E. by apply assemble_initial.
  - cbn [snd calls set_have log_call]. by rewrite <- app_assoc.
  - reflexivity.
Qed.

Lemma satisfied_profile_is_left_alone_witness :
  (exists result,
     (exec_module (new_manager {[ "name" := PStr "my_profile"; "state" := PStr "present" ]}
                     false (Some example_device))).1 = Ok result /\
     result !! "changed" = Some (PBool false) /\
     (changes (new_manager {[ "name" := PStr "my_profile"; "state" := PStr "present" ]}
                 false (Some example_device)) = init api_map ∅ ->
      result = {[ "changed" := PBool false ]})) /\
  calls (exec_module (new_manager {[ "name" := PStr "my_profile"; "state" := PStr "present" ]}
                        false (Some example_device))).2 =
    ([] ++ [ Exists (PStr "my_profile") "Common"; Load (PStr "my_profile") "Common" ])%list /\
  device (exec_module (new_manager {[ "name" := PStr "my_profile"; "state" := PStr "present" ]}
                         false (Some example_device))).2 = Some example_device.
Proof.
  refine (satisfied_profile_is_left_alone
            (new_manager {[ "name" := PStr "my_profile"; "state" := PStr "present" ]}
               false (Some example_device))
            example_device _ _ _).
  - vm_compute. reflexivity.
  - reflexivity.
  - split.
    + intros k Hk. left.
      apply elem_of_cons in Hk as [->|Hk]; [vm_compute; reflexivity|].
      apply elem_of_cons in Hk as [->|Hk]; [vm_compute; reflexivity|].
      by apply elem_of_nil in Hk.
    + exists PNone, (PDicts [example_bundle]).
      split; [vm_compute; reflexivity|]. split; [vm_compute; reflexivity|]. by left.
Defined.

(** ** Running twice *)

Lemma create_payload_lookup (w : values) (ckc : pyval) :
  create_payload w ckc !! "ciphers" = keep (getv w "ciphers") /\
  create_payload w ckc !! "certKeyChain" = keep ckc /\
  create_payload w ckc !! "ocspStapling" = keep (getv w "ocsp_stapling") /\
  create_payload w ckc !! "cert_key_chain" = None /\
  create_payload w ckc !! "ocsp_stapling" = None.
Proof.
  unfold create_payload. rewrite !filter_params_lookup.
  split; [|split; [|split; [|split]]].
  - rewrite !lookup_insert_ne by discriminate. by rewrite lookup_insert_eq.
  - rewrite lookup_insert_ne by discriminate. by rewrite lookup_insert_eq.
  - by rewrite lookup_insert_eq.
  - by rewrite !lookup_insert_ne, lookup_empty by discriminate.
  - by rewrite !lookup_insert_ne, lookup_empty by discriminate.
Qed.

Lemma have_cert_key_chain_none (h : values) :
  getv h "cert_key_chain" = PNone ->
  ApiParameters.getattr "cert_key_chain" h = (Ok PNone, h).
Proof.
  intros Hh.
  change (ApiParameters.getattr "cert_key_chain")
    with (catch_attribute_error ApiParameters.cert_key_chain (base_getattr "cert_key_chain")).
  unfold catch_attribute_error, ApiParameters.cert_key_chain.
  unfold bind at 1. cbn [get]. by rewrite Hh.
Qed.

(** The profile a [create] leaves on the device satisfies the desired
    parameters it was created from. *)
Lemma created_profile_satisfied (w : values) (ckc : pyval) :
  plain_bundles w ->
  (ModuleParameters.getattr "cert_key_chain" w).1 = Ok ckc ->
  satisfied w (init api_map (create_payload (with_default_ciphers w) ckc)).
Proof.
  intros Hp Hckc.
  destruct (create_payload_lookup (with_default_ciphers w) ckc)
    as (Hci & Hck & Hoc & Hn1 & Hn2).
  destruct (have_getv_names _ Hn1 Hn2) as (E1 & E2 & E3).
  rewrite (getv_keep _ _ _ Hci) in E1. rewrite (getv_keep _ _ _ Hck) in E2.
  rewrite (getv_keep _ _ _ Hoc) in E3.
  split.
  - intros k Hk.
    apply elem_of_cons in Hk.
    destruct Hk as [Hk|Hk].
    + subst k.
      destruct (is_none (getv w "ciphers")) eqn:En.
      * left. apply is_none_true. exact En.
      * right. rewrite E1. unfold with_default_ciphers. rewrite En. apply pyeq_refl.
    + apply elem_of_cons in Hk.
      destruct Hk as [Hk|Hk].
      * subst k. right. rewrite E3. unfold with_default_ciphers.
        destruct (is_none (getv w "ciphers")).
        -- rewrite getv_insert_ne by discriminate. apply pyeq_refl.
        -- apply pyeq_refl.
      * apply elem_of_nil in Hk. destruct Hk.
  - exists ckc, ckc. split; [exact Hckc|]. split; [|by right].
    destruct (want_cert_key_chain_shape _ _ Hckc) as [->|[bs ->]].
    + by rewrite (have_cert_key_chain_none _ E2).
    + by rewrite (desired_bundles_run w _ bs Hp Hckc E2).
Qed.

(** X13: the module is idempotent on creation, on a device that stores
    what it is sent, when the entries the user wrote hold strings for the
    key, the certificate and the chain.  When a [present] run outside check
    mode has created the profile, a second run with the same input against
    the device the first run left reports [changed = false] and nothing
    else, issues the existence check and the load only, and leaves the
    device as it is. *)
Theorem create_then_present_is_idempotent (params result1 : values) :
  plain_bundles (init api_map params) ->
  getv (init api_map params) "state" = PStr "present" ->
  (exec_module (new_manager params false None)).1 = Ok result1 ->
  exists payload,
    device (exec_module (new_manager params false None)).2 = Some payload /\
    (exec_module (new_manager params false (Some payload))).1
      = Ok {[ "changed" := PBool false ]} /\
    calls (exec_module (new_manager params false (Some payload))).2
      = [ Exists (getv (init api_map params) "name") (partition (init api_map params));
          Load (getv (init api_map params) "name") (partition (init api_map params)) ] /\
    device (exec_module (new_manager params false (Some payload))).2 = Some payload.
Proof.
  intros Hp Hs. set (w := init api_map params) in *.
  rewrite (exec_module_present (new_manager params false None) Hs).
  rewrite (present_missing (new_manager params false None) eq_refl).
  destruct (create_run (log_call (Exists (getv (want (new_manager params false None)) "name")
                                    (partition (want (new_manager params false None))))
                          (new_manager params false None))) as [c ->].
  cbn [want check_mode log_call new_manager]. fold w. cbv zeta.
  destruct (ModuleParameters.getattr "cert_key_chain" w).1 as [ckc|e] eqn:Eckc.
  - intros _. exists (create_payload (with_default_ciphers w) ckc).
    split; [reflexivity|].
    rewrite (present_satisfied_run
               (new_manager params false (Some (create_payload (with_default_ciphers w) ckc)))
               (create_payload (with_default_ciphers w) ckc) Hs eq_refl
               (created_profile_satisfied w ckc Hp Eckc)).
    cbv zeta. split; [|split; reflexivity].
    cbn [fst]. rewrite assemble_initial; reflexivity.
  - destruct e; cbn [fst]; discriminate.
Qed.

Lemma create_then_present_is_idempotent_witness :
  exists payload,
    device (exec_module (new_manager example_params false None)).2 = Some payload /\
    (exec_module (new_manager example_params false (Some payload))).1
      = Ok {[ "changed" := PBool false ]} /\
    calls (exec_module (new_manager example_params false (Some payload))).2
      = [ Exists (getv (init api_map example_params) "name")
            (partition (init api_map example_params));
          Load (getv (init api_map example_params) "name")
            (partition (init api_map example_params)) ] /\
    device (exec_module (new_manager example_params false (Some payload))).2 = Some payload.
Proof.
  refine (create_then_present_is_idempotent example_params
            {[ "changed" := PBool true ]} _ _ _).
  - exact example_params_plain.
  - vm_compute. reflexivity.
  - vm_compute. reflexivity.
Defined.

(** ** Something to change *)








(** ** What is reported *)

(** X14: the result of a run that returns holds [changed] and returnable
    fields only. *)
Theorem result_holds_returnables_only (m : manager) (result : values) (k : string) :
  (exec_module m).1 = Ok result -> is_Some (result !! k) ->
  k = "changed" \/ k ∈ returnables.
Proof.
  rewrite exec_module_run.
  destruct ((if pyeq (getv (want m) "state") (PStr "present") then present
             else if pyeq (getv (want m) "state") (PStr "absent") then absent
             else ret false) m) as [[changed|e] s].
  - cbn [fst]. intros H%Ok_inj Hk. subst result.
    destruct (decide (k = "changed")) as [|Hc]; [by left|right].
    destruct (decide (k ∈ returnables)) as [|Hn]; [done|exfalso].
    unfold assemble in Hk.
    destruct (decide (k = "__warnings")) as [->|Hw].
    + rewrite lookup_delete_eq in Hk. by destruct Hk.
    + rewrite lookup_delete_ne, lookup_insert_ne in Hk by congruence.
      rewrite (right_id_L ∅ (∪)) in Hk.
      rewrite to_return_lookup_None in Hk by exact Hn. by destruct Hk.
  - destruct e; cbn [fst]; intros H; by apply eq_sym, Ok_not_Raise in H.
Qed.

Lemma result_holds_returnables_only_witness :
  "ciphers" = "changed" \/ "ciphers" ∈ returnables.
Proof.
  refine (result_holds_returnables_only
            (new_manager cipher_params true (Some example_device))
            {[ "ciphers" := PStr "ECDHE"; "changed" := PBool true ]} "ciphers" _ _).
  - vm_compute. reflexivity.
  - vm_compute. eexists. reflexivity.
Defined.

End ClientSSLMore.

(** * More on the global settings module *)
Module SysGlobalMore.
Import SysGlobal SysGlobalProps.

(** ** Check mode writes nothing *)

Section SysCheckMode.
Variable I : manager -> Prop.
Hypothesis I_want : forall w s, I s -> I (set_want w s).
Hypothesis I_have : forall h s, I s -> I (set_have h s).
Hypothesis I_changes : forall c s, I s -> I (set_changes c s).
Hypothesis I_deprecate : forall msg v s, I s -> I (deprecate msg v s).
Hypothesis I_load : forall s, I s -> I (log_call Load s).
Hypothesis I_check : forall s, I s -> check_mode s = true.

Lemma sys_keeps_on_want {A} (g : M values A) : keeps I (on_want g).
Proof.
  intros s Hs. unfold on_want. destruct (g (want s)) as [[a|e] w]; by apply I_want.
Qed.

Lemma sys_keeps_on_have {A} (g : M values A) : keeps I (on_have g).
Proof.
  intros s Hs. unfold on_have. destruct (g (have s)) as [[a|e] h]; by apply I_have.
Qed.

Lemma sys_keeps_compare k : keeps I (compare k).
Proof.
  unfold compare, difference_getattr, __default.
  apply keeps_catch_attribute_error; [apply keeps_raise|].
  apply keeps_bind; [apply sys_keeps_on_want | intros attr1].
  apply keeps_catch_attribute_error; [|apply keeps_ret].
  apply keeps_bind; [apply sys_keeps_on_have | intros attr2].
  destruct (negb _); apply keeps_ret.
Qed.

Lemma sys_keeps_changed_loop ks acc : keeps I (changed_loop ks acc).
Proof.
  revert acc. induction ks as [|k ks IH]; intros acc; cbn [changed_loop].
  - apply keeps_ret.
  - apply keeps_bind; [apply sys_keeps_compare | intros c].
    destruct (is_none c); apply IH.
Qed.

Lemma sys_keeps_load : keeps I sdk_load.
Proof.
  unfold sdk_load.
  apply keeps_bind; [apply keeps_modify; intros s Hs; by apply I_load | intros _].
  apply keeps_bind; [apply keeps_get | intros s]. apply keeps_ret.
Qed.

Lemma sys_keeps_update : keeps I update_.
Proof.
  unfold update_, read_current_from_device, should_update, _update_changed_options.
  apply keeps_bind.
  { apply keeps_bind; [apply sys_keeps_load | intros r; apply keeps_ret]. }
  intros h. apply keeps_bind; [apply keeps_modify; intros s Hs; by apply I_have | intros _].
  apply keeps_bind.
  { apply keeps_bind.
    - apply keeps_bind; [apply sys_keeps_changed_loop | intros c].
      destruct (bool_decide (c = ∅)); [apply keeps_ret|].
      apply keeps_bind; [|intros _; apply keeps_ret].
      apply keeps_modify. intros s Hs. by apply I_changes.
    - intros r. destruct r; apply keeps_ret. }
  intros u. destruct (negb u); [apply keeps_ret|].
  apply keeps_bind_get. intros s Hs. by rewrite (I_check s Hs).
Qed.

Lemma sys_keeps_announce result : keeps I (_announce_deprecations result).
Proof.
  unfold _announce_deprecations, lookup_item.
  apply keeps_bind.
  { destruct (result !! "__warnings") as [[]|]; first [apply keeps_ret | apply keeps_raise]. }
  intros warnings. apply keeps_bind; [|intros _; apply keeps_ret].
  apply keeps_for_each. intros warning.
  apply keeps_bind; [destruct (warning !! "msg"); [apply keeps_ret | apply keeps_raise]|].
  intros msg.
  apply keeps_bind; [destruct (warning !! "version"); [apply keeps_ret | apply keeps_raise]|].
  intros version. apply keeps_modify. intros s Hs. by apply I_deprecate.
Qed.

Lemma sys_keeps_exec_module : keeps I exec_module.
Proof.
  unfold exec_module, present.
  apply keeps_bind; [apply keeps_reraise_http, sys_keeps_update | intros changed].
  apply keeps_bind; [apply keeps_get | intros s]. apply sys_keeps_announce.
Qed.

End SysCheckMode.

(** X15: in check mode no run of the global settings module writes to the
    device, whatever the parameters and whatever the device reports, and
    whether the run returns or raises: the settings are as they were, and
    every call issued is a load. *)
Theorem global_settings_never_written_in_check_mode (m : manager) :
  check_mode m = true ->
  device (exec_module m).2 = device m /\
  exists n, calls (exec_module m).2 = (calls m ++ replicate n Load)%list.
Proof.
  intros Hc.
  assert (sys_dry (device m) (calls m) (exec_module m).2) as (_ & Hd & Hn).
  { apply keeps_run.
    - apply sys_keeps_exec_module; try (intros; assumption).
      + intros s (Hchk & Hd & n & Hn). split; [exact Hchk|]. split; [exact Hd|].
        exists (S n). cbn [calls log_call]. rewrite Hn, <- app_assoc.
        f_equal. change [Load] with (replicate 1 Load).
        rewrite <- replicate_add. f_equal. lia.
      + by intros s [? _].
    - split; [exact Hc|]. split; [reflexivity|]. exists 0%nat. by rewrite app_nil_r. }
  split; [exact Hd | exact Hn].
Qed.

Lemma global_settings_never_written_in_check_mode_witness :
  device (exec_module (new_manager legacy_params true legacy_device)).2 = legacy_device /\
  exists n, calls (exec_module (new_manager legacy_params true legacy_device)).2
            = ([] ++ replicate n Load)%list.
Proof.
  apply (global_settings_never_written_in_check_mode (new_manager legacy_params true legacy_device)).
  reflexivity.
Defined.

(** ** Reading the desired settings *)

Lemma property_some k p : property k = Some p -> p = _get_boolean_like_return_value k.
Proof.
  unfold property.
  repeat (destruct (String.eqb k _) eqn:E;
          [apply String.eqb_eq in E; subst k; intros H; apply (inj Some) in H;
           by subst p|clear E]).
  discriminate.
Qed.

Lemma same_settings_refl w l : getv w "__warnings" = PDicts l -> same_settings w w.
Proof. intros H. split; [done | eauto]. Qed.

(** Reading a desired setting answers its desired value, and stores a
    notice at most. *)
Lemma sys_want_getattr_run (w0 w : values) (k : string) :
  same_settings w0 w -> k <> "__warnings" ->
  exists w', want_getattr k w = (Ok (sys_desired w0 k), w') /\ same_settings w0 w'.
Proof.
  intros [Hk [l Hl]] Hne. unfold want_getattr, sys_desired.
  destruct (property k) as [p|] eqn:Ep.
  - rewrite (property_some _ _ Ep). unfold catch_attribute_error.
    rewrite (boolean_like_run _ _ l Hl). cbv zeta. rewrite (Hk k Hne).
    unfold normalised. destruct (is_none (getv w0 k)).
    + exists w. split; [reflexivity|]. split; [exact Hk | eauto].
    + destruct (pyin (getv w0 k) [PStr "enabled"; PStr "disabled"]).
      * eexists. split; [reflexivity|]. split.
        -- intros k' Hk'. rewrite ClientSSLProps.getv_insert_ne by congruence.
           by apply Hk.
        -- eexists. apply ClientSSLProps.getv_insert_eq.
      * exists w. split; [reflexivity|]. split; [exact Hk | eauto].
  - exists w. unfold base_getattr. rewrite (Hk k Hne).
    split; [reflexivity|]. split; [exact Hk | eauto].
Qed.

Lemma sys_set_want_id s : set_want (want s) s = s.
Proof. by destruct s. Qed.

Lemma sys_set_have_id s : set_have (have s) s = s.
Proof. by destruct s. Qed.

(** One comparison of the difference engine. *)
Lemma sys_compare_run (w0 : values) (s : manager) (k : string) :
  same_settings w0 (want s) -> k <> "__warnings" ->
  exists w',
    compare k s = (Ok (sys_change w0 (have s) k), set_want w' s) /\
    same_settings w0 w'.
Proof.
  intros Hs Hne. destruct (sys_want_getattr_run w0 (want s) k Hs Hne) as (w' & E & Hs').
  exists w'. split; [|exact Hs'].
  unfold compare, difference_getattr, __default, sys_change.
  unfold catch_attribute_error at 1. cbn [raise].
  assert (on_want (want_getattr k) s = (Ok (sys_desired w0 k), set_want w' s)) as Ew.
  { unfold on_want. by rewrite E. }
  rewrite (bind_ok _ _ _ _ _ Ew). unfold catch_attribute_error.
  assert (on_have (base_getattr k) (set_want w' s)
          = (Ok (getv (have s) k), set_want w' s)) as Eh.
  { unfold on_have, base_getattr. cbn [have set_want]. by destruct s. }
  rewrite (bind_ok _ _ _ _ _ Eh).
  by destruct (negb _).
Qed.

(** The difference engine returns a change set: the settings whose desired
    value is set and differs from the current one. *)
Lemma sys_changed_loop_run (w0 : values) (ks : list string) (acc : values) (s : manager) :
  same_settings w0 (want s) -> "__warnings" ∉ ks ->
  exists c w',
    changed_loop ks acc s = (Ok c, set_want w' s) /\
    same_settings w0 w' /\
    forall k, c !! k =
      if decide (k ∈ ks)
      then (if is_none (sys_change w0 (have s) k) then acc !! k
            else Some (sys_change w0 (have s) k))
      else acc !! k.
Proof.
  revert acc s. induction ks as [|k ks IH]; intros acc s Hs Hn.
  - exists acc, (want s). cbn [changed_loop]. rewrite sys_set_want_id.
    split; [reflexivity|]. split; [exact Hs|]. intros k.
    destruct (decide (k ∈ [])) as [H|_]; [by apply elem_of_nil in H | reflexivity].
  - apply not_elem_of_cons in Hn as [Hk Hn].
    destruct (sys_compare_run w0 s k Hs ltac:(congruence)) as (w1 & Ec & Hs1).
    cbn [changed_loop]. rewrite (bind_ok _ _ _ _ _ Ec).
    destruct (IH (if is_none (sys_change w0 (have s) k) then acc
                  else <[k := sys_change w0 (have s) k]> acc)
                (set_want w1 s) Hs1 Hn) as (c & w2 & El & Hs2 & Hc).
    exists c, w2. split; [|split; [exact Hs2|]].
    + destruct (is_none (sys_change w0 (have s) k)); exact El.
    + intros k'. rewrite Hc. cbn [have set_want].
      destruct (decide (k' ∈ ks)) as [Hin|Hnin].
      * rewrite decide_True by (apply elem_of_cons; by right).
        destruct (is_none (sys_change w0 (have s) k')) eqn:E'; [|reflexivity].
        destruct (is_none (sys_change w0 (have s) k)) eqn:E; [reflexivity|].
        rewrite lookup_insert_ne; [reflexivity|]. intros ->. congruence.
      * destruct (decide (k' = k)) as [->|Hne].
        -- rewrite decide_True by (apply elem_of_cons; by left).
           destruct (is_none (sys_change w0 (have s) k)); [reflexivity|].
           apply lookup_insert_eq.
        -- rewrite decide_False by (rewrite elem_of_cons; by intros [?|?]).
           destruct (is_none (sys_change w0 (have s) k)); [reflexivity|].
           by rewrite lookup_insert_ne.
Qed.

Lemma sys_change_satisfied w h k :
  sys_desired w k = PNone \/ pyeq (sys_desired w k) (getv h k) = true ->
  sys_change w h k = PNone.
Proof.
  unfold sys_change. intros [E|E]; rewrite E; [|reflexivity].
  destruct (pyeq PNone (getv h k)); reflexivity.
Qed.

Lemma sys_change_set_empty (w0 h : values) (ks : list string) (c : values) :
  (forall k, c !! k =
     if decide (k ∈ ks)
     then (if is_none (sys_change w0 h k) then (∅ : values) !! k
           else Some (sys_change w0 h k))
     else (∅ : values) !! k) ->
  c = ∅ <-> forall k, k ∈ ks -> sys_change w0 h k = PNone.
Proof.
  intros Hc. split.
  - intros -> k Hk. specialize (Hc k). rewrite decide_True in Hc by exact Hk.
    rewrite lookup_empty in Hc.
    destruct (sys_change w0 h k); try discriminate. reflexivity.
  - intros Hall. apply map_eq. intros k. rewrite Hc, lookup_empty.
    destruct (decide (k ∈ ks)) as [Hk|]; [|reflexivity].
    by rewrite (Hall k Hk).
Qed.

(** ** What is sent to the device *)

Lemma sys_api_params_loop_run (w0 : values) (attrs : list string) (acc w : values) :
  same_settings w0 w ->
  (forall a, a ∈ attrs -> map_key api_map a <> "__warnings") ->
  exists r w',
    api_params_loop want_getattr api_map attrs acc w = (Ok r, w') /\
    same_settings w0 w' /\
    forall a, r !! a =
      if decide (a ∈ attrs) then Some (sys_desired w0 (map_key api_map a)) else acc !! a.
Proof.
  revert acc w. induction attrs as [|a attrs IH]; intros acc w Hs Hn.
  - exists acc, w. split; [reflexivity|]. split; [exact Hs|]. intros a.
    destruct (decide (a ∈ [])) as [H|_]; [by apply elem_of_nil in H | reflexivity].
  - destruct (sys_want_getattr_run w0 w (map_key api_map a) Hs
                (Hn a ltac:(apply elem_of_cons; by left))) as (w1 & E & Hs1).
    cbn [api_params_loop]. rewrite (bind_ok _ _ _ _ _ E).
    destruct (IH (<[a := sys_desired w0 (map_key api_map a)]> acc) w1 Hs1) as (r & w2 & El & Hs2 & Hr).
    { intros a' Ha'. apply Hn. apply elem_of_cons. by right. }
    exists r, w2. split; [exact El|]. split; [exact Hs2|].
    intros a'. rewrite Hr.
    destruct (decide (a' ∈ attrs)) as [Hin|Hnin].
    + by rewrite decide_True by (apply elem_of_cons; by right).
    + destruct (decide (a' = a)) as [->|Hne].
      * rewrite decide_True by (apply elem_of_cons; by left). apply lookup_insert_eq.
      * rewrite decide_False by (rewrite elem_of_cons; by intros [?|?]).
        by rewrite lookup_insert_ne.
Qed.

Lemma sys_api_attribute_not_warnings a :
  a ∈ api_attributes -> map_key api_map a <> "__warnings".
Proof.
  unfold api_attributes. intros Ha.
  repeat (apply elem_of_cons in Ha as [->|Ha]; [vm_compute; discriminate|]).
  by apply elem_of_nil in Ha.
Qed.

(** The payload of the desired settings: every API attribute whose desired
    value is set, and nothing else. *)
Lemma sys_api_params_run (w0 w : values) :
  same_settings w0 w ->
  exists p w',
    api_params want_getattr api_map api_attributes w = (Ok p, w') /\
    same_settings w0 w' /\
    forall a, p !! a =
      if decide (a ∈ api_attributes) then keep (sys_desired w0 (map_key api_map a))
      else None.
Proof.
  intros Hs.
  destruct (sys_api_params_loop_run w0 api_attributes ∅ w Hs sys_api_attribute_not_warnings)
    as (r & w' & El & Hs' & Hr).
  exists (_filter_params r), w'. unfold api_params. rewrite (bind_ok _ _ _ _ _ El).
  split; [reflexivity|]. split; [exact Hs'|].
  intros a. rewrite filter_params_lookup, Hr.
  destruct (decide (a ∈ api_attributes)); [reflexivity|]. by rewrite lookup_empty.
Qed.

(** ** Running the module *)

Lemma sys_assemble_changed changed s :
  sys_assemble changed s !! "changed" = Some (PBool changed).
Proof.
  unfold sys_assemble. rewrite lookup_delete_ne by discriminate. apply lookup_insert_eq.
Qed.

Lemma sys_finish (changed : bool) (s0 s : manager) :
  present s0 = (Ok changed, s) ->
  exec_module s0 = (Ok (sys_assemble changed s), s).
Proof.
  intros Ep. unfold exec_module, reraise_http. unfold bind at 1. rewrite Ep.
  cbv beta iota zeta delta [bind get].
  by rewrite announce_nothing by apply result_has_no_warnings.
Qed.

(** A run for which the difference engine finds nothing. *)
Lemma sys_run_unchanged (m : manager) (w1 : values) :
  changed_loop updatables ∅ (set_have (init api_map (device m)) (log_call Load m))
    = (Ok ∅, set_want w1 (set_have (init api_map (device m)) (log_call Load m))) ->
  exec_module m =
    (Ok (sys_assemble false
           (set_want w1 (set_have (init api_map (device m)) (log_call Load m)))),
     set_want w1 (set_have (init api_map (device m)) (log_call Load m))).
Proof.
  intros El. apply sys_finish. unfold present, update_.
  rewrite (bind_ok _ _ _ _ _ (sys_read_current_run m)).
  unfold should_update, _update_changed_options.
  cbv beta iota zeta delta [bind get modify ret raise].
  rewrite El. by rewrite bool_decide_eq_true_2 by reflexivity.
Qed.

(** A run outside check mode for which the difference engine finds a
    change. *)
Lemma sys_run_update (m : manager) (c w1 p w2 : values) :
  changed_loop updatables ∅ (set_have (init api_map (device m)) (log_call Load m))
    = (Ok c, set_want w1 (set_have (init api_map (device m)) (log_call Load m))) ->
  c <> ∅ ->
  check_mode m = false ->
  api_params want_getattr api_map api_attributes w1 = (Ok p, w2) ->
  exec_module m =
    let s := set_device (p ∪ device m)
               (log_call (Modify p)
                  (log_call Load
                     (set_want w2
                        (set_changes (init api_map c)
                           (set_have (init api_map (device m)) (log_call Load m)))))) in
    (Ok (sys_assemble true s), s).
Proof.
  intros El Hne Hchk Ep. apply sys_finish. unfold present, update_.
  rewrite (bind_ok _ _ _ _ _ (sys_read_current_run m)).
  unfold should_update, _update_changed_options, update_on_device, sdk_load, sdk_modify,
    on_want.
  cbv beta iota zeta delta [bind get modify ret raise].
  rewrite El. rewrite bool_decide_eq_false_2 by exact Hne.
  cbn [negb check_mode set_changes set_want set_have log_call]. rewrite Hchk.
  cbv beta. cbn [want set_changes set_want]. rewrite Ep. reflexivity.
Qed.

(** ** Names *)

Lemma sys_map_key_cases (k : string) :
  ((k ∈ api_attributes) /\ (map_key api_map k ∈ updatables)) \/
  ((k ∉ api_attributes) /\ map_key api_map k = k).
Proof.
  destruct (decide (k ∈ api_attributes)) as [Hin|Hnin]; [left|right].
  - split; [exact Hin|]. unfold api_attributes in Hin.
    repeat (apply elem_of_cons in Hin as [->|Hin];
            [apply (bool_decide_unpack _); vm_compute; exact I|]).
    by apply elem_of_nil in Hin.
  - split; [exact Hnin|]. unfold map_key, api_map.
    by rewrite not_elem_of_list_to_map_1.
Qed.

Lemma sys_map_key_inj (a a' : string) :
  a ∈ api_attributes -> a' ∈ api_attributes ->
  map_key api_map a = map_key api_map a' -> a = a'.
Proof.
  unfold api_attributes. intros Ha Ha'.
  repeat (apply elem_of_cons in Ha as [->|Ha]);
    [..|by apply elem_of_nil in Ha];
    (repeat (apply elem_of_cons in Ha' as [->|Ha']);
     [..|by apply elem_of_nil in Ha']);
    vm_compute; intros E; first [reflexivity | discriminate E].
Qed.

Lemma sys_updatables_of_attributes : updatables = map_key api_map <$> api_attributes.
Proof. vm_compute. reflexivity. Qed.

Lemma sys_updatable_of_attribute (k : string) :
  k ∈ updatables -> exists a, a ∈ api_attributes /\ map_key api_map a = k.
Proof.
  rewrite sys_updatables_of_attributes. intros Hk.
  apply list_elem_of_fmap in Hk as (a & -> & Ha). eauto.
Qed.

Lemma sys_updatable_not_attribute (k : string) : k ∈ updatables -> k ∉ api_attributes.
Proof.
  unfold updatables. intros Hk.
  repeat (apply elem_of_cons in Hk as [->|Hk];
          [apply (bool_decide_unpack _); vm_compute; exact I|]).
  by apply elem_of_nil in Hk.
Qed.

Lemma sys_warnings_not_updatable : "__warnings" ∉ updatables.
Proof. apply (bool_decide_unpack _). vm_compute. exact I. Qed.

(** The desired parameters built from the input start with no notice. *)
Lemma sys_init_warnings (params : values) :
  params !! "__warnings" = None -> getv (init api_map params) "__warnings" = PDicts [].
Proof.
  intros Hp.
  assert (map_key api_map "__warnings" = "__warnings") as Ew by (vm_compute; reflexivity).
  pose proof (update_lookup api_map params {[ "__warnings" := PDicts [] ]} "__warnings") as E.
  rewrite Ew, Hp, lookup_singleton_eq in E. unfold getv, init. rewrite E; [reflexivity|].
  intros k' Hk' Ek'.
  destruct (sys_map_key_cases k') as [[_ Hu]|[_ Ek]]; [|congruence].
  rewrite Ek' in Hu. by destruct sys_warnings_not_updatable.
Qed.

(** The current value of a setting on a device that names its settings
    the way the API does. *)
Lemma sys_have_getv (attrs : values) (a : string) :
  (forall k, k ∈ updatables -> attrs !! k = None) ->
  a ∈ api_attributes ->
  getv (init api_map attrs) (map_key api_map a) = getv attrs a.
Proof.
  intros Hd Ha. apply getv_init; [|by apply sys_api_attribute_not_warnings].
  intros k' Hk' E.
  destruct (sys_map_key_cases k') as [[Hin _]|[_ Ek]]; [by apply sys_map_key_inj|].
  destruct (sys_map_key_cases a) as [[_ Hu]|[Hn _]]; [|done].
  rewrite <- E, Ek in Hu. rewrite (Hd k' Hu) in Hk'. by destruct Hk'.
Qed.

(** ** Nothing to change, something to change, and running twice *)

Lemma sys_change_set_run (w0 : values) (m : manager) :
  same_settings w0 (want m) ->
  exists c w1,
    changed_loop updatables ∅ (set_have (init api_map (device m)) (log_call Load m))
      = (Ok c, set_want w1 (set_have (init api_map (device m)) (log_call Load m))) /\
    same_settings w0 w1 /\
    (c = ∅ <-> forall k, k ∈ updatables ->
                 sys_change w0 (init api_map (device m)) k = PNone).
Proof.
  intros Hs.
  destruct (sys_changed_loop_run w0 updatables ∅
              (set_have (init api_map (device m)) (log_call Load m)) Hs
              sys_warnings_not_updatable) as (c & w1 & El & Hs1 & Hc).
  exists c, w1. split; [exact El|]. split; [exact Hs1|].
  by apply sys_change_set_empty.
Qed.

(** X16: a run against settings that satisfy the desired ones, every
    setting either left unset by the user or at its desired value, changes
    nothing, in check mode or not: it reports [changed = false], issues one
    load, and leaves the device as it is. *)
Theorem sys_satisfied_settings_are_left_alone (m : manager) (l : list dict) :
  getv (want m) "__warnings" = PDicts l ->
  sys_satisfied (want m) (init api_map (device m)) ->
  (exists result, (exec_module m).1 = Ok result /\
                  result !! "changed" = Some (PBool false)) /\
  calls (exec_module m).2 = (calls m ++ [Load])%list /\
  device (exec_module m).2 = device m.
Proof.
  intros Hw Hsat.
  destruct (sys_change_set_run (want m) m (same_settings_refl _ _ Hw))
    as (c & w1 & El & _ & Hc).
  assert (c = ∅) as ->.
  { apply Hc. intros k Hk. by apply sys_change_satisfied, Hsat. }
  rewrite (sys_run_unchanged m w1 El). cbn [fst snd].
  split; [|split; reflexivity].
  eexists. split; [reflexivity | apply sys_assemble_changed].
Qed.

Lemma sys_satisfied_settings_are_left_alone_witness :
  (exists result,
     (exec_module (new_manager {[ "gui_setup" := PStr "yes" ]} false
                     {[ "guiSetup" := PStr "enabled" ]})).1 = Ok result /\
     result !! "changed" = Some (PBool false)) /\
  calls (exec_module (new_manager {[ "gui_setup" := PStr "yes" ]} false
                        {[ "guiSetup" := PStr "enabled" ]})).2 = ([] ++ [Load])%list /\
  device (exec_module (new_manager {[ "gui_setup" := PStr "yes" ]} false
                         {[ "guiSetup" := PStr "enabled" ]})).2
    = {[ "guiSetup" := PStr "enabled" ]}.
Proof.
  refine (sys_satisfied_settings_are_left_alone
            (new_manager {[ "gui_setup" := PStr "yes" ]} false
               {[ "guiSetup" := PStr "enabled" ]}) [] _ _).
  - vm_compute. reflexivity.
  - intros k Hk. unfold updatables in Hk.
    repeat (apply elem_of_cons in Hk as [->|Hk];
            [first [left; vm_compute; reflexivity | right; vm_compute; reflexivity]|]).
    by apply elem_of_nil in Hk.
Defined.

(** X17: outside check mode, as soon as one desired setting is set and
    differs from the current one, the run loads the settings twice and
    sends one modify call.  The payload is not the change set: it holds
    every API attribute whose desired value is set, changed or not, each
    with its desired value, and nothing else; the device stores it over its
    settings, and the run reports [changed = true]. *)
Theorem sys_update_sends_every_desired_setting (m : manager) (l : list dict) (k : string) :
  getv (want m) "__warnings" = PDicts l ->
  check_mode m = false ->
  k ∈ updatables ->
  sys_desired (want m) k <> PNone ->
  pyeq (sys_desired (want m) k) (getv (init api_map (device m)) k) = false ->
  exists payload,
    (forall a, payload !! a =
       if decide (a ∈ api_attributes)
       then keep (sys_desired (want m) (map_key api_map a)) else None) /\
    calls (exec_module m).2 = (calls m ++ [Load; Load; Modify payload])%list /\
    device (exec_module m).2 = payload ∪ device m /\
    exists result, (exec_module m).1 = Ok result /\
                   result !! "changed" = Some (PBool true).
Proof.
  intros Hw Hchk Hk Hd He.
  destruct (sys_change_set_run (want m) m (same_settings_refl _ _ Hw))
    as (c & w1 & El & Hs1 & Hc).
  assert (c <> ∅) as Hne.
  { intros E. pose proof (proj1 Hc E k Hk) as E'. unfold sys_change in E'.
    rewrite He in E'. by cbn [negb] in E'. }
  destruct (sys_api_params_run (want m) w1 Hs1) as (p & w2 & Ep & _ & Hp).
  exists p. split; [exact Hp|].
  rewrite (sys_run_update m c w1 p w2 El Hne Hchk Ep). cbv zeta.
  cbn [fst snd calls device set_device set_want set_changes set_have log_call].
  split; [by rewrite <- !app_assoc|]. split; [reflexivity|].
  eexists. split; [reflexivity | apply sys_assemble_changed].
Qed.

Lemma sys_update_sends_every_desired_setting_witness :
  exists payload,
    (forall a, payload !! a =
       if decide (a ∈ api_attributes)
       then keep (sys_desired
                    (want (new_manager {[ "gui_setup" := PStr "yes";
                                          "lcd_display" := PStr "no" ]} false
                             {[ "guiSetup" := PStr "enabled";
                                "lcdDisplay" := PStr "enabled" ]}))
                    (map_key api_map a))
       else None) /\
    calls (exec_module (new_manager {[ "gui_setup" := PStr "yes";
                                       "lcd_display" := PStr "no" ]} false
                          {[ "guiSetup" := PStr "enabled";
                             "lcdDisplay" := PStr "enabled" ]})).2
      = ([] ++ [Load; Load; Modify payload])%list /\
    device (exec_module (new_manager {[ "gui_setup" := PStr "yes";
                                        "lcd_display" := PStr "no" ]} false
                           {[ "guiSetup" := PStr "enabled";
                              "lcdDisplay" := PStr "enabled" ]})).2
      = payload ∪ {[ "guiSetup" := PStr "enabled"; "lcdDisplay" := PStr "enabled" ]} /\
    exists result,
      (exec_module (new_manager {[ "gui_setup" := PStr "yes";
                                   "lcd_display" := PStr "no" ]} false
                      {[ "guiSetup" := PStr "enabled";
                         "lcdDisplay" := PStr "enabled" ]})).1 = Ok result /\
      result !! "changed" = Some (PBool true).
Proof.
  refine (sys_update_sends_every_desired_setting
            (new_manager {[ "gui_setup" := PStr "yes"; "lcd_display" := PStr "no" ]} false
               {[ "guiSetup" := PStr "enabled"; "lcdDisplay" := PStr "enabled" ]})
            [] "lcd_display" _ _ _ _ _).
  - vm_compute. reflexivity.
  - reflexivity.
  - apply (bool_decide_unpack _). vm_compute. exact I.
  - vm_compute. discriminate.
  - vm_compute. reflexivity.
Defined.

(** The settings an update leaves on the device satisfy the desired
    ones. *)
Lemma sys_updated_settings_satisfied (w0 p d : values) :
  (forall a, p !! a =
     if decide (a ∈ api_attributes) then keep (sys_desired w0 (map_key api_map a))
     else None) ->
  (forall k, k ∈ updatables -> d !! k = None) ->
  forall k, k ∈ updatables -> sys_change w0 (init api_map (p ∪ d)) k = PNone.
Proof.
  intros Hp Hd k Hk. apply sys_change_satisfied.
  destruct (sys_desired w0 k) as [| | | |] eqn:Ed; [by left|right..].
  all: destruct (sys_updatable_of_attribute k Hk) as (a & Ha & <-).
  all: rewrite sys_have_getv; [| |exact Ha].
  all: try (intros k' Hk'; apply lookup_union_None; split; [|by apply Hd];
            rewrite Hp; by rewrite decide_False by (by apply sys_updatable_not_attribute)).
  all: assert (p !! a = Some (sys_desired w0 (map_key api_map a))) as Ea
         by (rewrite Hp, decide_True by exact Ha; rewrite Ed; reflexivity).
  all: unfold getv; rewrite (lookup_union_Some_l _ _ _ _ Ea); cbn [default];
       rewrite Ed; apply pyeq_refl.
Qed.

(** X18: the module is idempotent.  For a device that names its settings
    the way the API does and stores what it is sent, a run outside check
    mode returns, and a second run with the same input against the device
    the first run left reports [changed = false], issues one load and no
    modify call, and leaves the device as it is. *)
Theorem sys_second_run_changes_nothing (params device0 : values) :
  params !! "__warnings" = None ->
  (forall k, k ∈ updatables -> device0 !! k = None) ->
  exists result1 device1 result2,
    (exec_module (new_manager params false device0)).1 = Ok result1 /\
    device (exec_module (new_manager params false device0)).2 = device1 /\
    (exec_module (new_manager params false device1)).1 = Ok result2 /\
    result2 !! "changed" = Some (PBool false) /\
    calls (exec_module (new_manager params false device1)).2 = [Load] /\
    device (exec_module (new_manager params false device1)).2 = device1.
Proof.
  intros Hp Hd0. pose proof (sys_init_warnings params Hp) as Hw.
  assert (forall d, (forall k, k ∈ updatables ->
                       sys_change (init api_map params) (init api_map d) k = PNone) ->
            exists result2,
              (exec_module (new_manager params false d)).1 = Ok result2 /\
              result2 !! "changed" = Some (PBool false) /\
              calls (exec_module (new_manager params false d)).2 = [Load] /\
              device (exec_module (new_manager params false d)).2 = d) as Hsecond.
  { intros d Hsat.
    destruct (sys_change_set_run (init api_map params) (new_manager params false d)
                (same_settings_refl _ _ Hw)) as (c & w1 & El & _ & Hc).
    assert (c = ∅) as -> by (by apply Hc).
    rewrite (sys_run_unchanged _ w1 El). cbn [fst snd].
    eexists. split; [reflexivity|]. split; [apply sys_assemble_changed|].
    split; reflexivity. }
  destruct (sys_change_set_run (init api_map params) (new_manager params false device0)
              (same_settings_refl _ _ Hw)) as (c & w1 & El & Hs1 & Hc).
  destruct (decide (c = ∅)) as [->|Hne].
  - destruct (Hsecond device0 (proj1 Hc eq_refl)) as (r2 & E2 & Hch & Hcalls & Hdev).
    rewrite (sys_run_unchanged _ w1 El).
    eexists _, device0, r2. split; [reflexivity|]. split; [reflexivity|]. done.
  - destruct (sys_api_params_run (init api_map params) w1 Hs1) as (p & w2 & Ep & _ & Hpl).
    destruct (Hsecond (p ∪ device0)
                (sys_updated_settings_satisfied _ p device0 Hpl Hd0))
      as (r2 & E2 & Hch & Hcalls & Hdev).
    rewrite (sys_run_update _ c w1 p w2 El Hne eq_refl Ep). cbv zeta.
    eexists _, (p ∪ device0), r2. split; [reflexivity|]. split; [reflexivity|]. done.
Qed.

Lemma sys_second_run_changes_nothing_witness :
  exists result1 device1 result2,
    (exec_module (new_manager legacy_params false legacy_device)).1 = Ok result1 /\
    device (exec_module (new_manager legacy_params false legacy_device)).2 = device1 /\
    (exec_module (new_manager legacy_params false device1)).1 = Ok result2 /\
    result2 !! "changed" = Some (PBool false) /\
    calls (exec_module (new_manager legacy_params false device1)).2 = [Load] /\
    device (exec_module (new_manager legacy_params false device1)).2 = device1.
Proof.
  refine (sys_second_run_changes_nothing legacy_params legacy_device _ _).
  - vm_compute. reflexivity.
  - intros k Hk. unfold updatables in Hk.
    repeat (apply elem_of_cons in Hk as [->|Hk]; [vm_compute; reflexivity|]).
    by apply elem_of_nil in Hk.
Defined.


End SysGlobalMore.

(** * Check mode, both modules *)
Module CheckModeProps.



End CheckModeProps.
